(** * Hydrogen device kernel: the Python device examples, embedded and verified

    The development follows [examples/python/advanced_camera.py],
    [guider_example.py], [custom_telescope.py] and [custom_switch.py].

    - [Py]: the fragment of Python's dynamic values and arithmetic the devices
      use (ints, binary64 floats, dictionaries, exceptions).
    - the device base class (property store, event log), which is C++ code
      bound into Python, modelled from the specification;
    - [AdvancedCamera] with its two background threads, run on a discrete
      simulation clock;
    - [PiGuider], [CustomTelescope], [MyCustomSwitch]. *)

From Stdlib Require Import ZArith Floats String List Bool Lia.
From stdpp Require Import gmap strings list.

Set Warnings "-inexact-float,-register-all".

Local Open Scope string_scope.
Local Open Scope Z_scope.

(** ** Python values *)

Module Py.

(** Exceptions the modelled code can raise. *)
Inductive exn :=
| TypeError | ValueError | KeyError | AttributeError | IndexError
| OverflowError | ZeroDivisionError | NotFound.

(** The name of the class of an exception. *)
Definition exn_text (e : exn) : string :=
  match e with
  | TypeError => "TypeError"
  | ValueError => "ValueError"
  | KeyError => "KeyError"
  | AttributeError => "AttributeError"
  | IndexError => "IndexError"
  | OverflowError => "OverflowError"
  | ZeroDivisionError => "ZeroDivisionError"
  | NotFound => "NotFound"
  end.

(** What a Python expression or call produces: a value, or an exception. *)
Inductive outcome (A : Type) :=
| Returned (a : A)
| Raised (e : exn).
Arguments Returned {A} a.
Arguments Raised {A} e.

Definition obind {A B} (o : outcome A) (k : A -> outcome B) : outcome B :=
  match o with
  | Returned a => k a
  | Raised e => Raised e
  end.

(** JSON-like dynamic values: what command parameters, properties and
    event payloads hold. [VFloat] is a binary64 float, as Python's;
    [VFloat64] is a [numpy.float64] scalar, the same binary64 number but
    with numpy's own [round]. *)
Inductive value :=
| VNone
| VBool (b : bool)
| VInt (z : Z)
| VFloat (f : float)
| VFloat64 (f : float)
| VStr (s : string)
| VList (l : list value)
| VDict (d : gmap string value).

(** Truth value testing ([if x:], [not x]). *)
Definition truthy (v : value) : bool :=
  match v with
  | VNone => false
  | VBool b => b
  | VInt z => negb (z =? 0)
  | VFloat f | VFloat64 f => negb (f =? 0)%float
  | VStr s => negb (String.eqb s "")
  | VList l => match l with [] => false | _ => true end
  | VDict d => negb (Nat.eqb (size d) 0)
  end.

(** *** The numeric tower: [bool] is an [int]; [int] and [float] mix. *)

Inductive num :=
| NInt (z : Z)
| NFloat (f : float)
| NFloat64 (f : float).

Definition as_num (v : value) : option num :=
  match v with
  | VBool b => Some (NInt (Z.b2z b))
  | VInt z => Some (NInt z)
  | VFloat f => Some (NFloat f)
  | VFloat64 f => Some (NFloat64 f)
  | _ => None
  end.

Definition of_num (n : num) : value :=
  match n with
  | NInt z => VInt z
  | NFloat f => VFloat f
  | NFloat64 f => VFloat64 f
  end.

(** [int.__float__]: round to nearest, ties to even; an int beyond the
    binary64 range raises. *)
Definition float_of_int (z : Z) : outcome float :=
  let f := SF2Prim (binary_normalize prec emax z 0 false) in
  if is_infinity f then Raised OverflowError else Returned f.

Definition to_float (n : num) : outcome float :=
  match n with
  | NInt z => float_of_int z
  | NFloat f | NFloat64 f => Returned f
  end.

(** [float.__trunc__], the integer part toward zero: what [int(x)] does on
    a float. *)
Definition trunc_float (f : float) : outcome Z :=
  match Prim2SF f with
  | S754_zero _ => Returned 0
  | S754_finite s m e =>
      let a := if 0 <=? e then Z.shiftl (Z.pos m) e
               else Z.shiftr (Z.pos m) (- e) in
      Returned (if s then - a else a)
  | S754_infinity _ => Raised OverflowError
  | S754_nan => Raised ValueError
  end.

(** [int(x)] on a number. *)
Definition int_of (n : num) : outcome Z :=
  match n with
  | NInt z => Returned z
  | NFloat f | NFloat64 f => trunc_float f
  end.

(** Python compares an int with a float exactly, with no rounding of the
    int. [None] stands for "unordered" (a NaN operand). *)
Definition int_float_compare (x : Z) (g : float) : option comparison :=
  match Prim2SF g with
  | S754_nan => None
  | S754_infinity s => Some (if s then Gt else Lt)
  | S754_zero _ => Some (x ?= 0)
  | S754_finite s m e =>
      let sm := if s then Z.neg m else Z.pos m in
      Some (if 0 <=? e then x ?= Z.shiftl sm e
            else Z.shiftl x (- e) ?= sm)
  end.

Definition float_compare (f g : float) : option comparison :=
  match (f ?= g)%float with
  | FEq => Some Eq
  | FLt => Some Lt
  | FGt => Some Gt
  | FNotComparable => None
  end.

(** A number as an exact int or as a binary64, whichever it is. *)
Definition magnitude (a : num) : Z + float :=
  match a with
  | NInt x => inl x
  | NFloat f | NFloat64 f => inr f
  end.

Definition num_compare (a b : num) : option comparison :=
  match magnitude a, magnitude b with
  | inl x, inl y => Some (x ?= y)
  | inr f, inr g => float_compare f g
  | inl x, inr g => int_float_compare x g
  | inr f, inl y => CompOpp <$> int_float_compare y f
  end.

Definition num_ltb (a b : num) : bool :=
  match num_compare a b with Some Lt => true | _ => false end.

Definition num_leb (a b : num) : bool :=
  match num_compare a b with Some Lt | Some Eq => true | _ => false end.

(** [a < n] and [a > n] against a number [n]: every ordering test of the
    modelled code has a numeric literal or a number on one side, and a
    non-number on the other side is a [TypeError]. *)
Definition lt_num (a : value) (n : num) : outcome bool :=
  match as_num a with
  | Some x => Returned (num_ltb x n)
  | None => Raised TypeError
  end.

Definition gt_num (a : value) (n : num) : outcome bool :=
  match as_num a with
  | Some x => Returned (num_ltb n x)
  | None => Raised TypeError
  end.

Definition is_float64 (a : num) : bool :=
  match a with
  | NFloat64 _ => true
  | _ => false
  end.

(** Binary arithmetic on numbers: int with int stays int, anything with a
    float is done in binary64, and the result is a numpy scalar as soon as
    one operand is. *)
Definition arith (fz : Z -> Z -> Z) (ff : float -> float -> float)
    (a b : num) : outcome num :=
  match a, b with
  | NInt x, NInt y => Returned (NInt (fz x y))
  | _, _ =>
      obind (to_float a) (fun f =>
      obind (to_float b) (fun g =>
      Returned (if is_float64 a || is_float64 b then NFloat64 (ff f g)
                else NFloat (ff f g))))
  end.

Definition num_sub := arith Z.sub PrimFloat.sub.
Definition num_add := arith Z.add PrimFloat.add.
Definition num_mul := arith Z.mul PrimFloat.mul.

Definition num_abs (a : num) : num :=
  match a with
  | NInt x => NInt (Z.abs x)
  | NFloat f => NFloat (abs f)
  | NFloat64 f => NFloat64 (abs f)
  end.

(** [numpy.sign]: -1, 0 or 1; of a float, a [numpy.float64] (a NaN stays
    NaN); of an int, a numpy integer. *)
Definition np_sign (a : num) : num :=
  match a with
  | NInt x => NInt (Z.sgn x)
  | NFloat f | NFloat64 f =>
      NFloat64 (if (0 <? f)%float then 1%float
                else if (f <? 0)%float then (-1)%float
                else if (f =? 0)%float then 0%float
                else f)
  end.

(** A float that came out of arithmetic with a numpy scalar (also a numpy
    integer) is a [numpy.float64]. *)
Definition as_float64 (a : num) : num :=
  match a with
  | NFloat f => NFloat64 f
  | _ => a
  end.

(** [a - b]: only numbers subtract. *)
Definition sub (a b : value) : outcome num :=
  match as_num a, as_num b with
  | Some x, Some y => num_sub x y
  | _, _ => Raised TypeError
  end.

(** [a + n] for a number [n]: a text or a list on the left cannot take a
    number. *)
Definition add_num (a : value) (n : num) : outcome num :=
  match as_num a with
  | Some x => num_add x n
  | None => Raised TypeError
  end.

(** [round(x, 2)]. An int is returned as it is.

    A Python float is rounded to the nearest multiple of 1/100 of its exact
    value, ties to even, and that decimal is read back as the nearest
    binary64: the quotient of the hundredths by 100 is computed with 64 extra
    bits and a sticky bit, then rounded once.

    A [numpy.float64] goes through numpy's [round]: multiply by 100.0, round
    to the nearest integer (ties to even), divide by 100.0, each step in
    binary64. *)
Definition round_half_even (n d : Z) : Z :=
  let q := n / d in
  let r := n mod d in
  match 2 * r ?= d with
  | Lt => q
  | Gt => q + 1
  | Eq => if Z.even q then q else q + 1
  end.

Definition hundredths_to_float (negative : bool) (h : Z) : float :=
  if h =? 0 then (if negative then (-0)%float else 0%float)
  else
    let q := Z.shiftl h 64 / 100 in
    let sticky := if Z.shiftl h 64 mod 100 =? 0 then 0 else 1 in
    let m := 2 * q + sticky in
    SF2Prim (binary_normalize prec emax (if negative then - m else m) (-65) false).

Definition round2_float (f : float) : float :=
  match Prim2SF f with
  | S754_finite s m e =>
      if 0 <=? e then f
      else hundredths_to_float s
             (round_half_even (Z.pos m * 100) (Z.shiftl 1 (- e)))
  | _ => f
  end.

(** [numpy.rint]: the nearest integer, ties to even, as a float. *)
Definition rint (f : float) : float :=
  match Prim2SF f with
  | S754_finite s m e =>
      if 0 <=? e then f
      else
        let h := round_half_even (Z.pos m) (Z.shiftl 1 (- e)) in
        if h =? 0 then (if s then (-0)%float else 0%float)
        else SF2Prim (binary_normalize prec emax (if s then - h else h) 0 false)
  | _ => f
  end.

Definition round2_float64 (f : float) : float := (rint (f * 100) / 100)%float.

Definition round2 (n : num) : num :=
  match n with
  | NInt z => NInt z
  | NFloat f => NFloat (round2_float f)
  | NFloat64 f => NFloat64 (round2_float64 f)
  end.

(** *** Dictionaries and command parameters *)

(** [key in container]. *)
Definition contains (key : string) (c : value) : outcome bool :=
  match c with
  | VDict d => Returned (bool_decide (is_Some (d !! key)))
  | VList l =>
      Returned (existsb (fun v => match v with
                                  | VStr s => String.eqb s key
                                  | _ => false
                                  end) l)
  | VStr s =>
      Returned (match String.index 0 key s with Some _ => true | None => false end)
  | _ => Raised TypeError
  end.

(** [container[key]] with a text key. *)
Definition getitem (c : value) (key : string) : outcome value :=
  match c with
  | VDict d =>
      match d !! key with
      | Some v => Returned v
      | None => Raised KeyError
      end
  | _ => Raised TypeError
  end.

(** [container.get(key, default)]: only a dict has the method. *)
Definition dict_get (c : value) (key : string) (default : value) : outcome value :=
  match c with
  | VDict d => Returned (match d !! key with Some v => v | None => default end)
  | _ => Raised AttributeError
  end.

End Py.

Import Py.

(** ** Computations over a device: state passing with exceptions

    A method of a device runs on the device state [S] and ends with a result
    or an exception; what it wrote before an exception stays written. *)

Definition M (S A : Type) : Type := S -> outcome A * S.

Definition ret {S A} (a : A) : M S A := fun s => (Returned a, s).
Definition raise {S A} (e : exn) : M S A := fun s => (Raised e, s).
Definition lift {S A} (o : outcome A) : M S A := fun s => (o, s).
Definition read {S A} (f : S -> A) : M S A := fun s => (Returned (f s), s).
Definition modify {S} (f : S -> S) : M S unit := fun s => (Returned tt, f s).

Definition bind {S A B} (m : M S A) (k : A -> M S B) : M S B :=
  fun s =>
    match m s with
    | (Returned a, s') => k a s'
    | (Raised e, s') => (Raised e, s')
    end.

(** [try: m except Exception as e: h e]. *)
Definition try_except {S A} (m : M S A) (h : exn -> M S A) : M S A :=
  fun s =>
    match m s with
    | (Returned a, s') => (Returned a, s')
    | (Raised e, s') => h e s'
    end.

Notation "x <- m ;; k" := (bind m (fun x => k))
  (at level 20, m at level 99, k at level 200, only parsing).
Notation "m ;;; k" := (bind m (fun _ => k))
  (at level 100, k at level 200, right associativity, only parsing).

(** The state a computation leaves, and whether it returned normally. *)
Definition exec {S A} (m : M S A) (s : S) : S := snd (m s).
Definition returns {S A} (m : M S A) (s : S) : bool :=
  match fst (m s) with Returned _ => true | Raised _ => false end.

(** ** The device base class

    [DeviceBase] is C++ code bound into Python ([pyastrodevice]); the Python
    sources only call it. *)

(** An emitted event: its name and the payload handed to [send_event]. *)
Record event := Event { ev_name : string; ev_payload : value }.

(** Modelled from the spec: the state of [DeviceBase], which is not among
    the Python sources: the device identity, the property store ("per-device
    mapping from property name to typed value", only the current value is
    kept) and the event bus ("append-only ... ordered per device"). *)
Record DeviceBase := {
  device_id : string;
  props : gmap string value;
  events : list event
}.

(** A device is a Python object that extends [DeviceBase]. *)
Class Device (D : Type) := {
  base : D -> DeviceBase;
  with_base : DeviceBase -> D -> D
}.

Section BaseMethods.
Context {D : Type} `{Device D}.

(** Modelled from the spec: [DeviceBase.set_property], "[set(name, value)]
    overwrites atomically". *)
Definition set_property (name : string) (v : value) : M D unit :=
  modify (fun d =>
    with_base {| device_id := device_id (base d);
                 props := <[name := v]> (props (base d));
                 events := events (base d) |} d).

(** Modelled from the spec: [DeviceBase.get_property], "[get(name)] returns
    the current value or a not found error". *)
Definition get_property (name : string) : M D value :=
  fun d =>
    match props (base d) !! name with
    | Some v => (Returned v, d)
    | None => (Raised NotFound, d)
    end.

(** Modelled from the spec: [DeviceBase.send_event], "[emit(name, payload)]
    ... queues the event": the event is appended to the device's log. *)
Definition send_event (name : string) (payload : value) : M D unit :=
  modify (fun d =>
    with_base {| device_id := device_id (base d);
                 props := props (base d);
                 events := events (base d) ++ [Event name payload] |} d).
End BaseMethods.

(** A dict display [{k: v, ...}]: of two entries with one key the later
    one stays. *)
Definition dict (l : list (string * value)) : value :=
  VDict (fold_left (fun d kv => <[fst kv := snd kv]> d) l ∅).

(** The events of a given name, in emission order. *)
Definition events_named (name : string) (l : list event) : list event :=
  List.filter (fun e => String.eqb (ev_name e) name) l.

(** ** The simulation clock

    The kernel's background loops sleep 0.5, 1.0, 2.0 and 5.0 seconds. The
    clock counts eighths of a second; [time.time()] is the clock reading in
    seconds, [time.sleep(d)] suspends a thread for exactly [d], and the
    statements between two sleeps take no time. *)

Definition ticks_per_second : N := 8.

Definition time_time (n : N) : float :=
  match float_of_int (Z.of_N n) with
  | Returned f => (f / 8)%float
  | Raised _ => infinity
  end.

(** ** The camera: [AdvancedCamera] *)

(** Where an exposure thread ([exposure_process]) stands. *)
Inductive job_pc :=
| JStart      (* started, has not run yet *)
| JPoll       (* asleep in [time.sleep(0.5)], inside the progress loop *)
| JReadout    (* asleep in [time.sleep(1.0)], after the READING_OUT event *)
| JDone.      (* returned *)

(** An exposure thread: the arguments and locals of [exposure_process], the
    point it is suspended at and the instant it resumes. *)
Record job := {
  j_exposure_time : float;
  j_is_light : value;
  j_start_time : float;
  j_pc : job_pc;
  j_wake : N
}.

(** Where the update thread ([update_loop]) stands. *)
Inductive update_pc :=
| UStart      (* started, has not run yet *)
| USleep      (* asleep in [time.sleep(1.0)] *)
| UDone.      (* left the loop, or died of an exception *)

Record uthread := { u_pc : update_pc; u_wake : N }.

(** The bytes [generate_image] stores. The pixels are random draws (numpy's
    generator), so only the length of the buffer is kept. *)
Record buffer := { nbytes : Z }.

Record Camera := {
  cam_base : DeviceBase;
  (* attributes set by [__init__] *)
  width : Z;
  height : Z;
  pixel_size : float;
  bit_depth : Z;
  gain : Z;
  exposure_time : float;
  cooler_temp : value;
  sensor_temp : value;
  cooler_power : Z;
  cooler_enabled : value;
  is_exposing : bool;
  image_ready : bool;
  image_data : option buffer;
  running : bool;
  (* [self.update_thread] and [self.exposure_thread]: the index, in
     [update_threads] and in [threads], of the last thread started *)
  update_thread : option nat;
  exposure_thread : option nat;
  (* every thread started so far; a thread its attribute no longer points to
     keeps running *)
  update_threads : list uthread;
  threads : list job;
  (* the simulation clock *)
  now : N
}.

Section CameraSetters.
Definition set_cam_base (x : DeviceBase) (c : Camera) : Camera :=
  {| cam_base := x; width := width c; height := height c;
     pixel_size := pixel_size c; bit_depth := bit_depth c; gain := gain c;
     exposure_time := exposure_time c; cooler_temp := cooler_temp c;
     sensor_temp := sensor_temp c; cooler_power := cooler_power c;
     cooler_enabled := cooler_enabled c; is_exposing := is_exposing c;
     image_ready := image_ready c; image_data := image_data c;
     running := running c; update_thread := update_thread c;
     exposure_thread := exposure_thread c;
     update_threads := update_threads c; threads := threads c;
     now := now c |}.

Definition set_exposure_time (x : float) (c : Camera) : Camera :=
  {| cam_base := cam_base c; width := width c; height := height c;
     pixel_size := pixel_size c; bit_depth := bit_depth c; gain := gain c;
     exposure_time := x; cooler_temp := cooler_temp c;
     sensor_temp := sensor_temp c; cooler_power := cooler_power c;
     cooler_enabled := cooler_enabled c; is_exposing := is_exposing c;
     image_ready := image_ready c; image_data := image_data c;
     running := running c; update_thread := update_thread c;
     exposure_thread := exposure_thread c;
     update_threads := update_threads c; threads := threads c;
     now := now c |}.

Definition set_cooler_temp (x : value) (c : Camera) : Camera :=
  {| cam_base := cam_base c; width := width c; height := height c;
     pixel_size := pixel_size c; bit_depth := bit_depth c; gain := gain c;
     exposure_time := exposure_time c; cooler_temp := x;
     sensor_temp := sensor_temp c; cooler_power := cooler_power c;
     cooler_enabled := cooler_enabled c; is_exposing := is_exposing c;
     image_ready := image_ready c; image_data := image_data c;
     running := running c; update_thread := update_thread c;
     exposure_thread := exposure_thread c;
     update_threads := update_threads c; threads := threads c;
     now := now c |}.

Definition set_sensor_temp (x : value) (c : Camera) : Camera :=
  {| cam_base := cam_base c; width := width c; height := height c;
     pixel_size := pixel_size c; bit_depth := bit_depth c; gain := gain c;
     exposure_time := exposure_time c; cooler_temp := cooler_temp c;
     sensor_temp := x; cooler_power := cooler_power c;
     cooler_enabled := cooler_enabled c; is_exposing := is_exposing c;
     image_ready := image_ready c; image_data := image_data c;
     running := running c; update_thread := update_thread c;
     exposure_thread := exposure_thread c;
     update_threads := update_threads c; threads := threads c;
     now := now c |}.

Definition set_cooler_power (x : Z) (c : Camera) : Camera :=
  {| cam_base := cam_base c; width := width c; height := height c;
     pixel_size := pixel_size c; bit_depth := bit_depth c; gain := gain c;
     exposure_time := exposure_time c; cooler_temp := cooler_temp c;
     sensor_temp := sensor_temp c; cooler_power := x;
     cooler_enabled := cooler_enabled c; is_exposing := is_exposing c;
     image_ready := image_ready c; image_data := image_data c;
     running := running c; update_thread := update_thread c;
     exposure_thread := exposure_thread c;
     update_threads := update_threads c; threads := threads c;
     now := now c |}.

Definition set_cooler_enabled (x : value) (c : Camera) : Camera :=
  {| cam_base := cam_base c; width := width c; height := height c;
     pixel_size := pixel_size c; bit_depth := bit_depth c; gain := gain c;
     exposure_time := exposure_time c; cooler_temp := cooler_temp c;
     sensor_temp := sensor_temp c; cooler_power := cooler_power c;
     cooler_enabled := x; is_exposing := is_exposing c;
     image_ready := image_ready c; image_data := image_data c;
     running := running c; update_thread := update_thread c;
     exposure_thread := exposure_thread c;
     update_threads := update_threads c; threads := threads c;
     now := now c |}.

Definition set_is_exposing (x : bool) (c : Camera) : Camera :=
  {| cam_base := cam_base c; width := width c; height := height c;
     pixel_size := pixel_size c; bit_depth := bit_depth c; gain := gain c;
     exposure_time := exposure_time c; cooler_temp := cooler_temp c;
     sensor_temp := sensor_temp c; cooler_power := cooler_power c;
     cooler_enabled := cooler_enabled c; is_exposing := x;
     image_ready := image_ready c; image_data := image_data c;
     running := running c; update_thread := update_thread c;
     exposure_thread := exposure_thread c;
     update_threads := update_threads c; threads := threads c;
     now := now c |}.

Definition set_image_ready (x : bool) (c : Camera) : Camera :=
  {| cam_base := cam_base c; width := width c; height := height c;
     pixel_size := pixel_size c; bit_depth := bit_depth c; gain := gain c;
     exposure_time := exposure_time c; cooler_temp := cooler_temp c;
     sensor_temp := sensor_temp c; cooler_power := cooler_power c;
     cooler_enabled := cooler_enabled c; is_exposing := is_exposing c;
     image_ready := x; image_data := image_data c; running := running c;
     update_thread := update_thread c; exposure_thread := exposure_thread c;
     update_threads := update_threads c; threads := threads c;
     now := now c |}.

Definition set_image_data (x : option buffer) (c : Camera) : Camera :=
  {| cam_base := cam_base c; width := width c; height := height c;
     pixel_size := pixel_size c; bit_depth := bit_depth c; gain := gain c;
     exposure_time := exposure_time c; cooler_temp := cooler_temp c;
     sensor_temp := sensor_temp c; cooler_power := cooler_power c;
     cooler_enabled := cooler_enabled c; is_exposing := is_exposing c;
     image_ready := image_ready c; image_data := x; running := running c;
     update_thread := update_thread c; exposure_thread := exposure_thread c;
     update_threads := update_threads c; threads := threads c;
     now := now c |}.

Definition set_running (x : bool) (c : Camera) : Camera :=
  {| cam_base := cam_base c; width := width c; height := height c;
     pixel_size := pixel_size c; bit_depth := bit_depth c; gain := gain c;
     exposure_time := exposure_time c; cooler_temp := cooler_temp c;
     sensor_temp := sensor_temp c; cooler_power := cooler_power c;
     cooler_enabled := cooler_enabled c; is_exposing := is_exposing c;
     image_ready := image_ready c; image_data := image_data c; running := x;
     update_thread := update_thread c; exposure_thread := exposure_thread c;
     update_threads := update_threads c; threads := threads c;
     now := now c |}.

Definition set_update_thread (x : option nat) (c : Camera) : Camera :=
  {| cam_base := cam_base c; width := width c; height := height c;
     pixel_size := pixel_size c; bit_depth := bit_depth c; gain := gain c;
     exposure_time := exposure_time c; cooler_temp := cooler_temp c;
     sensor_temp := sensor_temp c; cooler_power := cooler_power c;
     cooler_enabled := cooler_enabled c; is_exposing := is_exposing c;
     image_ready := image_ready c; image_data := image_data c;
     running := running c; update_thread := x;
     exposure_thread := exposure_thread c;
     update_threads := update_threads c; threads := threads c;
     now := now c |}.

Definition set_exposure_thread (x : option nat) (c : Camera) : Camera :=
  {| cam_base := cam_base c; width := width c; height := height c;
     pixel_size := pixel_size c; bit_depth := bit_depth c; gain := gain c;
     exposure_time := exposure_time c; cooler_temp := cooler_temp c;
     sensor_temp := sensor_temp c; cooler_power := cooler_power c;
     cooler_enabled := cooler_enabled c; is_exposing := is_exposing c;
     image_ready := image_ready c; image_data := image_data c;
     running := running c; update_thread := update_thread c;
     exposure_thread := x; update_threads := update_threads c;
     threads := threads c; now := now c |}.

Definition set_update_threads (x : list uthread) (c : Camera) : Camera :=
  {| cam_base := cam_base c; width := width c; height := height c;
     pixel_size := pixel_size c; bit_depth := bit_depth c; gain := gain c;
     exposure_time := exposure_time c; cooler_temp := cooler_temp c;
     sensor_temp := sensor_temp c; cooler_power := cooler_power c;
     cooler_enabled := cooler_enabled c; is_exposing := is_exposing c;
     image_ready := image_ready c; image_data := image_data c;
     running := running c; update_thread := update_thread c;
     exposure_thread := exposure_thread c; update_threads := x;
     threads := threads c; now := now c |}.

Definition set_threads (x : list job) (c : Camera) : Camera :=
  {| cam_base := cam_base c; width := width c; height := height c;
     pixel_size := pixel_size c; bit_depth := bit_depth c; gain := gain c;
     exposure_time := exposure_time c; cooler_temp := cooler_temp c;
     sensor_temp := sensor_temp c; cooler_power := cooler_power c;
     cooler_enabled := cooler_enabled c; is_exposing := is_exposing c;
     image_ready := image_ready c; image_data := image_data c;
     running := running c; update_thread := update_thread c;
     exposure_thread := exposure_thread c;
     update_threads := update_threads c; threads := x; now := now c |}.

Definition set_now (x : N) (c : Camera) : Camera :=
  {| cam_base := cam_base c; width := width c; height := height c;
     pixel_size := pixel_size c; bit_depth := bit_depth c; gain := gain c;
     exposure_time := exposure_time c; cooler_temp := cooler_temp c;
     sensor_temp := sensor_temp c; cooler_power := cooler_power c;
     cooler_enabled := cooler_enabled c; is_exposing := is_exposing c;
     image_ready := image_ready c; image_data := image_data c;
     running := running c; update_thread := update_thread c;
     exposure_thread := exposure_thread c;
     update_threads := update_threads c; threads := threads c; now := x |}.
End CameraSetters.

#[export] Instance camera_device : Device Camera :=
  {| base := cam_base; with_base := set_cam_base |}.

(** ** The guider: [PiGuider] *)

Module Guider.

Record PiGuider := {
  g_base : DeviceBase;
  connected_camera : value;
  dither_sequence : list value;
  dither_index : Z;
  (* the calls made to [PyGuider.dither], oldest first: amount and settle flag *)
  dither_calls : list (value * bool)
}.

Definition set_dither_index (i : Z) (g : PiGuider) : PiGuider :=
  {| g_base := g_base g; connected_camera := connected_camera g;
     dither_sequence := dither_sequence g; dither_index := i;
     dither_calls := dither_calls g |}.

Definition set_dither_calls (l : list (value * bool)) (g : PiGuider) : PiGuider :=
  {| g_base := g_base g; connected_camera := connected_camera g;
     dither_sequence := dither_sequence g; dither_index := dither_index g;
     dither_calls := l |}.

(** [PiGuider(device_id)]. *)
Definition init (id : string) : PiGuider :=
  {| g_base := {| device_id := id; props := ∅; events := [] |};
     connected_camera := VNone;
     dither_sequence := [VFloat 1.5; VFloat 2.0; VFloat 2.5; VFloat 2.0; VFloat 1.5];
     dither_index := 0;
     dither_calls := [] |}.

(** [l[i]]: a negative index counts from the end; out of range raises. *)
Definition list_index (l : list value) (i : Z) : outcome value :=
  let n := Z.of_nat (length l) in
  let k := if i <? 0 then i + n else i in
  if (0 <=? k) && (k <? n) then
    match l !! Z.to_nat k with
    | Some v => Returned v
    | None => Raised IndexError
    end
  else Raised IndexError.

(** [a % b] on ints: the result has the sign of [b]. *)
Definition int_mod (a b : Z) : outcome Z :=
  if b =? 0 then Raised ZeroDivisionError else Returned (a mod b).

(** Modelled from the spec: [PyGuider.dither], the C++ base class, which
    "applies the offset as a momentary perturbation event, not a persistent
    position change" and is "only valid in GUIDING". What the base class does
    with a call is not in the Python sources: the call is recorded with the
    amount and the settle flag it was given. *)
Definition dither (amount : value) (settle : bool) : M PiGuider unit :=
  modify (fun g => set_dither_calls (dither_calls g ++ [(amount, settle)]) g).

Definition auto_dither : M PiGuider unit :=
  sequence <- read dither_sequence ;;
  i <- read dither_index ;;
  amount <- lift (list_index sequence i) ;;
  next <- lift (int_mod (i + 1) (Z.of_nat (length sequence))) ;;
  modify (set_dither_index next) ;;;
  dither amount true.

(** [n] calls of [auto_dither] in a row; the cursor before each call is
    collected, oldest first. A call that raises ends the run. *)
Fixpoint auto_dithers (n : nat) (g : PiGuider) : list Z * PiGuider :=
  match n with
  | O => ([], g)
  | S n' =>
      match auto_dither g with
      | (Returned _, g') =>
          let '(visited, g'') := auto_dithers n' g' in
          (dither_index g :: visited, g'')
      | (Raised _, g') => ([], g')
      end
  end.

End Guider.

(** ** Stand-ins for the collaborators

    The kernel below takes the timestamp rendering, Python's float parser,
    numpy's exponential and the message of an exception as parameters.
    Closed examples run it with these: every instant renders as the same
    text, no text is read as a float, every exponential is 1 and the message
    of an exception is the name of its class. *)

Definition epoch_timestamp (n : N) : string := "1970-01-01T00:00:00Z".

Definition no_float_text (s : string) : option float := None.

Definition flat_exp (x : float) : float := 1.

Definition class_name (e : exn) : string := exn_text e.

Section Kernel.

(** [astro.get_iso_timestamp()], read at a clock instant: the rendering
    belongs to the C++ library. *)
Variable get_iso_timestamp : N -> string.

(** [float(s)] on a text: Python's literal parser, [None] when the text is
    not a float literal. *)
Variable float_of_text : string -> option float.

(** [str(x)], as an f-string renders a value: the interpreter's rendering. *)
Variable text_of : value -> string.

(** The draws of Python's [random] module in the switch's thread, by clock
    instant: [random.uniform(-0.5, 0.5)] and [random.random()]. *)
Variable random_draws : N -> float * float.

(** [numpy.exp] on a binary64: the exponential of the platform's C
    library. *)
Variable np_exp : float -> float.

(** [str(e)] on a caught exception: the message the interpreter gave it. *)
Variable message_of : exn -> string.

Definition timestamp : M Camera value :=
  read (fun c => VStr (get_iso_timestamp (now c))).

(** *** [__init__]

    The manufacturer and the model go to the C++ constructor and are not read
    back by the Python code. *)

Definition blank_camera (id : string) : Camera :=
  {| cam_base := {| device_id := id; props := ∅; events := [] |};
     width := 1936; height := 1096; pixel_size := 5.86; bit_depth := 16;
     gain := 0; exposure_time := 0.0; cooler_temp := VFloat 20.0;
     sensor_temp := VFloat 20.0; cooler_power := 0;
     cooler_enabled := VBool false; is_exposing := false;
     image_ready := false; image_data := None; running := false;
     update_thread := None; exposure_thread := None; update_threads := [];
     threads := []; now := 0 |}.

Definition init_properties : M Camera unit :=
  c <- read id ;;
  set_property "width" (VInt (width c)) ;;;
  set_property "height" (VInt (height c)) ;;;
  set_property "pixel_size" (VFloat (pixel_size c)) ;;;
  set_property "bit_depth" (VInt (bit_depth c)) ;;;
  set_property "gain" (VInt (gain c)) ;;;
  set_property "offset" (VInt 10) ;;;
  set_property "sensor_temperature" (sensor_temp c) ;;;
  set_property "cooler_temperature" (cooler_temp c) ;;;
  set_property "cooler_power" (VInt (cooler_power c)) ;;;
  set_property "cooler_enabled" (cooler_enabled c) ;;;
  set_property "exposure_time" (VFloat (exposure_time c)) ;;;
  set_property "exposing" (VBool (is_exposing c)) ;;;
  set_property "image_ready" (VBool (image_ready c)) ;;;
  set_property "connected" (VBool false).

(** [AdvancedCamera(device_id)]: a fresh camera. *)
Definition init (id : string) : Camera := exec init_properties (blank_camera id).

(** *** [start] *)

(** [base_ok] is the verdict of [super().start()], the C++ base class. *)
Definition start (base_ok : bool) : M Camera bool :=
  if base_ok then
    modify (set_running true) ;;;
    set_property "connected" (VBool true) ;;;
    c <- read id ;;
    modify (set_update_threads
              (update_threads c ++ [{| u_pc := UStart; u_wake := now c |}])) ;;;
    modify (set_update_thread (Some (length (update_threads c)))) ;;;
    ret true
  else ret false.

(** *** [update_loop]: one pass of the loop body after the sleep *)

Definition set_sensor (n : num) : M Camera unit :=
  modify (set_sensor_temp (of_num n)).

Definition update_tick : M Camera unit :=
  enabled <- read cooler_enabled ;;
  (if truthy enabled then
     target <- read cooler_temp ;;
     sensor <- read sensor_temp ;;
     temp_diff <- lift (sub target sensor) ;;
     if num_ltb (NFloat 0.1) (num_abs temp_diff) then
       scaled <- lift (num_mul (num_abs temp_diff) (NInt 10)) ;;
       i <- lift (int_of scaled) ;;
       modify (set_cooler_power (Z.min 100 (Z.max 0 i))) ;;;
       power <- read cooler_power ;;
       sp <- lift (num_mul (np_sign temp_diff) (NInt power)) ;;
       delta <- lift (num_mul sp (NFloat 0.01)) ;;
       sensor' <- lift (add_num sensor (as_float64 delta)) ;;
       set_sensor sensor'
     else
       modify (set_cooler_power 10) ;;;
       modify (set_sensor_temp target)
   else
     modify (set_cooler_power 0) ;;;
     sensor <- read sensor_temp ;;
     gap <- lift (sub sensor (VFloat 20.0)) ;;
     if num_ltb (NFloat 0.1) (num_abs gap) then
       back <- lift (sub (VFloat 20.0) sensor) ;;
       delta <- lift (num_mul back (NFloat 0.05)) ;;
       sensor' <- lift (add_num sensor delta) ;;
       set_sensor sensor'
     else ret tt) ;;;
  sensor <- read sensor_temp ;;
  shown <- lift (match as_num sensor with
                 | Some n => Returned (of_num (round2 n))
                 | None => Raised TypeError
                 end) ;;
  set_property "sensor_temperature" shown ;;;
  power <- read cooler_power ;;
  set_property "cooler_power" (VInt power).

(** *** [start_exposure]

    The exposure time is a float: the one caller, [handle_start_exposure],
    passes [float(params["duration"])]. The new thread is appended to
    [threads]; it first runs when the controller next waits. *)

Definition spawn_exposure (exposure_time : float) (is_light : value) : M Camera unit :=
  c <- read id ;;
  modify (set_threads (threads c ++
            [{| j_exposure_time := exposure_time; j_is_light := is_light;
                j_start_time := 0; j_pc := JStart; j_wake := now c |}])) ;;;
  modify (set_exposure_thread (Some (length (threads c)))).

Definition start_exposure (exposure_time : float) (is_light : value) : M Camera bool :=
  busy <- read is_exposing ;;
  if busy then ret false
  else
    modify (set_exposure_time exposure_time) ;;;
    modify (set_is_exposing true) ;;;
    modify (set_image_ready false) ;;;
    set_property "exposing" (VBool true) ;;;
    set_property "exposure_time" (VFloat exposure_time) ;;;
    set_property "image_ready" (VBool false) ;;;
    spawn_exposure exposure_time is_light ;;;
    ret true.

(** *** [abort_exposure] *)

Definition abort_exposure : M Camera bool :=
  busy <- read is_exposing ;;
  if negb busy then ret false
  else
    modify (set_is_exposing false) ;;;
    set_property "exposing" (VBool false) ;;;
    ts <- timestamp ;;
    t <- read exposure_time ;;
    send_event "EXPOSURE_ABORTED"
      (dict [("timestamp", ts); ("exposure_time", VFloat t)]) ;;;
    ret true.

(** *** [generate_image] *)

(** The mean of a dark frame:
    [int(2 * self.exposure_time * np.exp(0.1 * (self.sensor_temp + 20)))].
    The product is a [numpy.float64]; [int] raises on a NaN and on an
    infinity. *)
Definition dark_current (c : Camera) : outcome Z :=
  obind (add_num (sensor_temp c) (NInt 20)) (fun warm =>
  obind (num_mul (NFloat 0.1) warm) (fun scaled =>
  obind (to_float scaled) (fun x =>
  trunc_float (2 * exposure_time c * np_exp x)%float))).

(** Both branches (light frame, dark frame) build a [height] by [width] array
    of 16-bit pixels and store its bytes; the dark frame first computes its
    mean, which can raise. The drawing and array calls of numpy and PIL are
    taken as total. *)
Definition generate_image (is_light : value) : M Camera unit :=
  c <- read id ;;
  (if truthy is_light then ret tt
   else lift (dark_current c) ;;; ret tt) ;;;
  modify (set_image_data (Some {| nbytes := 2 * (height c * width c) |})).

(** *** [exposure_process], between two sleeps *)

(** Float division: Python raises on a zero divisor. *)
Definition float_div (a b : float) : outcome float :=
  if (b =? 0)%float then Raised ZeroDivisionError else Returned (a / b)%float.

(** The [while] test and what follows it up to the next [time.sleep]: either
    one pass of the loop body, or the code after the loop up to the readout
    sleep. *)
Definition exposure_poll (j : job) : M Camera job :=
  busy <- read is_exposing ;;
  n <- read now ;;
  let elapsed := (time_time n - j_start_time j)%float in
  if busy && (elapsed <? j_exposure_time j)%float then
    progress <- lift (float_div elapsed (j_exposure_time j)) ;;
    send_event "EXPOSURE_PROGRESS"
      (dict [("progress", VFloat progress); ("elapsed", VFloat elapsed);
             ("remaining", VFloat (j_exposure_time j - elapsed))]) ;;;
    ret {| j_exposure_time := j_exposure_time j; j_is_light := j_is_light j;
           j_start_time := j_start_time j; j_pc := JPoll; j_wake := n + 4 |}
  else
    busy' <- read is_exposing ;;
    if negb busy' then
      ret {| j_exposure_time := j_exposure_time j; j_is_light := j_is_light j;
             j_start_time := j_start_time j; j_pc := JDone; j_wake := n |}
    else
      ts <- timestamp ;;
      send_event "READING_OUT" (dict [("timestamp", ts)]) ;;;
      ret {| j_exposure_time := j_exposure_time j; j_is_light := j_is_light j;
             j_start_time := j_start_time j; j_pc := JReadout; j_wake := n + 8 |}.

(** The first statements of the thread, then the first [while] test. *)
Definition exposure_begin (j : job) : M Camera job :=
  n <- read now ;;
  ts <- timestamp ;;
  send_event "EXPOSURE_STARTED"
    (dict [("timestamp", ts); ("exposure_time", VFloat (j_exposure_time j))]) ;;;
  exposure_poll {| j_exposure_time := j_exposure_time j; j_is_light := j_is_light j;
                   j_start_time := time_time n; j_pc := JStart; j_wake := n |}.

(** After the readout sleep: the image, the flags, the completion event. *)
Definition exposure_finish (j : job) : M Camera job :=
  generate_image (j_is_light j) ;;;
  modify (set_is_exposing false) ;;;
  modify (set_image_ready true) ;;;
  set_property "exposing" (VBool false) ;;;
  set_property "image_ready" (VBool true) ;;;
  ts <- timestamp ;;
  c <- read id ;;
  send_event "EXPOSURE_COMPLETE"
    (dict [("timestamp", ts); ("exposure_time", VFloat (j_exposure_time j));
           ("is_light", j_is_light j);
           ("image_size", dict [("width", VInt (width c)); ("height", VInt (height c))])]) ;;;
  ret {| j_exposure_time := j_exposure_time j; j_is_light := j_is_light j;
         j_start_time := j_start_time j; j_pc := JDone; j_wake := now c |}.

(** The [except Exception as e] clause. *)
Definition exposure_failed (j : job) (e : exn) : M Camera job :=
  modify (set_is_exposing false) ;;;
  set_property "exposing" (VBool false) ;;;
  ts <- timestamp ;;
  send_event "EXPOSURE_ERROR"
    (dict [("timestamp", ts); ("error", VStr (message_of e))]) ;;;
  n <- read now ;;
  ret {| j_exposure_time := j_exposure_time j; j_is_light := j_is_light j;
         j_start_time := j_start_time j; j_pc := JDone; j_wake := n |}.

(** One resumption of an exposure thread: from where it is suspended to its
    next sleep or its end. *)
Definition job_step (j : job) : M Camera job :=
  match j_pc j with
  | JStart => try_except (exposure_begin j) (exposure_failed j)
  | JPoll => try_except (exposure_poll j) (exposure_failed j)
  | JReadout => try_except (exposure_finish j) (exposure_failed j)
  | JDone => ret j
  end.

Definition job_alive (j : job) : bool :=
  match j_pc j with JDone => false | _ => true end.

Definition job_due (n : N) (j : job) : bool := job_alive j && (j_wake j <=? n)%N.

(** *** [set_cooler] *)

(** [max(-30, min(50, temperature))]: [min] keeps its first argument unless
    the second is smaller, [max] unless the second is greater. *)
Definition clamp_target (temperature : value) : outcome value :=
  obind (lt_num temperature (NInt 50)) (fun below =>
  let m := if below then temperature else VInt 50 in
  obind (gt_num m (NInt (-30))) (fun above =>
  Returned (if above then m else VInt (-30)))).

Definition set_cooler (enabled : value) (temperature : value) : M Camera bool :=
  old_enabled <- read cooler_enabled ;;
  old_temp <- read cooler_temp ;;
  modify (set_cooler_enabled enabled) ;;;
  match temperature with
  | VNone => ret tt
  | _ => t <- lift (clamp_target temperature) ;; modify (set_cooler_temp t)
  end ;;;
  target <- read cooler_temp ;;
  set_property "cooler_enabled" enabled ;;;
  set_property "cooler_temperature" target ;;;
  ts <- timestamp ;;
  send_event "COOLER_CHANGED"
    (dict [("timestamp", ts);
           ("enabled", dict [("current", enabled); ("previous", old_enabled)]);
           ("temperature", dict [("current", target); ("previous", old_temp)])]) ;;;
  ret true.

(** *** The scheduler

    Calls made on the camera (by the controller's thread) are atomic. The
    background threads run when that thread waits: [settle] resumes, at the
    current instant, every thread whose sleep is over, the update threads
    first and then the exposure threads, each kind in the order the threads
    were started. *)

Definition update_loop_test (c : Camera) : uthread :=
  if running c then {| u_pc := USleep; u_wake := (now c + 8)%N |}
  else {| u_pc := UDone; u_wake := now c |}.

(** One resumption of the update thread: the [while self.running] test, and
    after a sleep the loop body first. An exception ends the thread. *)
Definition update_resume (u : uthread) (c : Camera) : uthread * Camera :=
  match u_pc u with
  | UDone => (u, c)
  | UStart => (update_loop_test c, c)
  | USleep =>
      match update_tick c with
      | (Returned _, c') => (update_loop_test c', c')
      | (Raised _, c') => ({| u_pc := UDone; u_wake := now c' |}, c')
      end
  end.

Definition uthread_alive (u : uthread) : bool :=
  match u_pc u with UDone => false | _ => true end.

Definition update_due (n : N) (u : uthread) : bool :=
  uthread_alive u && (u_wake u <=? n)%N.

Fixpoint settle_updates (us : list uthread) (c : Camera) : list uthread * Camera :=
  match us with
  | [] => ([], c)
  | u :: rest =>
      let '(u', c') := if update_due (now c) u then update_resume u c else (u, c) in
      let '(rest', c'') := settle_updates rest c' in
      (u' :: rest', c'')
  end.

Definition job_resume (j : job) (c : Camera) : job * Camera :=
  if job_due (now c) j then
    match job_step j c with
    | (Returned j', c') => (j', c')
    | (Raised _, c') =>
        ({| j_exposure_time := j_exposure_time j; j_is_light := j_is_light j;
            j_start_time := j_start_time j; j_pc := JDone; j_wake := now c' |}, c')
    end
  else (j, c).

Fixpoint settle_jobs (js : list job) (c : Camera) : list job * Camera :=
  match js with
  | [] => ([], c)
  | j :: rest =>
      let '(j', c') := job_resume j c in
      let '(rest', c'') := settle_jobs rest c' in
      (j' :: rest', c'')
  end.

Definition settle (c : Camera) : Camera :=
  let '(us, c1) := settle_updates (update_threads c) c in
  let '(js, c2) := settle_jobs (threads c1) c1 in
  set_threads js (set_update_threads us c2).

Definition tick_clock (c : Camera) : Camera := set_now (now c + 1)%N c.

(** The controller waits [k] eighths of a second. *)
Fixpoint elapse (k : nat) (c : Camera) : Camera :=
  match k with
  | O => settle c
  | S k' => elapse k' (tick_clock (settle c))
  end.

(** [thread.join(timeout)]: wait until the thread has ended, [k] eighths of a
    second at most; on a thread that has ended already it returns at once. *)
Fixpoint join (alive : Camera -> bool) (k : nat) (c : Camera) : Camera :=
  if alive c then
    let c' := settle c in
    if alive c' then
      match k with
      | O => c'
      | S k' => join alive k' (tick_clock c')
      end
    else c'
  else c.

Definition update_alive (c : Camera) : bool :=
  match update_thread c with
  | Some i =>
      match update_threads c !! i with
      | Some u => uthread_alive u
      | None => false
      end
  | None => false
  end.

Definition exposure_alive (c : Camera) : bool :=
  match exposure_thread c with
  | Some i =>
      match threads c !! i with
      | Some j => job_alive j
      | None => false
      end
  | None => false
  end.

(** *** [stop] *)

(** Modelled from the spec: [DeviceBase.stop], the C++ base class: "calling
    it on an already-stopped device is a no-op, not an error"; it touches no
    attribute of the Python object. *)
Definition base_stop {D : Type} : M D unit := ret tt.

(** [stop] returns nothing (Python's [None]). *)
Definition stop : M Camera unit :=
  modify (set_running false) ;;;
  c <- read id ;;
  (if update_alive c then modify (join update_alive 16) else ret tt) ;;;
  c <- read id ;;
  (if exposure_alive c then modify (join exposure_alive 16) else ret tt) ;;;
  set_property "connected" (VBool false) ;;;
  base_stop.

(** *** Command handlers

    A command is the JSON object [{name, parameters}]; the response is the
    mutable object the handler writes [status] and [details] into, returned
    here as the handler leaves it. *)

Definition respond (status : string) (details : value)
    (response : gmap string value) : gmap string value :=
  <["details" := details]> (<["status" := VStr status]> response).

Definition message (msg : string) : value := dict [("message", VStr msg)].

(** [float(x)]. *)
Definition float_of (v : value) : outcome float :=
  match v with
  | VFloat f | VFloat64 f => Returned f
  | VInt z => float_of_int z
  | VBool b => Returned (if b then 1 else 0)%float
  | VStr s =>
      match float_of_text s with
      | Some f => Returned f
      | None => Raised ValueError
      end
  | _ => Raised TypeError
  end.

Definition handle_start_exposure (cmd response : gmap string value)
    : M Camera (gmap string value) :=
  params <- lift (getitem (VDict cmd) "parameters") ;;
  has <- lift (contains "duration" params) ;;
  if negb has then
    ret (respond "ERROR" (message "Missing required parameter: duration") response)
  else
    d <- lift (getitem params "duration") ;;
    duration <- lift (float_of d) ;;
    is_light <- lift (dict_get params "light" (VBool true)) ;;
    ok <- start_exposure duration is_light ;;
    if ok then
      started <- timestamp ;;
      estimated <- timestamp ;;
      ret (respond "SUCCESS"
             (dict [("exposure_time", VFloat duration); ("started_at", started);
                    ("estimated_completion", estimated)]) response)
    else
      ret (respond "ERROR" (message "Failed to start exposure, camera busy") response).

Definition handle_abort_exposure (cmd response : gmap string value)
    : M Camera (gmap string value) :=
  ok <- abort_exposure ;;
  if ok then
    ret (respond "SUCCESS" (message "Exposure aborted successfully") response)
  else
    ret (respond "ERROR" (message "No exposure in progress to abort") response).

Definition handle_set_cooler (cmd response : gmap string value)
    : M Camera (gmap string value) :=
  params <- lift (getitem (VDict cmd) "parameters") ;;
  has <- lift (contains "enabled" params) ;;
  if negb has then
    ret (respond "ERROR" (message "Missing required parameter: enabled") response)
  else
    enabled <- lift (getitem params "enabled") ;;
    temperature <- lift (dict_get params "temperature" VNone) ;;
    ok <- set_cooler enabled temperature ;;
    if ok then
      c <- read id ;;
      ret (respond "SUCCESS"
             (dict [("cooler_enabled", enabled); ("cooler_temperature", cooler_temp c);
                    ("sensor_temperature", sensor_temp c)]) response)
    else
      ret (respond "ERROR" (message "Failed to set cooler") response).

(** [not self.image_data]: no buffer, or an empty one. *)
Definition has_image_data (c : Camera) : bool :=
  match image_data c with
  | Some b => negb (nbytes b =? 0)
  | None => false
  end.

Definition handle_get_image (cmd response : gmap string value)
    : M Camera (gmap string value) :=
  c <- read id ;;
  if negb (image_ready c) || negb (has_image_data c) then
    ret (respond "ERROR" (message "No image available") response)
  else
    ts <- timestamp ;;
    ret (respond "SUCCESS"
           (dict [("image_ready", VBool true); ("width", VInt (width c));
                  ("height", VInt (height c)); ("bit_depth", VInt (bit_depth c));
                  ("size_bytes", VInt (match image_data c with
                                       | Some b => nbytes b
                                       | None => 0
                                       end));
                  ("download_url",
                   VStr ("http://server/images/" ++ device_id (cam_base c) ++ "/latest"));
                  ("metadata",
                   dict [("exposure_time", VFloat (exposure_time c));
                         ("gain", VInt (gain c));
                         ("temperature", sensor_temp c);
                         ("timestamp", ts)])]) response).

(** The handlers [__init__] registers, by command name. *)
Definition camera_handler (name : string)
    : option (gmap string value -> gmap string value -> M Camera (gmap string value)) :=
  if String.eqb name "START_EXPOSURE" then Some handle_start_exposure
  else if String.eqb name "ABORT_EXPOSURE" then Some handle_abort_exposure
  else if String.eqb name "SET_COOLER" then Some handle_set_cooler
  else if String.eqb name "GET_IMAGE" then Some handle_get_image
  else None.

(** Modelled from the spec: the command dispatcher of the C++ base class:
    "looks up the handler; if absent, returns ERROR with a unknown command
    detail; otherwise invokes the handler synchronously with a mutable
    response object pre-seeded with status UNKNOWN, and returns whatever the
    handler produced". *)
Definition dispatch (name : string) (cmd : gmap string value)
    : M Camera (gmap string value) :=
  match camera_handler name with
  | Some h => h cmd {[ "status" := VStr "UNKNOWN" ]}
  | None => ret (respond "ERROR" (message "unknown command") ∅)
  end.

Definition status_of (response : gmap string value) : option value :=
  response !! "status".

(** ** The telescope: [CustomTelescope], its command handlers *)

Record Telescope := {
  tel_base : DeviceBase;
  tel_running : bool;
  tel_now : N
}.

#[export] Instance telescope_device : Device Telescope :=
  {| base := tel_base;
     with_base := fun b t =>
       {| tel_base := b; tel_running := tel_running t; tel_now := tel_now t |} |}.

Definition telescope_timestamp : M Telescope value :=
  read (fun t => VStr (get_iso_timestamp (tel_now t))).

(** [a * b]: numbers multiply; a text or a list is repeated by an int. *)
Definition repeat_text (n : Z) (s : string) : string :=
  Nat.iter (Z.to_nat n) (fun acc => s ++ acc) "".

Definition repeat_list (n : Z) (l : list value) : list value :=
  Nat.iter (Z.to_nat n) (fun acc => (l ++ acc)%list) [].

Definition as_int (v : value) : option Z :=
  match v with
  | VBool b => Some (Z.b2z b)
  | VInt z => Some z
  | _ => None
  end.

Definition mul (a b : value) : outcome value :=
  match as_num a, as_num b with
  | Some x, Some y => obind (num_mul x y) (fun n => Returned (of_num n))
  | _, _ =>
      match a, as_int b, as_int a, b with
      | VStr s, Some n, _, _ => Returned (VStr (repeat_text n s))
      | VList l, Some n, _, _ => Returned (VList (repeat_list n l))
      | _, _, Some n, VStr s => Returned (VStr (repeat_text n s))
      | _, _, Some n, VList l => Returned (VList (repeat_list n l))
      | _, _, _, _ => Raised TypeError
      end
  end.

(** [x == "text"]. *)
Definition is_text (v : value) (s : string) : bool :=
  match v with
  | VStr s' => String.eqb s' s
  | _ => false
  end.

Definition telescope_handle_custom_command (cmd response : gmap string value)
    : M Telescope (gmap string value) :=
  has <- lift (contains "parameters" (VDict cmd)) ;;
  missing <- (if negb has then ret true
              else p <- lift (getitem (VDict cmd) "parameters") ;; ret (negb (truthy p))) ;;
  if (missing : bool) then
    ret (respond "ERROR" (message "Missing parameters") response)
  else
    params <- lift (getitem (VDict cmd) "parameters") ;;
    operation <- lift (dict_get params "operation" (VStr "")) ;;
    if is_text operation "ROTATE" then
      angle <- lift (dict_get params "angle" (VInt 0)) ;;
      axis <- lift (dict_get params "axis" (VStr "RA")) ;;
      ts <- telescope_timestamp ;;
      send_event "CUSTOM_OPERATION"
        (dict [("operation", VStr "ROTATE"); ("angle", angle); ("axis", axis);
               ("status", VStr "COMPLETED")]) ;;;
      ret (respond "SUCCESS"
             (dict [("message",
                     VStr ("Rotated " ++ text_of angle ++ " degrees around "
                           ++ text_of axis ++ " axis"));
                    ("executionTime", ts)]) response)
    else
      ret (respond "ERROR"
             (message ("Unknown operation: " ++ text_of operation)) response).

(** [r1] and [r2] are the two draws of [np.random.random()]. *)
Definition telescope_handle_calculate_field (r1 r2 : float)
    (cmd response : gmap string value) : M Telescope (gmap string value) :=
  params <- lift (getitem (VDict cmd) "parameters") ;;
  fov_width <- lift (dict_get params "fov_width" (VFloat 1.0)) ;;
  fov_height <- lift (dict_get params "fov_height" (VFloat 0.75)) ;;
  ra_prop <- get_property "ra" ;;
  dec_prop <- get_property "dec" ;;
  field_area <- lift (mul fov_width fov_height) ;;
  dense <- lift (mul field_area (VInt 100)) ;;
  scaled <- lift (mul dense (VFloat (1 + 0.2 * r1))) ;;
  star_count <- lift (match as_num scaled with
                      | Some n => int_of n
                      | None => Raised TypeError
                      end) ;;
  ts <- telescope_timestamp ;;
  let details :=
    dict [("field_center", dict [("ra", ra_prop); ("dec", dec_prop)]);
          ("field_size", dict [("width", fov_width); ("height", fov_height)]);
          ("star_count", VInt star_count);
          ("limiting_magnitude", VFloat (14.5 + 0.5 * r2));
          ("calculation_time", ts)] in
  send_event "FIELD_CALCULATED" details ;;;
  ret (respond "SUCCESS" details response).

(** *** The background task of the telescope: [__init__], [start], [stop],
    [custom_task] *)

(** [round(x, 1)] on a Python float: the nearest multiple of 1/10 of the
    exact value, ties to even, read back as the nearest binary64; computed as
    [round(x, 2)] is, with tenths. *)
Definition tenths_to_float (negative : bool) (h : Z) : float :=
  if h =? 0 then (if negative then (-0)%float else 0%float)
  else
    let q := Z.shiftl h 64 / 10 in
    let sticky := if Z.shiftl h 64 mod 10 =? 0 then 0 else 1 in
    let m := 2 * q + sticky in
    SF2Prim (binary_normalize prec emax (if negative then - m else m) (-65) false).

Definition round1_float (f : float) : float :=
  match Prim2SF f with
  | S754_finite s m e =>
      if 0 <=? e then f
      else tenths_to_float s (round_half_even (Z.pos m * 10) (Z.shiftl 1 (- e)))
  | _ => f
  end.

(** The three draws of [np.random.random()] in a pass of [custom_task], by
    clock instant, in the order the pass makes them. *)
Variable numpy_draws : N -> float * float * float.

(** Where a thread running [custom_task] stands. *)
Inductive task_pc :=
| TStart      (* started, has not run yet *)
| TSleep      (* asleep in [time.sleep(5.0)] *)
| TDone.      (* left the loop *)

(** A thread running [custom_task]: its local [counter], the point it is
    suspended at and the instant it resumes. *)
Record task := { t_counter : Z; t_pc : task_pc; t_wake : N }.

(** The whole Python object: the telescope the handlers work on, and the
    attributes of the background task. [custom_tracking_thread] is the index
    in [tasks] of the last thread started. *)
Record CustomTelescope := {
  scope : Telescope;
  is_custom_tracking : bool;
  custom_tracking_thread : option nat;
  tasks : list task
}.

Definition ct_set_scope (x : Telescope) (t : CustomTelescope) : CustomTelescope :=
  {| scope := x; is_custom_tracking := is_custom_tracking t;
     custom_tracking_thread := custom_tracking_thread t; tasks := tasks t |}.

Definition ct_set_thread (x : option nat) (t : CustomTelescope) : CustomTelescope :=
  {| scope := scope t; is_custom_tracking := is_custom_tracking t;
     custom_tracking_thread := x; tasks := tasks t |}.

Definition ct_set_tasks (x : list task) (t : CustomTelescope) : CustomTelescope :=
  {| scope := scope t; is_custom_tracking := is_custom_tracking t;
     custom_tracking_thread := custom_tracking_thread t; tasks := x |}.

Definition ct_running (t : CustomTelescope) : bool := tel_running (scope t).

Definition ct_now (t : CustomTelescope) : N := tel_now (scope t).

Definition ct_set_running (r : bool) (t : CustomTelescope) : CustomTelescope :=
  ct_set_scope {| tel_base := tel_base (scope t); tel_running := r;
                  tel_now := tel_now (scope t) |} t.

Definition ct_set_now (n : N) (t : CustomTelescope) : CustomTelescope :=
  ct_set_scope {| tel_base := tel_base (scope t); tel_running := tel_running (scope t);
                  tel_now := n |} t.

#[export] Instance custom_telescope_device : Device CustomTelescope :=
  {| base := fun t => tel_base (scope t);
     with_base := fun b t =>
       ct_set_scope {| tel_base := b; tel_running := tel_running (scope t);
                       tel_now := tel_now (scope t) |} t |}.

(** [CustomTelescope(device_id)]. The registrations of the two handlers go
    to the C++ base class. *)
Definition telescope_init (id : string) : CustomTelescope :=
  exec (set_property "observer_name" (VStr "Python Observer") ;;;
        set_property "location"
          (dict [("latitude", VFloat 40.0); ("longitude", VFloat (-74.0));
                 ("elevation", VFloat 100.0)]) ;;;
        set_property "firmware_version" (VStr "1.0.0-py"))
    {| scope := {| tel_base := {| device_id := id; props := ∅; events := [] |};
                   tel_running := false; tel_now := 0 |};
       is_custom_tracking := false; custom_tracking_thread := None; tasks := [] |}.

(** [base_ok] is the verdict of [super().start()]. *)
Definition telescope_start (base_ok : bool) : M CustomTelescope bool :=
  if base_ok then
    modify (ct_set_running true) ;;;
    t <- read id ;;
    modify (ct_set_tasks
              (tasks t ++ [{| t_counter := 0; t_pc := TStart; t_wake := ct_now t |}])) ;;;
    modify (ct_set_thread (Some (length (tasks t)))) ;;;
    ret true
  else ret false.

(** One pass of the body of [custom_task], after its [time.sleep(5.0)]. *)
Definition custom_task_pass (k : task) : M CustomTelescope task :=
  n <- read ct_now ;;
  let counter := t_counter k + 1 in
  send_event "CUSTOM_STATUS_UPDATE"
    (dict [("counter", VInt counter); ("timestamp", VStr (get_iso_timestamp n));
           ("randomValue", VFloat (fst (fst (numpy_draws n))))]) ;;;
  set_property "ambient_temperature"
    (VFloat (round1_float (15.0 + 5.0 * snd (fst (numpy_draws n))))) ;;;
  set_property "humidity"
    (VFloat (round1_float (50.0 + 20.0 * snd (numpy_draws n)))) ;;;
  ret {| t_counter := counter; t_pc := TSleep; t_wake := n |}.

(** The [while self.running] test: into the sleep, or out of the loop. *)
Definition custom_task_test (k : task) (t : CustomTelescope) : task :=
  if ct_running t then
    {| t_counter := t_counter k; t_pc := TSleep; t_wake := (ct_now t + 40)%N |}
  else {| t_counter := t_counter k; t_pc := TDone; t_wake := ct_now t |}.

(** One resumption of the thread: the loop test, and after a sleep the body
    of the loop first. An exception ends the thread. *)
Definition custom_task_resume (k : task) (t : CustomTelescope) : task * CustomTelescope :=
  match t_pc k with
  | TDone => (k, t)
  | TStart => (custom_task_test k t, t)
  | TSleep =>
      match custom_task_pass k t with
      | (Returned k', t') => (custom_task_test k' t', t')
      | (Raised _, t') =>
          ({| t_counter := t_counter k; t_pc := TDone; t_wake := ct_now t' |}, t')
      end
  end.

Definition task_alive (k : task) : bool :=
  match t_pc k with TDone => false | _ => true end.

Fixpoint telescope_settle_tasks (ks : list task) (t : CustomTelescope)
    : list task * CustomTelescope :=
  match ks with
  | [] => ([], t)
  | k :: rest =>
      let '(k', t') :=
        if task_alive k && (t_wake k <=? ct_now t)%N then custom_task_resume k t
        else (k, t) in
      let '(rest', t'') := telescope_settle_tasks rest t' in
      (k' :: rest', t'')
  end.

Definition telescope_settle (t : CustomTelescope) : CustomTelescope :=
  let '(ks, t') := telescope_settle_tasks (tasks t) t in
  ct_set_tasks ks t'.

(** The controller waits [n] eighths of a second. *)
Fixpoint telescope_elapse (n : nat) (t : CustomTelescope) : CustomTelescope :=
  match n with
  | O => telescope_settle t
  | S n' =>
      let t' := telescope_settle t in
      telescope_elapse n' (ct_set_now (ct_now t' + 1)%N t')
  end.

(** [self.custom_tracking_thread and self.custom_tracking_thread.is_alive()]. *)
Definition telescope_task_alive (t : CustomTelescope) : bool :=
  match custom_tracking_thread t with
  | Some i =>
      match tasks t !! i with
      | Some k => task_alive k
      | None => false
      end
  | None => false
  end.

(** [self.custom_tracking_thread.join(2.0)], [n] eighths of a second. *)
Fixpoint telescope_join (n : nat) (t : CustomTelescope) : CustomTelescope :=
  if telescope_task_alive t then
    let t' := telescope_settle t in
    if telescope_task_alive t' then
      match n with
      | O => t'
      | S n' => telescope_join n' (ct_set_now (ct_now t' + 1)%N t')
      end
    else t'
  else t.

Definition telescope_stop : M CustomTelescope unit :=
  modify (ct_set_running false) ;;;
  t <- read id ;;
  (if telescope_task_alive t then modify (telescope_join 16) else ret tt) ;;;
  base_stop.

(** ** The switch: [MyCustomSwitch] *)

Inductive switch_pc :=
| SStart      (* started, has not run yet *)
| SSleep      (* asleep in [time.sleep(2)] *)
| SDone.

Record sthread := { s_pc : switch_pc; s_wake : N }.

Record Switch := {
  sw_base : DeviceBase;
  sw_temperature : value;
  (* [self.running] and [self.update_thread] exist only once [start] or
     [stop] has assigned them; the thread attribute is the index in
     [sw_threads] of the last thread started *)
  sw_running : option bool;
  sw_update_thread : option nat;
  sw_threads : list sthread;
  sw_now : N
}.

Definition sw_set_base (b : DeviceBase) (s : Switch) : Switch :=
  {| sw_base := b; sw_temperature := sw_temperature s; sw_running := sw_running s;
     sw_update_thread := sw_update_thread s; sw_threads := sw_threads s;
     sw_now := sw_now s |}.

Definition sw_set_temperature (v : value) (s : Switch) : Switch :=
  {| sw_base := sw_base s; sw_temperature := v; sw_running := sw_running s;
     sw_update_thread := sw_update_thread s; sw_threads := sw_threads s;
     sw_now := sw_now s |}.

Definition sw_set_running (r : option bool) (s : Switch) : Switch :=
  {| sw_base := sw_base s; sw_temperature := sw_temperature s; sw_running := r;
     sw_update_thread := sw_update_thread s; sw_threads := sw_threads s;
     sw_now := sw_now s |}.

Definition sw_set_update_thread (t : option nat) (s : Switch) : Switch :=
  {| sw_base := sw_base s; sw_temperature := sw_temperature s;
     sw_running := sw_running s; sw_update_thread := t;
     sw_threads := sw_threads s; sw_now := sw_now s |}.

Definition sw_set_threads (ts : list sthread) (s : Switch) : Switch :=
  {| sw_base := sw_base s; sw_temperature := sw_temperature s;
     sw_running := sw_running s; sw_update_thread := sw_update_thread s;
     sw_threads := ts; sw_now := sw_now s |}.

Definition sw_set_now (n : N) (s : Switch) : Switch :=
  {| sw_base := sw_base s; sw_temperature := sw_temperature s;
     sw_running := sw_running s; sw_update_thread := sw_update_thread s;
     sw_threads := sw_threads s; sw_now := n |}.

#[export] Instance switch_device : Device Switch :=
  {| base := sw_base; with_base := sw_set_base |}.

(** [MyCustomSwitch(device_id)]. The two [add_switch] calls and the handler
    registrations go to the C++ base class. *)
Definition switch_init (id : string) : Switch :=
  exec (set_property "temperature" (VFloat 20.0))
    {| sw_base := {| device_id := id; props := ∅; events := [] |};
       sw_temperature := VFloat 20.0; sw_running := None;
       sw_update_thread := None; sw_threads := []; sw_now := 0 |}.

Definition switch_start (base_ok : bool) : M Switch bool :=
  if base_ok then
    modify (sw_set_running (Some true)) ;;;
    s <- read id ;;
    modify (sw_set_threads (sw_threads s ++ [{| s_pc := SStart; s_wake := sw_now s |}])) ;;;
    modify (sw_set_update_thread (Some (length (sw_threads s)))) ;;;
    ret true
  else ret false.

(** One pass of the body of [update_temp], up to its [time.sleep(2)]. *)
Definition switch_update_body : M Switch unit :=
  n <- read sw_now ;;
  t <- read sw_temperature ;;
  t' <- lift (add_num t (NFloat (fst (random_draws n)))) ;;
  modify (sw_set_temperature (of_num t')) ;;;
  set_property "temperature" (of_num t') ;;;
  if (snd (random_draws n) <? 0.2)%float then
    send_event "TEMPERATURE_CHANGED" (dict [("temperature", of_num t')])
  else ret tt.

(** One resumption of the thread: the [while self.running] test, then the
    body. An exception ends the thread. *)
Definition switch_resume (t : sthread) (s : Switch) : sthread * Switch :=
  match s_pc t with
  | SDone => (t, s)
  | _ =>
      match sw_running s with
      | Some true =>
          match switch_update_body s with
          | (Returned _, s') => ({| s_pc := SSleep; s_wake := (sw_now s' + 16)%N |}, s')
          | (Raised _, s') => ({| s_pc := SDone; s_wake := sw_now s' |}, s')
          end
      | _ => ({| s_pc := SDone; s_wake := sw_now s |}, s)
      end
  end.

Definition sthread_alive (t : sthread) : bool :=
  match s_pc t with SDone => false | _ => true end.

Fixpoint switch_settle_threads (ts : list sthread) (s : Switch)
    : list sthread * Switch :=
  match ts with
  | [] => ([], s)
  | t :: rest =>
      let '(t', s') :=
        if sthread_alive t && (s_wake t <=? sw_now s)%N then switch_resume t s
        else (t, s) in
      let '(rest', s'') := switch_settle_threads rest s' in
      (t' :: rest', s'')
  end.

Definition switch_settle (s : Switch) : Switch :=
  let '(ts, s') := switch_settle_threads (sw_threads s) s in
  sw_set_threads ts s'.

Definition switch_thread_alive (s : Switch) : bool :=
  match sw_update_thread s with
  | Some i =>
      match sw_threads s !! i with
      | Some t => sthread_alive t
      | None => false
      end
  | None => false
  end.

(** [self.update_thread.join(timeout=...)], [k] eighths of a second. *)
Fixpoint switch_join (k : nat) (s : Switch) : Switch :=
  if switch_thread_alive s then
    let s' := switch_settle s in
    if switch_thread_alive s' then
      match k with
      | O => s'
      | S k' => switch_join k' (sw_set_now (sw_now s' + 1)%N s')
      end
    else s'
  else s.

Definition switch_stop : M Switch unit :=
  modify (sw_set_running (Some false)) ;;;
  s <- read id ;;
  (match sw_update_thread s with
   | Some _ => modify (switch_join 8)
   | None => ret tt
   end) ;;;
  base_stop.

(** *** The command handlers of the switch *)

(** Modelled from the spec: the response object of the C++ message classes,
    "a mutable response object" that holds a "status" and "details (structured
    mapping)"; [set_status] and [set_details] write these two fields. *)
Definition set_status (status : string) (response : gmap string value)
    : gmap string value :=
  <["status" := VStr status]> response.

Definition set_details (details : value) (response : gmap string value)
    : gmap string value :=
  <["details" := details]> response.

(** [params] is what [cmd.get_parameters()] returned, which the handler does
    not look at. *)
Definition switch_handle_get_temp (params : value) (response : gmap string value)
    : M Switch (gmap string value) :=
  t <- read sw_temperature ;;
  ret (set_details (dict [("temperature", t)]) (set_status "SUCCESS" response)).

(** [params] is what [cmd.get_parameters()] returned. *)
Definition switch_handle_set_temp (params : value) (response : gmap string value)
    : M Switch (gmap string value) :=
  has <- lift (contains "temperature" params) ;;
  if has then
    t <- lift (getitem params "temperature") ;;
    modify (sw_set_temperature t) ;;;
    t' <- read sw_temperature ;;
    set_property "temperature" t' ;;;
    ret (set_status "SUCCESS" response)
  else
    ret (set_details (message "Missing temperature parameter")
           (set_status "ERROR" response)).

(** *** What a controller can do to a switch *)

(** The controller waits [k] eighths of a second. *)
Fixpoint switch_elapse (k : nat) (s : Switch) : Switch :=
  match k with
  | O => switch_settle s
  | S k' =>
      let s' := switch_settle s in
      switch_elapse k' (sw_set_now (sw_now s' + 1)%N s')
  end.

Inductive switch_action :=
| SwitchStart (base_ok : bool)
| SwitchStop
| SwitchGetTemperature (params : value)
| SwitchSetTemperature (params : value)
| SwitchWait (k : nat).

(** The two commands reach their handlers with the response the dispatcher
    seeds. *)
Definition switch_perform (a : switch_action) (s : Switch) : Switch :=
  match a with
  | SwitchStart ok => exec (switch_start ok) s
  | SwitchStop => exec switch_stop s
  | SwitchGetTemperature params =>
      exec (switch_handle_get_temp params {[ "status" := VStr "UNKNOWN" ]}) s
  | SwitchSetTemperature params =>
      exec (switch_handle_set_temp params {[ "status" := VStr "UNKNOWN" ]}) s
  | SwitchWait k => switch_elapse k s
  end.

Definition switch_run (l : list switch_action) (s : Switch) : Switch :=
  fold_left (fun s a => switch_perform a s) l s.

(** ** What a controller can do to a camera

    The calls of the Python interface, the commands that reach the
    dispatcher, and the passing of time (during which the threads run). *)

Inductive action :=
| CallStart (base_ok : bool)
| CallStop
| CallStartExposure (exposure_time : float) (is_light : value)
| CallAbortExposure
| CallSetCooler (enabled temperature : value)
| Command (name : string) (cmd : gmap string value)
| Wait (k : nat).

Definition perform (a : action) (c : Camera) : Camera :=
  match a with
  | CallStart ok => exec (start ok) c
  | CallStop => exec stop c
  | CallStartExposure t l => exec (start_exposure t l) c
  | CallAbortExposure => exec abort_exposure c
  | CallSetCooler e t => exec (set_cooler e t) c
  | Command name cmd => exec (dispatch name cmd) c
  | Wait k => elapse k c
  end.

Definition run (l : list action) (c : Camera) : Camera :=
  fold_left (fun c a => perform a c) l c.

(** A camera state is reachable when a controller can bring a fresh camera
    to it. *)
Definition reachable (c : Camera) : Prop :=
  exists id l, c = run l (init id).

(** ** Reasoning about computations: what a computation leaves unchanged *)

Definition keeps {S A B} (f : S -> B) (m : M S A) : Prop :=
  forall s, f (exec m s) = f s.

(** ** The vocabulary of the statements

    Invariants, observations and scenarios that the theorems below are
    stated with. *)

(** No thread of the camera is alive. *)
Definition quiet (c : Camera) : Prop :=
  forallb (fun u => negb (uthread_alive u)) (update_threads c) = true
  /\ forallb (fun j => negb (job_alive j)) (threads c) = true.

(** An invariant of a computation, whether it returns or raises. *)
Definition preserves {S A} (P : S -> Prop) (m : M S A) : Prop :=
  forall s, P s -> P (exec m s).

(** Every exposure thread has ended. *)
Definition jobs_done (c : Camera) : bool :=
  forallb (fun j => negb (job_alive j)) (threads c).

(** What the exposure scenario is observed through. *)
Definition exposure_view (c : Camera)
    : bool * bool * option value * option value * Z * Z * list event :=
  (is_exposing c, image_ready c,
   props (cam_base c) !! "image_ready", props (cam_base c) !! "exposing",
   width c, height c,
   events_named "EXPOSURE_COMPLETE" (events (cam_base c))).

(** The scenario of a single exposure: a fresh camera, started or not, and
    [start_exposure(2.0, True)]. *)
Definition fresh_camera (started : bool) (id : string) : Camera :=
  if started then exec (start true) (init id) else init id.

Definition exposure_of_two_seconds (started : bool) (id : string) : Camera :=
  exec (start_exposure 2 (VBool true)) (fresh_camera started id).

(** A stored target temperature within [-30, 50]. *)
Definition target_in_range (v : value) : Prop :=
  exists n, as_num v = Some n
            /\ num_leb (NInt (-30)) n = true /\ num_leb n (NInt 50) = true.

(** The bounds of the cooling target: drive power and target temperature. *)
Definition cooler_ok (c : Camera) : Prop :=
  0 <= cooler_power c <= 100 /\ target_in_range (cooler_temp c).

(** What a computation establishes when it returns normally. *)
Definition ensures {S A} (Q : S -> Prop) (m : M S A) : Prop :=
  forall s, returns m s = true -> Q (exec m s).

Definition power_in_range (c : Camera) : Prop := 0 <= cooler_power c <= 100.

Definition no_image (response : gmap string value) : gmap string value :=
  respond "ERROR" (message "No image available") response.

(** The EXPOSURE_COMPLETE events emitted so far. *)
Definition completed (c : Camera) : nat :=
  length (events_named "EXPOSURE_COMPLETE" (events (cam_base c))).

(** From a point where [n] exposures had completed: no image is ready unless
    another exposure has completed since. *)
Definition awaiting_image (n : nat) (c : Camera) : Prop :=
  (n <= completed c)%nat /\ (image_ready c = true -> (n < completed c)%nat).

(** A fresh camera (cooling off, sensor at 20.0) whose cooler is switched on
    with target -10.0. *)
Definition cooling_scenario (id : string) : Camera :=
  exec (set_cooler (VBool true) (VFloat (-10))) (init id).

(** The camera after [n] passes of the cooling loop. *)
Definition after_ticks (n : nat) (c : Camera) : Camera :=
  Nat.iter n (exec update_tick) c.

(** [abs(cooler_temp - sensor_temp) > 0.1], the test of the loop. *)
Definition gap_exceeds (c : Camera) : bool :=
  match sub (cooler_temp c) (sensor_temp c) with
  | Returned d => num_ltb (NFloat 0.1) (num_abs d)
  | Raised _ => false
  end.

(** The sensor of [c'] is strictly colder than the sensor of [c]. *)
Definition sensor_below (c' c : Camera) : bool :=
  match as_num (sensor_temp c'), as_num (sensor_temp c) with
  | Some a, Some b => num_ltb a b
  | _, _ => false
  end.

(** A pass of the loop that starts outside the band, runs to its end, lowers
    the sensor and leaves a nonzero power. *)
Definition descending_tick (c : Camera) : bool :=
  gap_exceeds c && sensor_below (exec update_tick c) c && returns update_tick c
  && negb (cooler_power (exec update_tick c) =? 0).

(** The scenario of an abort followed at once by a new exposure: a 2 s light
    frame is started on a fresh camera and aborted a quarter of a second
    later, a 4 s dark frame is started by the next call, and 6 s pass. *)
Definition exposing_camera (id : string) : Camera :=
  elapse 2 (exec (start_exposure 2 (VBool true)) (init id)).

Definition aborted_camera (id : string) : Camera :=
  exec abort_exposure (exposing_camera id).

Definition restarted_camera (id : string) : Camera :=
  elapse 48 (exec (start_exposure 4 (VBool false)) (aborted_camera id)).

(** A command with no parameter map. *)
Definition bare_command (name : string) : gmap string value :=
  {[ "name" := VStr name ]}.

(** A command with the given parameters. *)
Definition command (name : string) (params : list (string * value))
    : gmap string value :=
  <[ "parameters" := dict params ]> (bare_command name).

(** The camera once [stop] has waited for the two threads, before it clears
    the connected property. *)
Definition after_joins (c : Camera) : Camera :=
  let ca := set_running false c in
  let cb := if update_alive ca then join update_alive 16 ca else ca in
  if exposure_alive cb then join exposure_alive 16 cb else cb.

(** "[stop] never returns as if successful while a task is still running":
    whenever [stop] returns normally, neither thread it waited for is alive. *)
Definition stop_surfaces_unfinished_threads : Prop :=
  forall c, reachable c ->
    fst (stop c) = Returned tt ->
    update_alive (exec stop c) = false /\ exposure_alive (exec stop c) = false.

(** A ready image is backed by stored data, on a sensor that has pixels. *)
Definition image_backed (c : Camera) : Prop :=
  0 < width c /\ 0 < height c
  /\ (image_ready c = true -> has_image_data c = true).

(** The exposure attributes and the properties that publish them. *)
Definition exposure_mirror (c : Camera)
    : bool * bool * float * option value * option value * option value :=
  (is_exposing c, image_ready c, exposure_time c,
   props (cam_base c) !! "exposing", props (cam_base c) !! "image_ready",
   props (cam_base c) !! "exposure_time").

Definition mirrored (v : bool * bool * float * option value * option value * option value)
    : Prop :=
  let '(exposing, ready, t, p_exposing, p_ready, p_t) := v in
  p_exposing = Some (VBool exposing) /\ p_ready = Some (VBool ready)
  /\ p_t = Some (VFloat t).

(** The running flag and the connected property. *)
Definition connection_mirror (c : Camera) : bool * option value :=
  (running c, props (cam_base c) !! "connected").

(** What a pass of the cooling loop has no business with: everything but
    the sensor temperature, the drive power and the two properties that
    publish them. [name] is any other property. *)
Definition beyond_cooling_loop (name : string) (c : Camera) :=
  (events (cam_base c), device_id (cam_base c), props (cam_base c) !! name,
   (width c, height c, pixel_size c, bit_depth c, gain c),
   (exposure_time c, cooler_temp c, cooler_enabled c),
   (is_exposing c, image_ready c, image_data c),
   (running c, update_thread c, exposure_thread c, update_threads c, threads c,
    now c)).

(** The cursor of the guider [k] calls of [auto_dither] from now, and the
    element of the dither sequence it then points at. *)
Definition dither_cycle (g : Guider.PiGuider) (k : nat) : Z :=
  (Guider.dither_index g + Z.of_nat k)
    mod Z.of_nat (length (Guider.dither_sequence g)).

Definition dither_amount (g : Guider.PiGuider) (k : nat) : value :=
  nth (Z.to_nat (dither_cycle g k)) (Guider.dither_sequence g) VNone.

(** The switch publishes its temperature. *)
Definition temperature_published (s : Switch) : Prop :=
  props (sw_base s) !! "temperature" = Some (sw_temperature s).

(** What the CUSTOM_COMMAND handler ends with. *)
Definition custom_command_outcome (cmd : gmap string value) (t : Telescope)
    (o : outcome (gmap string value)) (t' : Telescope) : Prop :=
  match o with
  | Raised _ => t' = t
  | Returned r =>
      (status_of r = Some (VStr "ERROR") /\ t' = t)
      \/ (status_of r = Some (VStr "SUCCESS")
          /\ exists params,
               cmd !! "parameters" = Some (VDict params)
               /\ params !! "operation" = Some (VStr "ROTATE")
               /\ t' = with_base
                         {| device_id := device_id (tel_base t);
                            props := props (tel_base t);
                            events :=
                              (events (tel_base t)
                               ++ [Event "CUSTOM_OPERATION"
                                     (dict [("operation", VStr "ROTATE");
                                            ("angle", match params !! "angle" with
                                                      | Some v => v
                                                      | None => VInt 0
                                                      end);
                                            ("axis", match params !! "axis" with
                                                     | Some v => v
                                                     | None => VStr "RA"
                                                     end);
                                            ("status", VStr "COMPLETED")])])%list |}
                         t)
  end.

(** What the CALCULATE_FIELD handler ends with. *)
Definition calculate_field_outcome (cmd response : gmap string value) (t : Telescope)
    (o : outcome (gmap string value)) (t' : Telescope) : Prop :=
  match o with
  | Raised _ => t' = t
  | Returned r =>
      exists params details,
        cmd !! "parameters" = Some (VDict params)
        /\ r = respond "SUCCESS" (VDict details) response
        /\ t' = with_base
                  {| device_id := device_id (tel_base t);
                     props := props (tel_base t);
                     events := (events (tel_base t)
                                ++ [Event "FIELD_CALCULATED" (VDict details)])%list |}
                  t
        /\ details !! "field_size"
           = Some (dict [("width", match params !! "fov_width" with
                                   | Some v => v
                                   | None => VFloat 1.0
                                   end);
                         ("height", match params !! "fov_height" with
                                    | Some v => v
                                    | None => VFloat 0.75
                                    end)])
        /\ (exists ra dec,
              props (tel_base t) !! "ra" = Some ra
              /\ props (tel_base t) !! "dec" = Some dec
              /\ details !! "field_center" = Some (dict [("ra", ra); ("dec", dec)]))
  end.

(** An exposure in progress has a live thread behind it: the thread of the
    last exposure started. *)
Definition exposure_driven (c : Camera) : Prop :=
  is_exposing c = true -> exposure_alive c = true.

(** What the cooling loop and the calls about the cooler leave alone in the
    exposure machinery. *)
Definition exposure_machinery (c : Camera) : bool * option nat * list job :=
  (is_exposing c, exposure_thread c, threads c).

(** What an exposure leaves behind when it goes through: the flags, the
    image, and the READING_OUT and EXPOSURE_COMPLETE events. *)
Definition exposure_outcome (c : Camera)
    : bool * bool * option buffer * list event * list event :=
  (is_exposing c, image_ready c, image_data c,
   events_named "READING_OUT" (events (cam_base c)),
   events_named "EXPOSURE_COMPLETE" (events (cam_base c))).

(** A thread asleep in its readout. *)
Definition reading_out (j : job) : bool :=
  match j_pc j with JReadout => true | _ => false end.

(** No exposure in progress and no thread in its readout. *)
Definition at_rest (c : Camera) : Prop :=
  is_exposing c = false /\ existsb reading_out (threads c) = false.

(** Anything a controller can do but start an exposure. *)
Definition starts_no_exposure (a : action) : bool :=
  match a with
  | CallStartExposure _ _ => false
  | Command name _ => negb (String.eqb name "START_EXPOSURE")
  | _ => true
  end.

(** The telescope once the sleeping task [k] has run its last pass at
    the instant [t] shows: the pass, then the loop test that ends it. *)
Definition woken (k : task) (t : CustomTelescope) : CustomTelescope :=
  ct_set_tasks [{| t_counter := t_counter k + 1; t_pc := TDone; t_wake := ct_now t |}]
    (exec (custom_task_pass k) t).

(** The event of the pass that the task [k] makes at the instant [n]. *)
Definition status_update (k : task) (n : N) : event :=
  Event "CUSTOM_STATUS_UPDATE"
    (dict [("counter", VInt (t_counter k + 1)); ("timestamp", VStr (get_iso_timestamp n));
           ("randomValue", VFloat (fst (fst (numpy_draws n))))]).

(** The counters of the CUSTOM_STATUS_UPDATE events emitted so far, oldest
    first. *)
Definition reported (t : CustomTelescope) : list (option value) :=
  map (fun e => match ev_payload e with
                | VDict d => d !! "counter"
                | _ => None
                end)
    (events_named "CUSTOM_STATUS_UPDATE" (events (base t))).

(** A fresh telescope that has been started. *)
Definition started_telescope (id : string) : CustomTelescope :=
  exec (telescope_start true) (telescope_init id).

(** The started telescope, [n] eighths of a second after its start: its task
    is asleep until the next multiple of five seconds, after [n / 40]
    passes. *)
Definition reporting (n : nat) (t : CustomTelescope) : Prop :=
  ct_now t = N.of_nat n /\ ct_running t = true
  /\ custom_tracking_thread t = Some 0%nat
  /\ tasks t = [{| t_counter := Z.of_nat (n / 40); t_pc := TSleep;
                   t_wake := N.of_nat (40 * (n / 40 + 1)) |}]
  /\ reported t = map (fun i => Some (VInt (Z.of_nat i))) (seq 1 (n / 40)).

(** A live update thread wakes within a second of the instant [n]. *)
Definition wakes_within (n : N) (u : uthread) : Prop :=
  uthread_alive u = true -> (u_wake u <= n + 8)%N.

Definition update_threads_due (c : Camera) : Prop :=
  Forall (wakes_within (now c)) (update_threads c).

Lemma keeps_ret {S A B} (f : S -> B) (a : A) : keeps f (ret a).
Proof. intros s. reflexivity. Qed.

Lemma keeps_raise {S A B} (f : S -> B) (e : exn) : keeps f (@raise S A e).
Proof. intros s. reflexivity. Qed.

Lemma keeps_lift {S A B} (f : S -> B) (o : outcome A) : keeps f (lift o).
Proof. intros s. reflexivity. Qed.

Lemma keeps_read {S A B} (f : S -> B) (g : S -> A) : keeps f (read g).
Proof. intros s. reflexivity. Qed.

Lemma keeps_modify {S B} (f : S -> B) (g : S -> S) :
  (forall s, f (g s) = f s) -> keeps f (modify g).
Proof. intros H s. apply H. Qed.

Lemma keeps_bind {S A A' B} (f : S -> B) (m : M S A) (k : A -> M S A') :
  keeps f m -> (forall a, keeps f (k a)) -> keeps f (bind m k).
Proof.
  intros Hm Hk s. unfold exec, bind. specialize (Hm s). unfold exec in Hm.
  destruct (m s) as [[a|e] s']; simpl in *.
  - rewrite <- Hm. apply Hk.
  - exact Hm.
Qed.

Lemma keeps_try_except {S A B} (f : S -> B) (m : M S A) (h : exn -> M S A) :
  keeps f m -> (forall e, keeps f (h e)) -> keeps f (try_except m h).
Proof.
  intros Hm Hh s. unfold exec, try_except. specialize (Hm s). unfold exec in Hm.
  destruct (m s) as [[a|e] s']; simpl in *.
  - exact Hm.
  - rewrite <- Hm. apply Hh.
Qed.

Lemma keeps_send_event {D B} `{Device D} (f : D -> B) name payload :
  (forall b d, events b = (events (base d) ++ [Event name payload])%list ->
               props b = props (base d) -> device_id b = device_id (base d) ->
               f (with_base b d) = f d) ->
  keeps f (send_event name payload).
Proof. intros Hf s. unfold send_event, exec, modify. simpl. apply Hf; reflexivity. Qed.

Lemma keeps_set_property {D B} `{Device D} (f : D -> B) name v :
  (forall b d, props b = <[name := v]> (props (base d)) ->
               events b = events (base d) -> device_id b = device_id (base d) ->
               f (with_base b d) = f d) ->
  keeps f (set_property name v).
Proof. intros Hf s. unfold set_property, exec, modify. simpl. apply Hf; reflexivity. Qed.

(** Decompose a computation along its binds and branches. *)
Ltac keeps_step :=
  lazymatch goal with
  | |- keeps _ (bind _ _) => apply keeps_bind; [ | intros ? ]
  | |- keeps _ (try_except _ _) => apply keeps_try_except; [ | intros ? ]
  | |- keeps _ (ret _) => apply keeps_ret
  | |- keeps _ (raise _) => apply keeps_raise
  | |- keeps _ (lift _) => apply keeps_lift
  | |- keeps _ (read _) => apply keeps_read
  | |- keeps _ (modify _) => apply keeps_modify; intros ?; try reflexivity
  | |- keeps _ (send_event _ _) =>
      apply keeps_send_event; intros ? ? ? ? ?; try reflexivity
  | |- keeps _ (set_property _ _) =>
      apply keeps_set_property; intros ? ? ? ? ?; try reflexivity
  | |- keeps _ (if ?b then _ else _) => destruct b
  | |- keeps _ (match ?x with _ => _ end) => destruct x
  end.

Ltac keeps_auto := repeat keeps_step.

(** ** The exposure job *)

Lemma start_exposure_busy (c : Camera) (t : float) (l : value) :
  is_exposing c = true -> start_exposure t l c = (Returned false, c).
Proof.
  intros Hbusy. unfold start_exposure, bind, read. rewrite Hbusy. reflexivity.
Qed.

Lemma status_respond (status : string) (details : value) (response : gmap string value) :
  status_of (respond status details response) = Some (VStr status).
Proof.
  unfold status_of, respond.
  rewrite lookup_insert_ne by discriminate. apply lookup_insert_eq.
Qed.

Lemma read_bind {S A B} (g : S -> A) (k : A -> M S B) (s : S) :
  bind (read g) k s = k (g s) s.
Proof. reflexivity. Qed.

Lemma lift_bind {S A B} (o : outcome A) (k : A -> M S B) (s : S) :
  bind (lift o) k s = match o with Returned a => k a s | Raised e => (Raised e, s) end.
Proof. unfold bind, lift. destruct o; reflexivity. Qed.

(** While an exposure is in progress the handler's steps before
    [start_exposure] only read the command, and [start_exposure] refuses. *)
Lemma handle_start_exposure_busy (c : Camera) (cmd response : gmap string value) :
  is_exposing c = true ->
  exists o, handle_start_exposure cmd response c = (o, c)
            /\ forall r, o = Returned r -> status_of r = Some (VStr "ERROR").
Proof.
  intros Hbusy. unfold handle_start_exposure.
  rewrite lift_bind. destruct (getitem (VDict cmd) "parameters") as [params|e].
  2: { eexists; split; [reflexivity | discriminate]. }
  rewrite lift_bind. destruct (contains "duration" params) as [has|e].
  2: { eexists; split; [reflexivity | discriminate]. }
  destruct has; simpl.
  2: { eexists; split; [reflexivity | intros r [= <-]; apply status_respond]. }
  rewrite lift_bind. destruct (getitem params "duration") as [d|e].
  2: { eexists; split; [reflexivity | discriminate]. }
  rewrite lift_bind. destruct (float_of d) as [duration|e].
  2: { eexists; split; [reflexivity | discriminate]. }
  rewrite lift_bind. destruct (dict_get params "light" (VBool true)) as [l|e].
  2: { eexists; split; [reflexivity | discriminate]. }
  unfold bind at 1. rewrite (start_exposure_busy c duration l Hbusy).
  eexists; split; [reflexivity | intros r [= <-]; apply status_respond].
Qed.

(** C1. A call of [start_exposure] while an exposure is in progress
    ([is_exposing] true, the job exposing or reading out) returns [False] and
    leaves the whole camera state as it was: flags, exposure time, properties,
    events and threads. The START_EXPOSURE handler, and the dispatcher that
    runs it, then change nothing either; whenever the handler returns its
    response has status ERROR, and a command with a convertible duration
    gets the "camera busy" error. *)
Theorem start_exposure_rejected_while_exposing
    (c : Camera) (t : float) (l : value) (cmd response : gmap string value) :
  is_exposing c = true ->
  start_exposure t l c = (Returned false, c)
  /\ exec (handle_start_exposure cmd response) c = c
  /\ exec (dispatch "START_EXPOSURE" cmd) c = c
  /\ (forall r, fst (handle_start_exposure cmd response c) = Returned r ->
                status_of r = Some (VStr "ERROR"))
  /\ (forall params d duration,
        cmd !! "parameters" = Some (VDict params) ->
        params !! "duration" = Some d ->
        float_of d = Returned duration ->
        handle_start_exposure cmd response c
        = (Returned (respond "ERROR"
                       (message "Failed to start exposure, camera busy")
                       response), c)).
Proof.
  intros Hbusy.
  split; [ apply start_exposure_busy; exact Hbusy | ].
  split.
  { destruct (handle_start_exposure_busy c cmd response Hbusy) as (o & Ho & _).
    unfold exec. rewrite Ho. reflexivity. }
  split.
  { destruct (handle_start_exposure_busy c cmd {[ "status" := VStr "UNKNOWN" ]} Hbusy)
      as (o & Ho & _).
    unfold exec, dispatch. simpl. rewrite Ho. reflexivity. }
  split.
  { destruct (handle_start_exposure_busy c cmd response Hbusy) as (o & Ho & Hs).
    rewrite Ho. exact Hs. }
  intros params d duration Hp Hd Hf.
  unfold handle_start_exposure.
  rewrite lift_bind. simpl. rewrite Hp.
  rewrite lift_bind. simpl.
  assert (Hin : bool_decide (is_Some (params !! "duration")) = true).
  { apply bool_decide_eq_true. rewrite Hd. eauto. }
  rewrite Hin. simpl.
  rewrite lift_bind. simpl. rewrite Hd.
  rewrite lift_bind. rewrite Hf.
  rewrite lift_bind. simpl.
  unfold bind at 1. rewrite start_exposure_busy by exact Hbusy. reflexivity.
Qed.

(** *** Time passing on a camera with no live thread *)

Lemma set_threads_same (c : Camera) :
  set_threads (threads c) (set_update_threads (update_threads c) c) = c.
Proof. destruct c; reflexivity. Qed.

Lemma settle_updates_done (us : list uthread) (c : Camera) :
  forallb (fun u => negb (uthread_alive u)) us = true -> settle_updates us c = (us, c).
Proof.
  induction us as [|u us IH]; simpl; intros Hdone; [reflexivity|].
  apply andb_prop in Hdone as [Hu Hus].
  unfold update_due. apply negb_true_iff in Hu. rewrite Hu. simpl.
  rewrite (IH Hus). reflexivity.
Qed.

Lemma settle_jobs_done (js : list job) (c : Camera) :
  forallb (fun j => negb (job_alive j)) js = true -> settle_jobs js c = (js, c).
Proof.
  induction js as [|j js IH]; simpl; intros Hdone; [reflexivity|].
  apply andb_prop in Hdone as [Hj Hjs].
  unfold job_resume, job_due.
  apply negb_true_iff in Hj. rewrite Hj. simpl.
  rewrite (IH Hjs). reflexivity.
Qed.

Lemma settle_quiet (c : Camera) : quiet c -> settle c = c.
Proof.
  intros [Hu Hj]. unfold settle.
  rewrite (settle_updates_done _ _ Hu), (settle_jobs_done _ _ Hj).
  apply set_threads_same.
Qed.

Lemma elapse_quiet (k : nat) (c : Camera) :
  quiet c -> exists n, elapse k c = set_now n c.
Proof.
  revert c. induction k as [|k IH]; intros c Hq; simpl.
  - exists (now c). rewrite (settle_quiet c Hq). destruct c; reflexivity.
  - rewrite (settle_quiet c Hq).
    destruct (IH (tick_clock c)) as [n Hn]; [exact Hq|].
    exists n. rewrite Hn. reflexivity.
Qed.

Lemma elapse_more (a b : nat) (c : Camera) :
  elapse (S (a + b)) c = elapse b (tick_clock (elapse a c)).
Proof.
  revert c. induction a as [|a IH]; intros c; [reflexivity|].
  change (elapse (S (S a + b)) c) with (elapse (S (a + b)) (tick_clock (settle c))).
  rewrite IH. reflexivity.
Qed.

(** ** Invariants of computations and of the scheduler *)

Lemma keeps_preserves {S A B} (f : S -> B) (Q : B -> Prop) (m : M S A) :
  keeps f m -> preserves (fun s => Q (f s)) m.
Proof. intros Hk s Hs. rewrite (Hk s). exact Hs. Qed.

Lemma preserves_ret {S A} (P : S -> Prop) (a : A) : preserves P (ret a).
Proof. intros s Hs. exact Hs. Qed.

Lemma preserves_lift {S A} (P : S -> Prop) (o : outcome A) : preserves P (lift o).
Proof. intros s Hs. exact Hs. Qed.

Lemma preserves_read {S A} (P : S -> Prop) (g : S -> A) : preserves P (read g).
Proof. intros s Hs. exact Hs. Qed.

Lemma preserves_modify {S} (P : S -> Prop) (g : S -> S) :
  (forall s, P s -> P (g s)) -> preserves P (modify g).
Proof. intros H s Hs. apply H. exact Hs. Qed.

Lemma preserves_bind {S A B} (P : S -> Prop) (m : M S A) (k : A -> M S B) :
  preserves P m -> (forall a, preserves P (k a)) -> preserves P (bind m k).
Proof.
  intros Hm Hk s Hs. specialize (Hm s Hs). unfold exec, bind in *.
  destruct (m s) as [[a|e] s']; simpl in *.
  - apply Hk. exact Hm.
  - exact Hm.
Qed.

Lemma preserves_try_except {S A} (P : S -> Prop) (m : M S A) (h : exn -> M S A) :
  preserves P m -> (forall e, preserves P (h e)) -> preserves P (try_except m h).
Proof.
  intros Hm Hh s Hs. specialize (Hm s Hs). unfold exec, try_except in *.
  destruct (m s) as [[a|e] s']; simpl in *.
  - exact Hm.
  - apply Hh. exact Hm.
Qed.

Section SchedulerInvariant.

(** An invariant that the bookkeeping of threads and the clock cannot break,
    and that each thread keeps when it runs. *)
Variable P : Camera -> Prop.
Hypothesis P_update_threads : forall us c, P c -> P (set_update_threads us c).
Hypothesis P_threads : forall js c, P c -> P (set_threads js c).
Hypothesis P_now : forall n c, P c -> P (set_now n c).
Hypothesis P_tick : preserves P update_tick.
Hypothesis P_job : forall j, preserves P (job_step j).

Lemma update_resume_preserves (u : uthread) (c : Camera) :
  P c -> P (snd (update_resume u c)).
Proof.
  intros Hc. unfold update_resume. destruct (u_pc u); try exact Hc.
  specialize (P_tick c Hc). unfold exec in P_tick.
  destruct (update_tick c) as [[[]|e] c']; exact P_tick.
Qed.

Lemma settle_updates_preserves (us : list uthread) (c : Camera) :
  P c -> P (snd (settle_updates us c)).
Proof.
  revert c. induction us as [|u us IH]; intros c Hc; simpl; [exact Hc|].
  assert (Hu : P (snd (if update_due (now c) u then update_resume u c else (u, c)))).
  { destruct (update_due (now c) u); [apply update_resume_preserves|]; exact Hc. }
  destruct (if update_due (now c) u then update_resume u c else (u, c)) as [u' c'].
  simpl in Hu. specialize (IH c' Hu).
  destruct (settle_updates us c') as [rest c'']. exact IH.
Qed.

Lemma job_resume_preserves (j : job) (c : Camera) : P c -> P (snd (job_resume j c)).
Proof.
  intros Hc. unfold job_resume. destruct (job_due (now c) j); [|exact Hc].
  specialize (P_job j c Hc). unfold exec in P_job.
  destruct (job_step j c) as [[j'|e] c']; exact P_job.
Qed.

Lemma settle_jobs_preserves (js : list job) (c : Camera) :
  P c -> P (snd (settle_jobs js c)).
Proof.
  revert c. induction js as [|j js IH]; intros c Hc; simpl; [exact Hc|].
  pose proof (job_resume_preserves j c Hc) as Hj.
  destruct (job_resume j c) as [j' c']. simpl in Hj.
  specialize (IH c' Hj). destruct (settle_jobs js c') as [rest c'']. exact IH.
Qed.

Lemma settle_preserves (c : Camera) : P c -> P (settle c).
Proof.
  intros Hc. unfold settle.
  pose proof (settle_updates_preserves (update_threads c) c Hc) as H1.
  destruct (settle_updates (update_threads c) c) as [us c1]. simpl in H1.
  pose proof (settle_jobs_preserves (threads c1) c1 H1) as H2.
  destruct (settle_jobs (threads c1) c1) as [js c2]. simpl in H2.
  apply P_threads, P_update_threads. exact H2.
Qed.

Lemma elapse_preserves (k : nat) (c : Camera) : P c -> P (elapse k c).
Proof.
  revert c. induction k as [|k IH]; intros c Hc; simpl.
  - apply settle_preserves. exact Hc.
  - apply IH. apply P_now. apply settle_preserves. exact Hc.
Qed.

Lemma join_preserves (alive : Camera -> bool) (k : nat) (c : Camera) :
  P c -> P (join alive k c).
Proof.
  revert c. induction k as [|k IH]; intros c Hc; cbn [join];
    (destruct (alive c); [|exact Hc]).
  - destruct (alive (settle c)); apply settle_preserves; exact Hc.
  - destruct (alive (settle c)); [|apply settle_preserves; exact Hc].
    apply IH. apply P_now. apply settle_preserves. exact Hc.
Qed.

End SchedulerInvariant.

(** *** Time passing once every exposure thread has ended *)

Lemma update_tick_keeps_threads : keeps threads update_tick.
Proof. unfold update_tick, set_sensor. keeps_auto. Qed.

Section WithoutJobs.

(** What only the exposure threads and the controller can change. *)
Variable P : Camera -> Prop.
Hypothesis P_update_threads : forall us c, P c -> P (set_update_threads us c).
Hypothesis P_threads : forall js c, P c -> P (set_threads js c).
Hypothesis P_now : forall n c, P c -> P (set_now n c).
Hypothesis P_tick : preserves P update_tick.

Lemma settle_without_jobs (c : Camera) :
  jobs_done c = true -> P c -> P (settle c) /\ jobs_done (settle c) = true.
Proof.
  intros Hdone Hc. unfold settle.
  pose proof (settle_updates_preserves P P_tick (update_threads c) c Hc) as H1.
  pose proof (settle_updates_preserves (fun c' => threads c' = threads c)
                (keeps_preserves threads (fun l => l = threads c) _
                   update_tick_keeps_threads)
                (update_threads c) c eq_refl) as H2.
  destruct (settle_updates (update_threads c) c) as [us c1]. simpl in H1, H2.
  unfold jobs_done in Hdone. rewrite <- H2 in Hdone.
  rewrite (settle_jobs_done _ _ Hdone).
  split; [apply P_threads, P_update_threads; exact H1 | exact Hdone].
Qed.

Lemma elapse_without_jobs (k : nat) (c : Camera) :
  jobs_done c = true -> P c -> P (elapse k c).
Proof.
  revert c. induction k as [|k IH]; intros c Hdone Hc; simpl.
  - apply settle_without_jobs; assumption.
  - destruct (settle_without_jobs c Hdone Hc) as [H1 H2].
    apply IH; [exact H2 | apply P_now; exact H1].
Qed.

End WithoutJobs.

Lemma update_tick_keeps_exposure_view : keeps exposure_view update_tick.
Proof.
  unfold update_tick, set_sensor. keeps_auto.
  all: match goal with
       | Hp : props ?b = _, He : events ?b = _ |- _ =>
           unfold exposure_view; cbn; rewrite Hp, He;
           rewrite !lookup_insert_ne by discriminate; reflexivity
       end.
Qed.

(** C3. On a fresh idle camera (its update loop running or not),
    [start_exposure(2.0, True)] succeeds, and once 3.0 seconds or more have
    passed with no abort (24 eighths of a second and any [k] more) the
    exposure is complete: [is_exposing] is false, the image_ready property
    (and flag) is true, and exactly one EXPOSURE_COMPLETE event was emitted,
    whose image_size is the camera's width and height (1936 by 1096). *)
Theorem exposure_completes_after_three_seconds
    (started : bool) (id : string) (k : nat) :
  let c := elapse (24 + k) (exposure_of_two_seconds started id) in
  is_exposing (fresh_camera started id) = false
  /\ fst (start_exposure 2 (VBool true) (fresh_camera started id)) = Returned true
  /\ is_exposing c = false
  /\ image_ready c = true
  /\ props (cam_base c) !! "image_ready" = Some (VBool true)
  /\ props (cam_base c) !! "exposing" = Some (VBool false)
  /\ width c = 1936 /\ height c = 1096
  /\ events_named "EXPOSURE_COMPLETE" (events (cam_base c))
     = [Event "EXPOSURE_COMPLETE"
          (dict [("timestamp", VStr (get_iso_timestamp 24));
                 ("exposure_time", VFloat 2);
                 ("is_light", VBool true);
                 ("image_size", dict [("width", VInt (width c));
                                      ("height", VInt (height c))])])].
Proof.
  intros c.
  set (done := elapse 24 (exposure_of_two_seconds started id)).
  assert (Hview : exposure_view c = exposure_view done).
  { subst c. destruct k as [|k].
    - replace (24 + 0)%nat with 24%nat by lia. reflexivity.
    - replace (24 + S k)%nat with (S (24 + k)) by lia.
      rewrite elapse_more. fold done.
      apply (elapse_without_jobs (fun c' => exposure_view c' = exposure_view done));
        try (intros; assumption).
      + apply (keeps_preserves exposure_view (fun v => v = exposure_view done)),
          update_tick_keeps_exposure_view.
      + subst done. destruct started; vm_compute; reflexivity.
      + reflexivity. }
  assert (Hdone : exposure_view done
                  = (false, true, Some (VBool true), Some (VBool false), 1936, 1096,
                     [Event "EXPOSURE_COMPLETE"
                        (dict [("timestamp", VStr (get_iso_timestamp 24));
                               ("exposure_time", VFloat 2);
                               ("is_light", VBool true);
                               ("image_size", dict [("width", VInt 1936);
                                                    ("height", VInt 1096)])])])).
  { subst done. destruct started; vm_compute; reflexivity. }
  rewrite Hdone in Hview. unfold exposure_view in Hview.
  injection Hview as H1 H2 H3 H4 H5 H6 H7.
  rewrite H1, H2, H3, H4, H5, H6, H7.
  split; [destruct started; reflexivity|].
  split; [destruct started; vm_compute; reflexivity|].
  repeat split.
Qed.

Lemma preserves_send_event {D} `{Device D} (P : D -> Prop) name payload :
  (forall b d, events b = (events (base d) ++ [Event name payload])%list ->
               props b = props (base d) -> device_id b = device_id (base d) ->
               P d -> P (with_base b d)) ->
  preserves P (send_event name payload).
Proof. intros HP s Hs. unfold send_event, exec, modify. simpl. apply HP; done. Qed.

Lemma preserves_set_property {D} `{Device D} (P : D -> Prop) name v :
  (forall b d, props b = <[name := v]> (props (base d)) ->
               events b = events (base d) -> device_id b = device_id (base d) ->
               P d -> P (with_base b d)) ->
  preserves P (set_property name v).
Proof. intros HP s Hs. unfold set_property, exec, modify. simpl. apply HP; done. Qed.

Lemma preserves_lift_bind {S A B} (P : S -> Prop) (o : outcome A) (k : A -> M S B) :
  (forall a, o = Returned a -> preserves P (k a)) -> preserves P (bind (lift o) k).
Proof.
  intros Hk s Hs. unfold exec. rewrite lift_bind.
  destruct o as [a|e]; [apply (Hk a eq_refl s Hs) | exact Hs].
Qed.

Ltac preserves_step :=
  lazymatch goal with
  | |- preserves _ (bind (lift _) _) => apply preserves_lift_bind; intros ? ?
  | |- preserves _ (bind _ _) => apply preserves_bind; [ | intros ? ]
  | |- preserves _ (try_except _ _) => apply preserves_try_except; [ | intros ? ]
  | |- preserves _ (ret _) => apply preserves_ret
  | |- preserves _ (lift _) => apply preserves_lift
  | |- preserves _ (read _) => apply preserves_read
  | |- preserves _ (if ?b then _ else _) => destruct b
  | |- preserves _ (match ?x with _ => _ end) => destruct x
  | |- preserves _ (modify _) => apply preserves_modify
  | |- preserves _ (send_event _ _) => apply preserves_send_event
  | |- preserves _ (set_property _ _) => apply preserves_set_property
  end.

(** ** The cooling loop *)

Lemma num_ltb_leb (a b : num) : num_ltb a b = true -> num_leb a b = true.
Proof.
  unfold num_ltb, num_leb. destruct (num_compare a b) as [[]|]; congruence.
Qed.

Lemma clamp_target_in_range (temperature v : value) :
  clamp_target temperature = Returned v -> target_in_range v.
Proof.
  unfold clamp_target, lt_num, gt_num.
  destruct (as_num temperature) as [x|] eqn:Hx; simpl; [|discriminate].
  destruct (num_ltb x (NInt 50)) eqn:Hbelow.
  - rewrite Hx. simpl. destruct (num_ltb (NInt (-30)) x) eqn:Habove.
    + intros [= <-]. exists x. auto using num_ltb_leb.
    + intros [= <-]. exists (NInt (-30)). repeat split.
  - simpl. intros [= <-]. exists (NInt 50). repeat split.
Qed.

(** Steps that touch neither the drive power nor the target. *)
Ltac cooler_frame :=
  first
    [ intros ? ? ? ? ? [? ?]; split; assumption
    | intros ? [? ?]; split; assumption ].

Lemma set_cooler_preserves_cooler_ok (enabled temperature : value) :
  preserves cooler_ok (set_cooler enabled temperature).
Proof.
  unfold set_cooler, timestamp.
  repeat preserves_step; try cooler_frame.
  all: intros c' [Hp Ht]; split; [exact Hp|]; simpl.
  all: eapply clamp_target_in_range; eassumption.
Qed.

Ltac cooler_power_set :=
  let c' := fresh "c" in
  let Hp := fresh "Hp" in
  let Ht := fresh "Ht" in
  intros c' [Hp Ht]; split; simpl; [lia | exact Ht].

Lemma update_tick_preserves_cooler_ok : preserves cooler_ok update_tick.
Proof.
  unfold update_tick, set_sensor.
  repeat preserves_step; first [cooler_frame | cooler_power_set].
Qed.

Lemma ensures_bind_r {S A B} (Q : S -> Prop) (m : M S A) (k : A -> M S B) :
  (forall a, ensures Q (k a)) -> ensures Q (bind m k).
Proof.
  intros Hk s. unfold returns, exec, bind.
  destruct (m s) as [[a|e] s']; simpl; [apply Hk | discriminate].
Qed.

Lemma ensures_bind_l {S A B} (Q : S -> Prop) (m : M S A) (k : A -> M S B) :
  ensures Q m -> (forall a, preserves Q (k a)) -> ensures Q (bind m k).
Proof.
  intros Hm Hk s. specialize (Hm s). unfold returns, exec, bind in *.
  destruct (m s) as [[a|e] s']; simpl in *; [|discriminate].
  intros _. apply Hk. apply Hm. reflexivity.
Qed.

Lemma ensures_modify {S} (Q : S -> Prop) (g : S -> S) :
  (forall s, Q (g s)) -> ensures Q (modify g).
Proof. intros H s _. apply H. Qed.

Ltac power_frame :=
  first [ intros ? ? ? ? ? ?; assumption | intros ? ?; assumption ].

(** A pass of the loop body that runs to its end leaves a drive power within
    [0, 100], whatever the state it started from. *)
Lemma update_tick_power_range : ensures power_in_range update_tick.
Proof.
  unfold update_tick, set_sensor.
  apply ensures_bind_r; intros enabled. apply ensures_bind_l.
  - destruct (truthy enabled).
    + do 3 (apply ensures_bind_r; intros ?).
      destruct (num_ltb _ _).
      * do 2 (apply ensures_bind_r; intros ?). apply ensures_bind_l.
        { apply ensures_modify. intros c. unfold power_in_range. simpl. lia. }
        intros _. repeat preserves_step; power_frame.
      * apply ensures_bind_l.
        { apply ensures_modify. intros c. unfold power_in_range. simpl. lia. }
        intros _. repeat preserves_step; power_frame.
    + apply ensures_bind_l.
      { apply ensures_modify. intros c. unfold power_in_range. simpl. lia. }
      intros _. repeat preserves_step; power_frame.
  - intros _. repeat preserves_step; power_frame.
Qed.

Lemma job_step_preserves_cooler_ok (j : job) : preserves cooler_ok (job_step j).
Proof.
  unfold job_step, exposure_begin, exposure_poll, exposure_finish, exposure_failed,
    generate_image, timestamp.
  repeat preserves_step; cooler_frame.
Qed.

Lemma elapse_preserves_cooler_ok (k : nat) (c : Camera) :
  cooler_ok c -> cooler_ok (elapse k c).
Proof.
  apply elapse_preserves;
    auto using update_tick_preserves_cooler_ok, job_step_preserves_cooler_ok.
Qed.

Lemma stop_preserves_cooler_ok : preserves cooler_ok stop.
Proof.
  unfold stop, base_stop.
  repeat preserves_step; try cooler_frame.
  all: intros c' Hc'; apply join_preserves;
    auto using update_tick_preserves_cooler_ok, job_step_preserves_cooler_ok.
Qed.

Lemma start_preserves_cooler_ok (ok : bool) : preserves cooler_ok (start ok).
Proof. unfold start. repeat preserves_step; cooler_frame. Qed.

Lemma start_exposure_preserves_cooler_ok (t : float) (l : value) :
  preserves cooler_ok (start_exposure t l).
Proof. unfold start_exposure, spawn_exposure. repeat preserves_step; cooler_frame. Qed.

Lemma abort_exposure_preserves_cooler_ok : preserves cooler_ok abort_exposure.
Proof. unfold abort_exposure, timestamp. repeat preserves_step; cooler_frame. Qed.

Lemma dispatch_preserves_cooler_ok (name : string) (cmd : gmap string value) :
  preserves cooler_ok (dispatch name cmd).
Proof.
  unfold dispatch, camera_handler.
  repeat (destruct (String.eqb name _)); [ | | | | apply preserves_ret ].
  - unfold handle_start_exposure, timestamp.
    repeat preserves_step;
      first [ apply start_exposure_preserves_cooler_ok | cooler_frame ].
  - unfold handle_abort_exposure.
    repeat preserves_step;
      first [ apply abort_exposure_preserves_cooler_ok | cooler_frame ].
  - unfold handle_set_cooler.
    repeat preserves_step;
      first [ apply set_cooler_preserves_cooler_ok | cooler_frame ].
  - unfold handle_get_image, timestamp. repeat preserves_step; cooler_frame.
Qed.

Lemma perform_preserves_cooler_ok (a : action) (c : Camera) :
  cooler_ok c -> cooler_ok (perform a c).
Proof.
  destruct a; simpl.
  - apply start_preserves_cooler_ok.
  - apply stop_preserves_cooler_ok.
  - apply start_exposure_preserves_cooler_ok.
  - apply abort_exposure_preserves_cooler_ok.
  - apply set_cooler_preserves_cooler_ok.
  - apply dispatch_preserves_cooler_ok.
  - apply elapse_preserves_cooler_ok.
Qed.

Lemma init_cooler_ok (id : string) : cooler_ok (init id).
Proof.
  split; [vm_compute; split; discriminate|].
  exists (NFloat 20). repeat split.
Qed.

Lemma run_preserves (P : Camera -> Prop) :
  (forall a c, P c -> P (perform a c)) ->
  forall l c, P c -> P (run l c).
Proof.
  intros HP l. induction l as [|a l IH]; intros c Hc; simpl; [exact Hc|].
  apply IH. apply HP. exact Hc.
Qed.

(** C5. In every state a controller can bring a camera to, the drive power
    is within [0, 100] and the stored target temperature within [-30, 50].
    In particular a pass of the cooling loop leaves the power within
    [0, 100], and [set_cooler], whatever is passed as temperature (a number
    of any size, [None], or something that is not a number and makes the
    call raise), leaves a target within [-30, 50]. A pass of the loop that
    runs to its end leaves the power within [0, 100] from any state at all. *)
Theorem cooling_bounds_hold_in_every_reachable_state
    (id : string) (l : list action) (enabled temperature : value) :
  let c := run l (init id) in
  cooler_ok c
  /\ 0 <= cooler_power (exec update_tick c) <= 100
  /\ target_in_range (cooler_temp (exec (set_cooler enabled temperature) c))
  /\ (forall c' : Camera,
        returns update_tick c' = true ->
        0 <= cooler_power (exec update_tick c') <= 100).
Proof.
  assert (Hc : cooler_ok (run l (init id))).
  { apply run_preserves; [exact perform_preserves_cooler_ok | apply init_cooler_ok]. }
  split; [exact Hc|]. split; [|split].
  - apply (update_tick_preserves_cooler_ok _ Hc).
  - apply (set_cooler_preserves_cooler_ok enabled temperature _ Hc).
  - exact update_tick_power_range.
Qed.

(** ** GET_IMAGE *)

Lemma handle_get_image_spec (cmd response : gmap string value) (c : Camera) :
  exists r, handle_get_image cmd response c = (Returned r, c)
    /\ (status_of r = Some (VStr "SUCCESS")
        <-> image_ready c = true /\ has_image_data c = true)
    /\ (~ (image_ready c = true /\ has_image_data c = true) -> r = no_image response).
Proof.
  unfold handle_get_image, bind, read, timestamp, ret. simpl.
  destruct (image_ready c), (has_image_data c); simpl;
    eexists; (split; [reflexivity|]); rewrite status_respond; split;
    try (split; [intros _; split; reflexivity | reflexivity]);
    try (split; [discriminate | intros [? ?]; discriminate]);
    try (intros H; exfalso; apply H; split; reflexivity);
    try reflexivity.
Qed.

Lemma events_named_snoc (name : string) (l : list event) (e : event) :
  (length (events_named name l) <= length (events_named name (l ++ [e])%list))%nat.
Proof. unfold events_named. rewrite List.filter_app, length_app. lia. Qed.

Lemma awaiting_with_base (n : nat) (b : DeviceBase) (c : Camera) :
  (length (events_named "EXPOSURE_COMPLETE" (events (cam_base c)))
   <= length (events_named "EXPOSURE_COMPLETE" (events b)))%nat ->
  awaiting_image n c -> awaiting_image n (set_cam_base b c).
Proof.
  intros Hle [H1 H2]. unfold awaiting_image, completed in *. simpl.
  split; [lia | intros Hr; specialize (H2 Hr); lia].
Qed.

Ltac awaiting_frame :=
  first
    [ (* set_property: the event log is the same *)
      let He := fresh "He" in
      intros ? ? ? He ?; apply awaiting_with_base; rewrite He; apply Nat.le_refl
    | (* send_event: the event log grows *)
      let He := fresh "He" in
      intros ? ? He ? ?; apply awaiting_with_base; rewrite He;
      apply events_named_snoc
    | (* an attribute other than image_ready *)
      let H1 := fresh "H1" in
      let H2 := fresh "H2" in
      intros ? [H1 H2]; split; [exact H1 | exact H2]
    | (* image_ready := False *)
      let H1 := fresh "H1" in
      let H2 := fresh "H2" in
      intros ? [H1 H2]; split; [exact H1 | simpl; discriminate] ].

(** The end of the readout: a dark frame whose mean cannot be computed
    raises before anything is written; otherwise the image is stored, the
    flags and properties are set and EXPOSURE_COMPLETE is emitted. *)
Lemma exposure_finish_cases (j : job) (c : Camera) :
  (truthy (j_is_light j) = false
   /\ exists e, dark_current c = Raised e /\ exposure_finish j c = (Raised e, c))
  \/ ((truthy (j_is_light j) = true \/ exists z, dark_current c = Returned z)
      /\ exposure_finish j c
         = (Returned {| j_exposure_time := j_exposure_time j;
                        j_is_light := j_is_light j;
                        j_start_time := j_start_time j; j_pc := JDone;
                        j_wake := now c |},
            set_cam_base
              {| device_id := device_id (cam_base c);
                 props := <["image_ready" := VBool true]>
                            (<["exposing" := VBool false]> (props (cam_base c)));
                 events :=
                   (events (cam_base c)
                    ++ [Event "EXPOSURE_COMPLETE"
                          (dict [("timestamp", VStr (get_iso_timestamp (now c)));
                                 ("exposure_time", VFloat (j_exposure_time j));
                                 ("is_light", j_is_light j);
                                 ("image_size",
                                  dict [("width", VInt (width c));
                                        ("height", VInt (height c))])])])%list |}
              (set_image_ready true
                 (set_is_exposing false
                    (set_image_data (Some {| nbytes := 2 * (height c * width c) |})
                       c))))).
Proof.
  unfold exposure_finish, generate_image, bind, read, lift, id.
  destruct (truthy (j_is_light j)) eqn:Hlight.
  - right. split; [left; reflexivity|]. reflexivity.
  - destruct (dark_current c) as [z|e] eqn:Hdark.
    + right. split; [right; exists z; reflexivity|]. reflexivity.
    + left. split; [reflexivity|]. exists e. split; reflexivity.
Qed.

Lemma exposure_finish_awaiting (n : nat) (j : job) :
  preserves (awaiting_image n) (exposure_finish j).
Proof.
  intros c [H1 H2]. unfold exec.
  destruct (exposure_finish_cases j c) as [(_ & e & _ & ->) | (_ & ->)];
    [split; assumption|].
  unfold awaiting_image, completed, events_named in *.
  cbn [snd cam_base set_cam_base events].
  rewrite List.filter_app, length_app. simpl. split; [lia | intros _; lia].
Qed.

Lemma job_step_awaiting (n : nat) (j : job) : preserves (awaiting_image n) (job_step j).
Proof.
  unfold job_step. destruct (j_pc j).
  - unfold exposure_begin, exposure_poll, exposure_failed, timestamp.
    repeat preserves_step; awaiting_frame.
  - unfold exposure_poll, exposure_failed, timestamp.
    repeat preserves_step; awaiting_frame.
  - apply preserves_try_except; [apply exposure_finish_awaiting|].
    intros e. unfold exposure_failed, timestamp.
    repeat preserves_step; awaiting_frame.
  - apply preserves_ret.
Qed.

Lemma update_tick_awaiting (n : nat) : preserves (awaiting_image n) update_tick.
Proof. unfold update_tick, set_sensor. repeat preserves_step; awaiting_frame. Qed.

Lemma perform_awaiting (n : nat) (a : action) (c : Camera) :
  awaiting_image n c -> awaiting_image n (perform a c).
Proof.
  assert (Hstart : forall t l, preserves (awaiting_image n) (start_exposure t l)).
  { intros t l. unfold start_exposure, spawn_exposure.
    repeat preserves_step; awaiting_frame. }
  assert (Habort : preserves (awaiting_image n) abort_exposure).
  { unfold abort_exposure, timestamp. repeat preserves_step; awaiting_frame. }
  assert (Hcool : forall e t, preserves (awaiting_image n) (set_cooler e t)).
  { intros e t. unfold set_cooler, timestamp. repeat preserves_step; awaiting_frame. }
  assert (Hthreads : forall k c', awaiting_image n c' -> awaiting_image n (elapse k c')).
  { intros k c'. apply elapse_preserves; auto using update_tick_awaiting, job_step_awaiting.
    all: intros ? ? [? ?]; split; assumption. }
  assert (Hgo : forall ok, preserves (awaiting_image n) (start ok)).
  { intros ok. unfold start. repeat preserves_step; awaiting_frame. }
  assert (Hstop : preserves (awaiting_image n) stop).
  { unfold stop, base_stop. repeat preserves_step; try awaiting_frame.
    all: intros c' Hc'; apply join_preserves;
      auto using update_tick_awaiting, job_step_awaiting.
    all: intros ? ? [? ?]; split; assumption. }
  assert (Hcmd : forall name cmd, preserves (awaiting_image n) (dispatch name cmd)).
  { intros name cmd. unfold dispatch, camera_handler.
    repeat (destruct (String.eqb name _)); [ | | | | apply preserves_ret ].
    - unfold handle_start_exposure, timestamp.
      repeat preserves_step; first [ apply Hstart | awaiting_frame ].
    - unfold handle_abort_exposure.
      repeat preserves_step; first [ apply Habort | awaiting_frame ].
    - unfold handle_set_cooler.
      repeat preserves_step; first [ apply Hcool | awaiting_frame ].
    - unfold handle_get_image, timestamp. repeat preserves_step; awaiting_frame. }
  destruct a; simpl.
  - apply Hgo.
  - apply Hstop.
  - apply Hstart.
  - apply Habort.
  - apply Hcool.
  - apply Hcmd.
  - apply Hthreads.
Qed.

Lemma start_exposure_idle (t : float) (l : value) (c : Camera) :
  is_exposing c = false ->
  fst (start_exposure t l c) = Returned true
  /\ image_ready (exec (start_exposure t l) c) = false
  /\ completed (exec (start_exposure t l) c) = completed c.
Proof.
  intros Hidle. unfold start_exposure, exec, bind, read. rewrite Hidle.
  repeat split.
Qed.

(** X26. GET_IMAGE never raises and never changes the camera; it answers
    SUCCESS exactly when [image_ready] is true and image data is stored, and
    otherwise ERROR with the message "No image available". A successful
    [start_exposure] clears [image_ready] at once, and from then on,
    whatever the controller does and however long it waits, GET_IMAGE
    answers "No image available" as long as no thread has completed an
    exposure since (no further EXPOSURE_COMPLETE event, of the new exposure
    or of an earlier one). *)
Theorem get_image_needs_a_ready_image
    (c : Camera) (cmd response : gmap string value) :
  (exists r, handle_get_image cmd response c = (Returned r, c)
     /\ (status_of r = Some (VStr "SUCCESS")
         <-> image_ready c = true /\ has_image_data c = true)
     /\ (~ (image_ready c = true /\ has_image_data c = true) -> r = no_image response))
  /\ forall t l,
       is_exposing c = false ->
       fst (start_exposure t l c) = Returned true
       /\ forall acts,
            let c' := run acts (exec (start_exposure t l) c) in
            completed c' = completed c ->
            handle_get_image cmd response c' = (Returned (no_image response), c').
Proof.
  split; [apply handle_get_image_spec|].
  intros t l Hidle.
  destruct (start_exposure_idle t l c Hidle) as (Hok & Hready & Hcount).
  split; [exact Hok|].
  intros acts c' Hsame.
  assert (Hinv : awaiting_image (completed c) c').
  { apply run_preserves; [apply perform_awaiting|].
    split; [rewrite Hcount; apply Nat.le_refl|].
    rewrite Hready. discriminate. }
  destruct Hinv as [_ Hnot].
  assert (Hr : image_ready c' = false).
  { destruct (image_ready c'); [|reflexivity]. specialize (Hnot eq_refl). lia. }
  destruct (handle_get_image_spec cmd response c') as (r & Hrun & _ & Herr).
  rewrite Hrun. f_equal. f_equal. apply Herr. rewrite Hr. intros [? _]. discriminate.
Qed.

(** ** The cooling scenario *)

Lemma after_ticks_fixed (c : Camera) (n k : nat) :
  exec update_tick (after_ticks n c) = after_ticks n c ->
  (n <= k)%nat -> after_ticks k c = after_ticks n c.
Proof.
  intros Hfix Hle. induction Hle as [|k Hle IH]; [reflexivity|].
  change (after_ticks (S k) c) with (exec update_tick (after_ticks k c)).
  rewrite IH. exact Hfix.
Qed.

(** C4. From cooling off and a sensor at 20.0, switching the cooler on with
    target -10.0 makes every pass of the cooling loop lower the sensor
    temperature strictly for as long as it is more than 0.1 away from the
    target (the first 70 passes, each with a nonzero drive power); from the
    first pass that finds it within 0.1 on (pass 71 and every later one) the
    loop reports the holding power 10, not 0, in the attribute and in the
    cooler_power property. *)
Theorem cooling_descends_then_holds (id : string) :
  let c := fun k => after_ticks k (cooling_scenario id) in
  cooler_enabled (init id) = VBool false
  /\ sensor_temp (init id) = VFloat 20
  /\ cooler_enabled (c O) = VBool true
  /\ cooler_temp (c O) = VFloat (-10)
  /\ (forall k, (k < 70)%nat ->
        gap_exceeds (c k) = true
        /\ sensor_below (c (S k)) (c k) = true
        /\ returns update_tick (c k) = true
        /\ cooler_power (c (S k)) <> 0)
  /\ (forall k, (70 <= k)%nat ->
        gap_exceeds (c k) = false
        /\ returns update_tick (c k) = true
        /\ cooler_power (c (S k)) = 10
        /\ props (cam_base (c (S k))) !! "cooler_power" = Some (VInt 10)).
Proof.
  intros c. repeat (split; [reflexivity|]). split.
  - assert (Hall : forallb (fun k => descending_tick (c k)) (seq 0 70) = true)
      by (vm_compute; reflexivity).
    intros k Hk. rewrite forallb_forall in Hall.
    specialize (Hall k). unfold descending_tick in Hall.
    assert (Hin : In k (seq 0 70)) by (apply in_seq; lia).
    specialize (Hall Hin).
    apply andb_prop in Hall as [Hall Hpower].
    apply andb_prop in Hall as [Hall Hret].
    apply andb_prop in Hall as [Hgap Hbelow].
    repeat split; try assumption.
    change (c (S k)) with (exec update_tick (c k)).
    apply negb_true_iff, Z.eqb_neq in Hpower. exact Hpower.
  - assert (Hfix : exec update_tick (c 71%nat) = c 71%nat) by (vm_compute; reflexivity).
    intros k Hk.
    assert (Hnext : c (S k) = c 71%nat).
    { apply (after_ticks_fixed _ 71 (S k) Hfix). lia. }
    rewrite Hnext.
    destruct (Nat.eq_dec k 70%nat) as [->|Hne].
    + vm_compute. repeat split; reflexivity.
    + assert (Hk' : c k = c 71%nat).
      { apply (after_ticks_fixed _ 71 k Hfix). lia. }
      rewrite Hk'. vm_compute. repeat split; reflexivity.
Qed.

(** ** The dither cursor *)

Lemma auto_dither_advances (g : Guider.PiGuider) (v : value) :
  0 <= Guider.dither_index g < Z.of_nat (length (Guider.dither_sequence g)) ->
  Guider.dither_sequence g !! Z.to_nat (Guider.dither_index g) = Some v ->
  Guider.auto_dither g
  = (Returned tt,
     Guider.set_dither_calls (Guider.dither_calls g ++ [(v, true)])%list
       (Guider.set_dither_index
          ((Guider.dither_index g + 1) mod Z.of_nat (length (Guider.dither_sequence g)))
          g)).
Proof.
  intros Hrange Hv.
  unfold Guider.auto_dither, Guider.dither, bind, read, lift, modify.
  unfold Guider.list_index, Guider.int_mod.
  replace (Guider.dither_index g <? 0) with false by (symmetry; apply Z.ltb_ge; lia).
  replace (0 <=? Guider.dither_index g) with true by (symmetry; apply Z.leb_le; lia).
  replace (Guider.dither_index g <? Z.of_nat (length (Guider.dither_sequence g)))
    with true by (symmetry; apply Z.ltb_lt; lia).
  simpl. rewrite Hv.
  replace (Z.of_nat (length (Guider.dither_sequence g)) =? 0) with false
    by (symmetry; apply Z.eqb_neq; lia).
  reflexivity.
Qed.

(** C6. With a dither sequence of five elements and the cursor at 0, seven
    calls of [auto_dither] in a row all return, find the cursor at
    0, 1, 2, 3, 4, 0, 1 and hand [dither] the elements at these indices in
    that order; the cursor ends at 2. Each call moves the cursor by one
    modulo the length of the sequence. *)
Theorem dither_cursor_is_circular
    (g : Guider.PiGuider) (a0 a1 a2 a3 a4 : value) :
  Guider.dither_sequence g = [a0; a1; a2; a3; a4] ->
  Guider.dither_index g = 0 ->
  fst (Guider.auto_dithers 7 g) = [0; 1; 2; 3; 4; 0; 1]
  /\ Guider.dither_calls (snd (Guider.auto_dithers 7 g))
     = (Guider.dither_calls g
        ++ [(a0, true); (a1, true); (a2, true); (a3, true); (a4, true);
            (a0, true); (a1, true)])%list
  /\ Guider.dither_index (snd (Guider.auto_dithers 7 g)) = 2
  /\ forall g' : Guider.PiGuider,
       Guider.dither_sequence g' = Guider.dither_sequence g ->
       0 <= Guider.dither_index g' < 5 ->
       fst (Guider.auto_dither g') = Returned tt
       /\ Guider.dither_index (exec Guider.auto_dither g')
          = (Guider.dither_index g' + 1) mod 5.
Proof.
  intros Hseq Hidx. destruct g as [b cam sequence i calls]. simpl in *. subst.
  split; [reflexivity|]. split.
  { simpl. rewrite <- !app_assoc. reflexivity. }
  split; [reflexivity|].
  intros g' Hseq' Hrange.
  assert (Hlen : Z.of_nat (length (Guider.dither_sequence g')) = 5)
    by (rewrite Hseq'; reflexivity).
  destruct (Guider.dither_sequence g' !! Z.to_nat (Guider.dither_index g'))
    as [v|] eqn:Hv.
  - unfold exec. rewrite (auto_dither_advances g' v) by (rewrite ?Hlen; auto).
    rewrite Hlen. split; reflexivity.
  - apply lookup_ge_None in Hv. rewrite Hseq' in Hv. simpl in Hv. lia.
Qed.

(** ** Abort *)

(** What [abort_exposure] does to a camera that is exposing. *)
Lemma abort_exposure_exposing (c : Camera) :
  is_exposing c = true ->
  let c' := exec abort_exposure c in
  fst (abort_exposure c) = Returned true
  /\ is_exposing c' = false
  /\ props (cam_base c') !! "exposing" = Some (VBool false)
  /\ events (cam_base c')
     = (events (cam_base c)
        ++ [Event "EXPOSURE_ABORTED"
              (dict [("timestamp", VStr (get_iso_timestamp (now c)));
                     ("exposure_time", VFloat (exposure_time c))])])%list
  /\ image_ready c' = image_ready c
  /\ image_data c' = image_data c
  /\ threads c' = threads c.
Proof.
  intros Hbusy. unfold abort_exposure, exec, bind, read. rewrite Hbusy. simpl.
  repeat split. apply lookup_insert_eq.
Qed.

(** An exposure thread asleep in its progress loop that finds [is_exposing]
    false when it wakes returns at once: no event, no image, no change. *)
Lemma aborted_job_returns_silently (j : job) (c : Camera) :
  is_exposing c = false -> j_pc j = JPoll ->
  exists j', job_step j c = (Returned j', c) /\ j_pc j' = JDone.
Proof.
  intros Hidle Hpc. unfold job_step. rewrite Hpc.
  unfold try_except, exposure_poll, bind, read. rewrite Hidle. simpl.
  rewrite Hidle. simpl. eexists. split; reflexivity.
Qed.

(** C2, on the code. [abort_exposure] on an exposing camera clears
    [is_exposing] and the exposing property at once and emits one
    EXPOSURE_ABORTED event. But the aborted thread only tests the shared
    [is_exposing] flag at its next wake-up: when a new exposure is started
    before that, it finds the flag true again and carries on, so that the
    aborted 2 s light frame is read out, its image stored, [image_ready] set
    and its EXPOSURE_COMPLETE event emitted (and the new 4 s dark frame,
    finding the flag cleared by that completion, ends without any). *)
Theorem aborted_exposure_completes_after_restart (id : string) :
  is_exposing (exposing_camera id) = true
  /\ (j_pc <$> threads (exposing_camera id)) = [JPoll]
  /\ fst (abort_exposure (exposing_camera id)) = Returned true
  /\ is_exposing (aborted_camera id) = false
  /\ props (cam_base (aborted_camera id)) !! "exposing" = Some (VBool false)
  /\ length (events_named "EXPOSURE_ABORTED" (events (cam_base (aborted_camera id)))) = 1%nat
  /\ image_ready (aborted_camera id) = false
  /\ length (events_named "EXPOSURE_ABORTED"
               (events (cam_base (restarted_camera id)))) = 1%nat
  /\ length (events_named "READING_OUT"
               (events (cam_base (restarted_camera id)))) = 1%nat
  /\ events_named "EXPOSURE_COMPLETE" (events (cam_base (restarted_camera id)))
     = [Event "EXPOSURE_COMPLETE"
          (dict [("timestamp", VStr (get_iso_timestamp 24));
                 ("exposure_time", VFloat 2);
                 ("is_light", VBool true);
                 ("image_size", dict [("width", VInt 1936); ("height", VInt 1096)])])]
  /\ image_ready (restarted_camera id) = true
  /\ has_image_data (restarted_camera id) = true
  /\ (j_pc <$> threads (restarted_camera id)) = [JDone; JDone].
Proof. vm_compute. repeat split; reflexivity. Qed.

(** Without a new exposure in between, the aborted job ends there: however
    long the controller waits, no READING_OUT and no EXPOSURE_COMPLETE event
    is emitted and no image becomes ready. *)
Lemma aborted_exposure_stays_aborted (id : string) (k : nat) :
  let c := elapse k (aborted_camera id) in
  events_named "READING_OUT" (events (cam_base c)) = []
  /\ events_named "EXPOSURE_COMPLETE" (events (cam_base c)) = []
  /\ length (events_named "EXPOSURE_ABORTED" (events (cam_base c))) = 1%nat
  /\ is_exposing c = false /\ image_ready c = false.
Proof.
  assert (Hq : quiet (tick_clock (elapse 2 (aborted_camera id)))).
  { split; vm_compute; reflexivity. }
  destruct (le_lt_dec k 2) as [Hk|Hk].
  - destruct k as [|[|[|k]]]; try lia; vm_compute; repeat split; reflexivity.
  - replace k with (S (2 + (k - 3)))%nat by lia.
    rewrite elapse_more.
    destruct (elapse_quiet (k - 3) _ Hq) as [n Hn]. rewrite Hn.
    vm_compute. repeat split; reflexivity.
Qed.

(** C10, on the code. The first half holds: GET_IMAGE never raises and
    never changes the camera; it answers SUCCESS exactly when [image_ready]
    is true and image data is stored, and otherwise ERROR with the message
    "No image available". The second half fails in the scenario above. The
    4 s dark frame is started a quarter of a second after the 2 s light
    frame, right after the abort: [start_exposure] returns [True] and clears
    [image_ready], and GET_IMAGE answers "No image available" for the next
    2.75 s (22 eighths of a second), while no exposure has completed. From
    then on it answers SUCCESS, with the new exposure's thread still in its
    progress loop at that instant: the thread of the aborted light frame has
    stored its image and set [image_ready]. The new exposure never
    completes: however long the controller waits, the one EXPOSURE_COMPLETE
    event is that of the aborted 2 s light frame. *)
Theorem get_image_serves_the_aborted_exposure
    (id : string) (cmd response : gmap string value) :
  let c0 := aborted_camera id in
  let c1 := exec (start_exposure 4 (VBool false)) c0 in
  (forall c, exists r, handle_get_image cmd response c = (Returned r, c)
     /\ (status_of r = Some (VStr "SUCCESS")
         <-> image_ready c = true /\ has_image_data c = true)
     /\ (~ (image_ready c = true /\ has_image_data c = true)
         -> r = no_image response))
  /\ fst (start_exposure 4 (VBool false) c0) = Returned true
  /\ image_ready c1 = false
  /\ is_exposing c1 = true
  /\ exposure_time c1 = 4%float
  /\ (forall k, (k < 22)%nat ->
        completed (elapse k c1) = 0%nat
        /\ handle_get_image cmd response (elapse k c1)
           = (Returned (no_image response), elapse k c1))
  /\ (j_pc <$> threads (elapse 22 c1)) = [JDone; JPoll]
  /\ (forall k, (22 <= k)%nat ->
        (exists r,
           handle_get_image cmd response (elapse k c1) = (Returned r, elapse k c1)
           /\ status_of r = Some (VStr "SUCCESS"))
        /\ exposure_time (elapse k c1) = 4%float
        /\ events_named "EXPOSURE_COMPLETE" (events (cam_base (elapse k c1)))
           = [Event "EXPOSURE_COMPLETE"
                (dict [("timestamp", VStr (get_iso_timestamp 24));
                       ("exposure_time", VFloat 2);
                       ("is_light", VBool true);
                       ("image_size",
                        dict [("width", VInt 1936); ("height", VInt 1096)])])]).
Proof.
  intros c0 c1.
  split; [intros c; apply handle_get_image_spec|].
  split; [vm_compute; reflexivity|]. split; [vm_compute; reflexivity|].
  split; [vm_compute; reflexivity|]. split; [vm_compute; reflexivity|].
  split; [|split; [vm_compute; reflexivity|]].
  - intros k Hk.
    assert (Hall : forallb (fun k => negb (image_ready (elapse k c1))
                                     && (completed (elapse k c1) =? 0)%nat)
                     (seq 0 22) = true)
      by (vm_compute; reflexivity).
    rewrite forallb_forall in Hall. specialize (Hall k).
    assert (Hin : In k (seq 0 22)) by (apply in_seq; lia).
    apply Hall, andb_prop in Hin as [Hr Hc].
    apply negb_true_iff in Hr. apply Nat.eqb_eq in Hc.
    split; [exact Hc|].
    destruct (handle_get_image_spec cmd response (elapse k c1))
      as (r & Hrun & _ & Herr).
    rewrite Hrun. f_equal. f_equal. apply Herr. rewrite Hr. intros [? _].
    discriminate.
  - intros k Hk.
    assert (Hfacts :
      image_ready (elapse k c1) = true /\ has_image_data (elapse k c1) = true
      /\ exposure_time (elapse k c1) = 4%float
      /\ events_named "EXPOSURE_COMPLETE" (events (cam_base (elapse k c1)))
         = [Event "EXPOSURE_COMPLETE"
              (dict [("timestamp", VStr (get_iso_timestamp 24));
                     ("exposure_time", VFloat 2);
                     ("is_light", VBool true);
                     ("image_size",
                      dict [("width", VInt 1936); ("height", VInt 1096)])])]).
    { assert (Hq : quiet (tick_clock (elapse 24 c1))).
      { split; vm_compute; reflexivity. }
      destruct (le_lt_dec k 24) as [Hle|Hlt].
      - assert (Hcases : k = 22%nat \/ k = 23%nat \/ k = 24%nat) by lia.
        destruct Hcases as [->|[->| ->]]; vm_compute; repeat split; reflexivity.
      - replace k with (S (24 + (k - 25)))%nat by lia.
        rewrite elapse_more.
        destruct (elapse_quiet (k - 25) _ Hq) as [n Hn]. rewrite Hn.
        vm_compute. repeat split; reflexivity. }
    destruct Hfacts as (Hr & Hd & Ht & He).
    split; [|split; [exact Ht | exact He]].
    destruct (handle_get_image_spec cmd response (elapse k c1))
      as (r & Hrun & Hiff & _).
    exists r. split; [exact Hrun|]. apply Hiff. split; assumption.
Qed.

(** ** Validation in the command handlers *)

(** C7, on the code. The handlers check that some parameters are present,
    and no more. [handle_calculate_field] reads [cmd["parameters"]] without a
    test and raises [KeyError] on a command with no parameter map (where its
    sibling [handle_custom_command] answers ERROR "Missing parameters");
    [handle_start_exposure] raises on a duration that is not a number
    ([TypeError] for null, [ValueError] for a text that is not a float
    literal); [handle_set_cooler] raises [TypeError] on a temperature that is
    not a number, after it has already switched [cooler_enabled]. *)
Theorem handlers_raise_on_invalid_parameters
    (t : Telescope) (r1 r2 : float) (id : string) (response : gmap string value) :
  telescope_handle_calculate_field r1 r2 (bare_command "CALCULATE_FIELD") response t
  = (Raised KeyError, t)
  /\ telescope_handle_custom_command (bare_command "CUSTOM_COMMAND") response t
     = (Returned (respond "ERROR" (message "Missing parameters") response), t)
  /\ handle_start_exposure (command "START_EXPOSURE" [("duration", VNone)])
       response (init id)
     = (Raised TypeError, init id)
  /\ (forall s, float_of_text s = None ->
        handle_start_exposure (command "START_EXPOSURE" [("duration", VStr s)])
          response (init id)
        = (Raised ValueError, init id))
  /\ fst (handle_set_cooler
            (command "SET_COOLER" [("enabled", VBool true); ("temperature", VStr "cold")])
            response (init id))
     = Raised TypeError
  /\ cooler_enabled (init id) = VBool false
  /\ cooler_enabled
       (exec (handle_set_cooler
                (command "SET_COOLER"
                   [("enabled", VBool true); ("temperature", VStr "cold")])
                response) (init id))
     = VBool true.
Proof.
  split; [reflexivity|]. split; [reflexivity|]. split; [reflexivity|].
  split.
  { intros s Hs.
    assert (H1 : getitem (VDict (command "START_EXPOSURE" [("duration", VStr s)]))
                   "parameters" = Returned (dict [("duration", VStr s)]))
      by (vm_compute; reflexivity).
    assert (H2 : contains "duration" (dict [("duration", VStr s)]) = Returned true)
      by (vm_compute; reflexivity).
    assert (H3 : getitem (dict [("duration", VStr s)]) "duration" = Returned (VStr s))
      by (vm_compute; reflexivity).
    unfold handle_start_exposure.
    rewrite lift_bind, H1, lift_bind, H2. change (negb true) with false. cbv iota.
    rewrite lift_bind, H3, lift_bind. unfold float_of. rewrite Hs. reflexivity. }
  split; [reflexivity|]. split; reflexivity.
Qed.

(** ** Stop *)

Lemma stop_runs (c : Camera) :
  stop c = (Returned tt, exec (set_property "connected" (VBool false)) (after_joins c)).
Proof.
  cbv beta iota zeta delta
    [stop after_joins base_stop exec bind modify read ret snd id set_property].
  destruct (update_alive (set_running false c)); cbv beta iota;
    match goal with |- context [exposure_alive ?x] => destruct (exposure_alive x) end;
    reflexivity.
Qed.

Lemma update_tick_keeps_running : keeps running update_tick.
Proof. unfold update_tick, set_sensor. keeps_auto. Qed.

Lemma job_step_keeps_running (j : job) : keeps running (job_step j).
Proof.
  unfold job_step, exposure_begin, exposure_poll, exposure_finish, exposure_failed,
    generate_image, timestamp.
  keeps_auto.
Qed.

Lemma join_keeps_stopped (alive : Camera -> bool) (k : nat) (c : Camera) :
  running c = false -> running (join alive k c) = false.
Proof.
  apply (join_preserves (fun c => running c = false)); try (intros; assumption).
  - apply (keeps_preserves running (fun r => r = false)), update_tick_keeps_running.
  - intros j. apply (keeps_preserves running (fun r => r = false)), job_step_keeps_running.
Qed.

Lemma after_joins_stopped (c : Camera) : running (after_joins c) = false.
Proof.
  unfold after_joins.
  assert (Ha : running (set_running false c) = false) by reflexivity.
  destruct (update_alive (set_running false c)).
  - pose proof (join_keeps_stopped update_alive 16 _ Ha) as Hb.
    destruct (exposure_alive _); [apply join_keeps_stopped|]; exact Hb.
  - destruct (exposure_alive _); [apply join_keeps_stopped|]; exact Ha.
Qed.

Lemma disconnect_effect (c : Camera) :
  running (exec (set_property "connected" (VBool false)) c) = running c
  /\ props (cam_base (exec (set_property "connected" (VBool false)) c)) !! "connected"
     = Some (VBool false).
Proof. split; [reflexivity | apply lookup_insert_eq]. Qed.

Lemma stop_stops (c : Camera) :
  fst (stop c) = Returned tt
  /\ running (exec stop c) = false
  /\ props (cam_base (exec stop c)) !! "connected" = Some (VBool false).
Proof.
  unfold exec at 1 2. rewrite stop_runs. cbv beta iota delta [fst snd].
  destruct (disconnect_effect (after_joins c)) as [Hr Hc].
  split; [reflexivity|]. split.
  - rewrite Hr. apply after_joins_stopped.
  - exact Hc.
Qed.

Lemma set_running_same (c : Camera) (r : bool) : running c = r -> set_running r c = c.
Proof. intros <-. destruct c; reflexivity. Qed.

Lemma set_property_same (c : Camera) (name : string) (v : value) :
  props (cam_base c) !! name = Some v -> exec (set_property name v) c = c.
Proof.
  intros Hv. unfold exec, set_property, modify. simpl.
  rewrite (insert_id _ _ _ Hv). destruct c as [[] ]; reflexivity.
Qed.

(** On a stopped camera with no live thread, [stop] changes nothing. *)
Lemma stop_again_same (c : Camera) :
  running c = false ->
  props (cam_base c) !! "connected" = Some (VBool false) ->
  update_alive c = false -> exposure_alive c = false ->
  exec stop c = c.
Proof.
  intros Hr Hc Hu He. unfold exec at 1. rewrite stop_runs. cbv beta iota delta [snd].
  unfold after_joins. cbv zeta. rewrite (set_running_same c false Hr), Hu, He.
  apply set_property_same. exact Hc.
Qed.

(** The switch. While [running] is false its threads can only end. *)
Lemma switch_resume_stopped (t : sthread) (s : Switch) :
  sw_running s = Some false -> snd (switch_resume t s) = s.
Proof.
  intros Hr. unfold switch_resume. destruct (s_pc t); rewrite ?Hr; reflexivity.
Qed.

Lemma switch_settle_threads_stopped (ts : list sthread) (s : Switch) :
  sw_running s = Some false -> snd (switch_settle_threads ts s) = s.
Proof.
  intros Hr. induction ts as [|t ts IH]; simpl; [reflexivity|].
  assert (Ht : snd (if sthread_alive t && (s_wake t <=? sw_now s)%N
                    then switch_resume t s else (t, s)) = s).
  { destruct (sthread_alive t && (s_wake t <=? sw_now s)%N);
      [apply switch_resume_stopped; exact Hr | reflexivity]. }
  destruct (if sthread_alive t && (s_wake t <=? sw_now s)%N
            then switch_resume t s else (t, s)) as [t' s'].
  simpl in Ht. subst s'.
  destruct (switch_settle_threads ts s) as [rest s'']. simpl in *. congruence.
Qed.

Lemma switch_settle_stopped (s : Switch) :
  sw_running s = Some false ->
  sw_running (switch_settle s) = Some false
  /\ sw_base (switch_settle s) = sw_base s
  /\ sw_temperature (switch_settle s) = sw_temperature s.
Proof.
  intros Hr. unfold switch_settle.
  pose proof (switch_settle_threads_stopped (sw_threads s) s Hr) as H.
  destruct (switch_settle_threads (sw_threads s) s) as [ts s']. simpl in H. subst s'.
  auto.
Qed.

Lemma switch_join_stopped (k : nat) (s : Switch) :
  sw_running s = Some false ->
  sw_running (switch_join k s) = Some false
  /\ sw_base (switch_join k s) = sw_base s
  /\ sw_temperature (switch_join k s) = sw_temperature s.
Proof.
  revert s. induction k as [|k IH]; intros s Hr; cbn [switch_join];
    (destruct (switch_thread_alive s); [|auto]);
    destruct (switch_settle_stopped s Hr) as (H1 & H2 & H3).
  - destruct (switch_thread_alive (switch_settle s)); auto.
  - destruct (switch_thread_alive (switch_settle s)); [|auto].
    destruct (IH (sw_set_now (sw_now (switch_settle s) + 1)%N (switch_settle s)) H1)
      as (H4 & H5 & H6).
    rewrite H4, H5, H6. auto.
Qed.

Lemma switch_stop_runs (s : Switch) :
  switch_stop s
  = (Returned tt,
     match sw_update_thread s with
     | Some _ => switch_join 8 (sw_set_running (Some false) s)
     | None => sw_set_running (Some false) s
     end).
Proof.
  cbv beta iota zeta delta [switch_stop base_stop bind modify read ret id].
  change (sw_update_thread (sw_set_running (Some false) s)) with (sw_update_thread s).
  destruct (sw_update_thread s); reflexivity.
Qed.

Lemma switch_stop_stops (s : Switch) :
  fst (switch_stop s) = Returned tt
  /\ sw_running (exec switch_stop s) = Some false
  /\ sw_base (exec switch_stop s) = sw_base s
  /\ sw_temperature (exec switch_stop s) = sw_temperature s.
Proof.
  unfold exec. rewrite switch_stop_runs. cbv beta iota delta [fst snd].
  split; [reflexivity|].
  destruct (sw_update_thread s); [|repeat split].
  apply (switch_join_stopped 8 (sw_set_running (Some false) s)). reflexivity.
Qed.

Lemma switch_stop_again_same (s : Switch) :
  sw_running s = Some false -> switch_thread_alive s = false ->
  exec switch_stop s = s.
Proof.
  intros Hr Ha. unfold exec. rewrite switch_stop_runs. cbv beta iota delta [snd].
  assert (Hs : sw_set_running (Some false) s = s).
  { rewrite <- Hr. destruct s; reflexivity. }
  rewrite Hs.
  destruct (sw_update_thread s) as [t|] eqn:Ht; [|reflexivity].
  cbn [switch_join]. rewrite Ha. reflexivity.
Qed.

(** C8. [stop] twice in a row, on the camera and on the switch: both calls
    return normally (the method has no return value); running is false after
    the first call and after the second, and on the camera so is the
    connected property, which only the camera's [stop] writes (on the switch
    the property store and the temperature are as the first call left
    them); and when no thread of the device outlives the first call, the
    second call changes nothing at all. *)
Theorem stop_twice_is_stop_once (c : Camera) (s : Switch) :
  let c1 := exec stop c in
  let c2 := exec stop c1 in
  let s1 := exec switch_stop s in
  let s2 := exec switch_stop s1 in
  (fst (stop c) = Returned tt /\ fst (stop c1) = Returned tt
   /\ running c1 = false /\ running c2 = false
   /\ props (cam_base c1) !! "connected" = Some (VBool false)
   /\ props (cam_base c2) !! "connected" = Some (VBool false)
   /\ (update_alive c1 = false -> exposure_alive c1 = false -> c2 = c1))
  /\ (fst (switch_stop s) = Returned tt /\ fst (switch_stop s1) = Returned tt
      /\ sw_running s1 = Some false /\ sw_running s2 = Some false
      /\ sw_base s2 = sw_base s1 /\ sw_temperature s2 = sw_temperature s1
      /\ (switch_thread_alive s1 = false -> s2 = s1)).
Proof.
  intros c1 c2 s1 s2.
  destruct (stop_stops c) as (Hr1 & Hrun1 & Hcon1).
  destruct (stop_stops c1) as (Hr2 & Hrun2 & Hcon2).
  destruct (switch_stop_stops s) as (Hs1 & Hsr1 & _ & _).
  destruct (switch_stop_stops s1) as (Hs2 & Hsr2 & Hsb2 & Hst2).
  split.
  - repeat (split; [assumption|]).
    intros Hu He. apply stop_again_same; assumption.
  - repeat (split; [assumption|]).
    intros Ha. apply switch_stop_again_same; assumption.
Qed.

(** *** How long [stop] waits *)

Lemma update_tick_keeps_now : keeps now update_tick.
Proof. unfold update_tick, set_sensor. keeps_auto. Qed.

Lemma job_step_keeps_now (j : job) : keeps now (job_step j).
Proof.
  unfold job_step, exposure_begin, exposure_poll, exposure_finish, exposure_failed,
    generate_image, timestamp.
  keeps_auto.
Qed.

Lemma settle_now (c : Camera) : now (settle c) = now c.
Proof.
  apply (settle_preserves (fun c' => now c' = now c)); try (intros; assumption).
  - apply (keeps_preserves now (fun n => n = now c)), update_tick_keeps_now.
  - intros j. apply (keeps_preserves now (fun n => n = now c)), job_step_keeps_now.
  - reflexivity.
Qed.

Lemma join_clock (alive : Camera -> bool) (k : nat) (c : Camera) :
  (now c <= now (join alive k c) <= now c + N.of_nat k)%N.
Proof.
  revert c. induction k as [|k IH]; intros c; cbn [join];
    (destruct (alive c); [|lia]).
  - destruct (alive (settle c)); rewrite settle_now; lia.
  - destruct (alive (settle c)); [|rewrite settle_now; lia].
    specialize (IH (tick_clock (settle c))).
    change (now (tick_clock (settle c))) with (now (settle c) + 1)%N in IH.
    rewrite settle_now in IH. lia.
Qed.

Lemma after_joins_clock (c : Camera) :
  (now c <= now (after_joins c) <= now c + 32)%N.
Proof.
  unfold after_joins. cbv zeta.
  change (now c) with (now (set_running false c)).
  generalize (set_running false c) as ca. intros ca.
  assert (Hb : (now ca <= now (if update_alive ca then join update_alive 16 ca else ca)
                <= now ca + 16)%N).
  { destruct (update_alive ca); [|lia].
    pose proof (join_clock update_alive 16 ca). lia. }
  revert Hb. generalize (if update_alive ca then join update_alive 16 ca else ca).
  intros cb Hb. destruct (exposure_alive cb); [|lia].
  pose proof (join_clock exposure_alive 16 cb). lia.
Qed.

(** The switch's thread writes the temperature and may emit an event; the
    clock moves only while [join] waits. *)
Lemma switch_update_body_keeps_now : keeps sw_now switch_update_body.
Proof. unfold switch_update_body. keeps_auto. Qed.

Lemma switch_resume_now (t : sthread) (s : Switch) :
  sw_now (snd (switch_resume t s)) = sw_now s.
Proof.
  unfold switch_resume.
  destruct (s_pc t); try reflexivity;
    destruct (sw_running s) as [[|]|]; try reflexivity;
    pose proof (switch_update_body_keeps_now s) as Hb; unfold exec in Hb;
    destruct (switch_update_body s) as [[[]|e] s']; exact Hb.
Qed.

Lemma switch_settle_threads_now (ts : list sthread) (s : Switch) :
  sw_now (snd (switch_settle_threads ts s)) = sw_now s.
Proof.
  revert s. induction ts as [|t ts IH]; intros s; cbn [switch_settle_threads];
    [reflexivity|].
  assert (Ht : sw_now (snd (if sthread_alive t && (s_wake t <=? sw_now s)%N
                            then switch_resume t s else (t, s))) = sw_now s).
  { destruct (sthread_alive t && (s_wake t <=? sw_now s)%N);
      [apply switch_resume_now | reflexivity]. }
  destruct (if sthread_alive t && (s_wake t <=? sw_now s)%N
            then switch_resume t s else (t, s)) as [t' s'].
  cbn [snd] in Ht. specialize (IH s').
  destruct (switch_settle_threads ts s') as [rest s'']. cbn [snd] in *. congruence.
Qed.

Lemma switch_settle_now (s : Switch) : sw_now (switch_settle s) = sw_now s.
Proof.
  unfold switch_settle.
  pose proof (switch_settle_threads_now (sw_threads s) s) as H.
  destruct (switch_settle_threads (sw_threads s) s) as [ts s']. exact H.
Qed.

Lemma switch_join_clock (k : nat) (s : Switch) :
  (sw_now s <= sw_now (switch_join k s) <= sw_now s + N.of_nat k)%N.
Proof.
  revert s. induction k as [|k IH]; intros s; cbn [switch_join];
    (destruct (switch_thread_alive s); [|lia]).
  - destruct (switch_thread_alive (switch_settle s)); rewrite switch_settle_now; lia.
  - destruct (switch_thread_alive (switch_settle s));
      [|rewrite switch_settle_now; lia].
    specialize (IH (sw_set_now (sw_now (switch_settle s) + 1)%N (switch_settle s))).
    change (sw_now (sw_set_now (sw_now (switch_settle s) + 1)%N (switch_settle s)))
      with (sw_now (switch_settle s) + 1)%N in IH.
    pose proof (switch_settle_now s) as Hn. lia.
Qed.

Lemma switch_stop_clock (s : Switch) :
  (sw_now s <= sw_now (exec switch_stop s) <= sw_now s + 8)%N.
Proof.
  unfold exec. rewrite switch_stop_runs. cbv beta iota delta [snd].
  destruct (sw_update_thread s);
    [|change (sw_now (sw_set_running (Some false) s)) with (sw_now s); lia].
  pose proof (switch_join_clock 8 (sw_set_running (Some false) s)) as H.
  change (sw_now (sw_set_running (Some false) s)) with (sw_now s) in H. lia.
Qed.

(** C9, as the code has it. [stop] waits for each background thread for the
    join timeout at most and never looks at whether the thread has ended.
    On the camera it clears [running], waits for the update thread (the
    clock moves from that of [c] to that of [cb], by 2.0 s at most), then
    for the exposure thread (from [cb] to [cc], by 2.0 s at most), and
    writes the connected property on the camera the second wait left; so it
    returns within 4 s. On the switch the one wait moves the clock by 1.0 s
    at most. Both methods return normally in every state, with running
    false and, on the camera, the connected property false: a thread that
    outlives the timeout is not reported. *)
Theorem stop_returns_after_bounded_wait (c : Camera) (s : Switch) :
  let ca := set_running false c in
  let cb := if update_alive ca then join update_alive 16 ca else ca in
  let cc := if exposure_alive cb then join exposure_alive 16 cb else cb in
  (fst (stop c) = Returned tt
   /\ exec stop c = exec (set_property "connected" (VBool false)) cc
   /\ (now c <= now cb <= now c + 2 * ticks_per_second)%N
   /\ (now cb <= now cc <= now cb + 2 * ticks_per_second)%N
   /\ now (exec stop c) = now cc
   /\ (now c <= now (exec stop c) <= now c + 4 * ticks_per_second)%N
   /\ running (exec stop c) = false
   /\ props (cam_base (exec stop c)) !! "connected" = Some (VBool false))
  /\ (fst (switch_stop s) = Returned tt
      /\ (sw_now s <= sw_now (exec switch_stop s)
          <= sw_now s + 1 * ticks_per_second)%N
      /\ sw_running (exec switch_stop s) = Some false).
Proof.
  intros ca cb cc.
  destruct (stop_stops c) as (H1 & H2 & H3).
  destruct (switch_stop_stops s) as (H4 & H5 & _).
  assert (Hrun : exec stop c = exec (set_property "connected" (VBool false)) cc).
  { unfold exec at 1. rewrite stop_runs. reflexivity. }
  assert (Hb : (now c <= now cb <= now c + 16)%N).
  { subst cb. change (now c) with (now ca).
    destruct (update_alive ca); [|lia].
    pose proof (join_clock update_alive 16 ca). lia. }
  assert (Hc : (now cb <= now cc <= now cb + 16)%N).
  { subst cc. destruct (exposure_alive cb); [|lia].
    pose proof (join_clock exposure_alive 16 cb). lia. }
  assert (Hnow : now (exec stop c) = now cc) by (rewrite Hrun; reflexivity).
  change (2 * ticks_per_second)%N with 16%N.
  change (4 * ticks_per_second)%N with 32%N.
  change (1 * ticks_per_second)%N with 8%N.
  split.
  - split; [exact H1|]. split; [exact Hrun|]. split; [exact Hb|].
    split; [exact Hc|]. split; [exact Hnow|].
    split; [rewrite Hnow; lia|]. split; [exact H2 | exact H3].
  - split; [exact H4|]. split; [apply switch_stop_clock | exact H5].
Qed.

(** ** Further properties of the camera *)

(** *** Abort *)

(** X1. With no exposure in progress, [abort_exposure] returns [False] and
    changes nothing (no event, no property written); the ABORT_EXPOSURE
    handler, alone or run by the dispatcher, answers ERROR with the message
    "No exposure in progress to abort" and leaves the camera as it was. *)
Theorem abort_without_exposure_is_refused
    (c : Camera) (cmd response : gmap string value) :
  is_exposing c = false ->
  abort_exposure c = (Returned false, c)
  /\ handle_abort_exposure cmd response c
     = (Returned (respond "ERROR" (message "No exposure in progress to abort")
                    response), c)
  /\ dispatch "ABORT_EXPOSURE" cmd c
     = (Returned (respond "ERROR" (message "No exposure in progress to abort")
                    {[ "status" := VStr "UNKNOWN" ]}), c).
Proof.
  intros Hidle.
  assert (H : abort_exposure c = (Returned false, c)).
  { unfold abort_exposure, bind, read. rewrite Hidle. reflexivity. }
  split; [exact H|]. split.
  - unfold handle_abort_exposure, bind. rewrite H. reflexivity.
  - unfold dispatch. simpl. unfold handle_abort_exposure, bind. rewrite H. reflexivity.
Qed.

(** X2. On an exposing camera the ABORT_EXPOSURE handler answers SUCCESS:
    [is_exposing] and the exposing property are cleared at once and exactly
    one EXPOSURE_ABORTED event is appended, carrying the exposure time in
    force. The stored image, [image_ready] and the exposure thread are left
    alone (the thread is not interrupted). A second ABORT_EXPOSURE right
    after is refused with ERROR and changes nothing. *)
Theorem abort_command_ends_the_exposure_once
    (c : Camera) (cmd response : gmap string value) :
  is_exposing c = true ->
  let c' := exec (handle_abort_exposure cmd response) c in
  fst (handle_abort_exposure cmd response c)
  = Returned (respond "SUCCESS" (message "Exposure aborted successfully") response)
  /\ is_exposing c' = false
  /\ props (cam_base c') !! "exposing" = Some (VBool false)
  /\ events (cam_base c')
     = (events (cam_base c)
        ++ [Event "EXPOSURE_ABORTED"
              (dict [("timestamp", VStr (get_iso_timestamp (now c)));
                     ("exposure_time", VFloat (exposure_time c))])])%list
  /\ image_ready c' = image_ready c
  /\ image_data c' = image_data c
  /\ threads c' = threads c
  /\ exposure_thread c' = exposure_thread c
  /\ handle_abort_exposure cmd response c'
     = (Returned (respond "ERROR" (message "No exposure in progress to abort")
                    response), c').
Proof.
  intros Hbusy c'.
  destruct (abort_exposure_exposing c Hbusy) as (Hok & Hidle & Hprop & Hev & Hr & Hd & Ht).
  assert (Hrun : handle_abort_exposure cmd response c
                 = (Returned (respond "SUCCESS"
                                (message "Exposure aborted successfully") response),
                    exec abort_exposure c)).
  { unfold handle_abort_exposure, bind, exec.
    destruct (abort_exposure c) as [o c1]. simpl in Hok. subst o. reflexivity. }
  assert (Hc' : c' = exec abort_exposure c).
  { subst c'. unfold exec at 1. rewrite Hrun. reflexivity. }
  rewrite Hc', Hrun.
  repeat (split; [assumption || reflexivity|]).
  split.
  { unfold abort_exposure, exec, bind, read. rewrite Hbusy. reflexivity. }
  unfold handle_abort_exposure, bind at 1.
  assert (H : abort_exposure (exec abort_exposure c)
              = (Returned false, exec abort_exposure c)).
  { unfold abort_exposure at 1, bind, read. rewrite Hidle. reflexivity. }
  rewrite H. reflexivity.
Qed.

(** *** Commands that start an exposure or set the cooler *)

(** X3. START_EXPOSURE on an idle camera, with a duration that [float]
    accepts: the handler answers SUCCESS with the exposure time and the two
    timestamps; [is_exposing] becomes true, [image_ready] false, the exposure
    time is stored, the three properties follow, one new thread is recorded
    (for a light frame unless the command says otherwise) and becomes the
    camera's exposure thread. No event is emitted by the call itself. *)
Theorem start_exposure_command_on_idle_camera
    (c : Camera) (cmd response params : gmap string value)
    (d : value) (duration : float) :
  is_exposing c = false ->
  cmd !! "parameters" = Some (VDict params) ->
  params !! "duration" = Some d ->
  float_of d = Returned duration ->
  let c' := exec (handle_start_exposure cmd response) c in
  fst (handle_start_exposure cmd response c)
  = Returned (respond "SUCCESS"
                (dict [("exposure_time", VFloat duration);
                       ("started_at", VStr (get_iso_timestamp (now c)));
                       ("estimated_completion", VStr (get_iso_timestamp (now c)))])
                response)
  /\ is_exposing c' = true
  /\ image_ready c' = false
  /\ exposure_time c' = duration
  /\ props (cam_base c') !! "exposing" = Some (VBool true)
  /\ props (cam_base c') !! "exposure_time" = Some (VFloat duration)
  /\ props (cam_base c') !! "image_ready" = Some (VBool false)
  /\ events (cam_base c') = events (cam_base c)
  /\ threads c'
     = (threads c
        ++ [{| j_exposure_time := duration;
               j_is_light := match params !! "light" with
                             | Some v => v
                             | None => VBool true
                             end;
               j_start_time := 0; j_pc := JStart; j_wake := now c |}])%list
  /\ exposure_thread c' = Some (length (threads c)).
Proof.
  intros Hidle Hp Hd Hf c'. subst c'.
  unfold exec, handle_start_exposure.
  rewrite lift_bind. simpl getitem. rewrite Hp.
  rewrite lift_bind. simpl contains.
  assert (Hin : bool_decide (is_Some (params !! "duration")) = true).
  { apply bool_decide_eq_true. rewrite Hd. eauto. }
  rewrite Hin. change (negb true) with false. cbv iota.
  rewrite lift_bind. simpl getitem. rewrite Hd.
  rewrite lift_bind, Hf.
  rewrite lift_bind. simpl dict_get. cbv iota.
  unfold start_exposure, spawn_exposure, timestamp, bind, read, modify,
    set_property, ret.
  rewrite Hidle. simpl.
  repeat split.
  - rewrite !lookup_insert_ne by discriminate. apply lookup_insert_eq.
  - rewrite lookup_insert_ne by discriminate. apply lookup_insert_eq.
  - apply lookup_insert_eq.
Qed.

(** X4. A START_EXPOSURE command whose parameter map has no duration, and a
    SET_COOLER command whose parameter map has no enabled entry, are answered
    with ERROR and the message naming the missing parameter; the camera is
    not touched. *)
Theorem commands_without_their_required_parameter
    (c : Camera) (cmd response params : gmap string value) :
  cmd !! "parameters" = Some (VDict params) ->
  (params !! "duration" = None ->
   handle_start_exposure cmd response c
   = (Returned (respond "ERROR" (message "Missing required parameter: duration")
                  response), c))
  /\ (params !! "enabled" = None ->
      handle_set_cooler cmd response c
      = (Returned (respond "ERROR" (message "Missing required parameter: enabled")
                     response), c)).
Proof.
  intros Hp. split; intros Hnone.
  - unfold handle_start_exposure.
    rewrite lift_bind. simpl getitem. rewrite Hp.
    rewrite lift_bind. simpl contains.
    assert (Hin : bool_decide (is_Some (params !! "duration")) = false).
    { apply bool_decide_eq_false. rewrite Hnone. intros [v Hv]. discriminate. }
    rewrite Hin. reflexivity.
  - unfold handle_set_cooler.
    rewrite lift_bind. simpl getitem. rewrite Hp.
    rewrite lift_bind. simpl contains.
    assert (Hin : bool_decide (is_Some (params !! "enabled")) = false).
    { apply bool_decide_eq_false. rewrite Hnone. intros [v Hv]. discriminate. }
    rewrite Hin. reflexivity.
Qed.

Lemma clamp_target_int (z : Z) :
  clamp_target (VInt z) = Returned (VInt (Z.max (-30) (Z.min 50 z))).
Proof.
  unfold clamp_target, lt_num, gt_num, num_ltb, num_compare.
  cbn [as_num obind magnitude].
  destruct (Z.compare_spec z 50) as [H1|H1|H1]; cbn [as_num obind magnitude];
    try (destruct (Z.compare_spec (-30) z) as [H2|H2|H2]);
    try (destruct (Z.compare_spec (-30) 50) as [H2|H2|H2]);
    do 2 f_equal; lia.
Qed.

(** X5. [set_cooler] with an integer temperature stores
    max(-30, min(50, temperature)) as the target, in the attribute and in the
    cooler_temperature property, stores the enabled flag as given, returns
    [True] and emits one COOLER_CHANGED event that carries the new and the
    previous flag and target. With no temperature ([None]) the target is
    kept as it was. *)
Theorem set_cooler_stores_the_clamped_target
    (c : Camera) (enabled : value) (z : Z) :
  (let c' := exec (set_cooler enabled (VInt z)) c in
   let target := VInt (Z.max (-30) (Z.min 50 z)) in
   fst (set_cooler enabled (VInt z) c) = Returned true
   /\ cooler_temp c' = target
   /\ cooler_enabled c' = enabled
   /\ props (cam_base c') !! "cooler_temperature" = Some target
   /\ props (cam_base c') !! "cooler_enabled" = Some enabled
   /\ events (cam_base c')
      = (events (cam_base c)
         ++ [Event "COOLER_CHANGED"
               (dict [("timestamp", VStr (get_iso_timestamp (now c)));
                      ("enabled", dict [("current", enabled);
                                        ("previous", cooler_enabled c)]);
                      ("temperature", dict [("current", target);
                                            ("previous", cooler_temp c)])])])%list)
  /\ (let c' := exec (set_cooler enabled VNone) c in
      fst (set_cooler enabled VNone c) = Returned true
      /\ cooler_temp c' = cooler_temp c
      /\ cooler_enabled c' = enabled
      /\ props (cam_base c') !! "cooler_temperature" = Some (cooler_temp c)
      /\ props (cam_base c') !! "cooler_enabled" = Some enabled).
Proof.
  split.
  - unfold set_cooler, exec, timestamp, bind, read, modify, lift, set_property,
      send_event, ret. cbv beta iota zeta.
    rewrite clamp_target_int. simpl.
    repeat split.
    + apply lookup_insert_eq.
    + rewrite lookup_insert_ne by discriminate. apply lookup_insert_eq.
  - unfold set_cooler, exec, timestamp, bind, read, modify, set_property,
      send_event, ret. simpl.
    repeat split.
    + apply lookup_insert_eq.
    + rewrite lookup_insert_ne by discriminate. apply lookup_insert_eq.
Qed.

(** *** The exposure thread *)

(** X6. Once the thread of a light frame has reached its readout sleep, it
    completes whatever happened meanwhile, an abort included: when it wakes
    it stores an image of 2 bytes per pixel, clears [is_exposing], sets
    [image_ready] and the two properties, emits exactly one
    EXPOSURE_COMPLETE event with the exposure time and frame kind it was
    started with, and ends. *)
Theorem readout_completes_whatever_the_flag (j : job) (c : Camera) :
  j_pc j = JReadout ->
  truthy (j_is_light j) = true ->
  let c' := exec (job_step j) c in
  (exists j', fst (job_step j c) = Returned j' /\ job_alive j' = false)
  /\ is_exposing c' = false
  /\ image_ready c' = true
  /\ image_data c' = Some {| nbytes := 2 * (height c * width c) |}
  /\ props (cam_base c') !! "exposing" = Some (VBool false)
  /\ props (cam_base c') !! "image_ready" = Some (VBool true)
  /\ events (cam_base c')
     = (events (cam_base c)
        ++ [Event "EXPOSURE_COMPLETE"
              (dict [("timestamp", VStr (get_iso_timestamp (now c)));
                     ("exposure_time", VFloat (j_exposure_time j));
                     ("is_light", j_is_light j);
                     ("image_size", dict [("width", VInt (width c));
                                          ("height", VInt (height c))])])])%list.
Proof.
  intros Hpc Hlight c'. subst c'. unfold job_step. rewrite Hpc.
  unfold try_except, exposure_finish, generate_image, timestamp, exec, bind,
    read, modify, set_property, send_event, ret. rewrite Hlight. simpl.
  split; [eexists; split; reflexivity|].
  repeat split.
  - rewrite lookup_insert_ne by discriminate. apply lookup_insert_eq.
  - apply lookup_insert_eq.
Qed.

(** X7. An exposure thread that first runs after its exposure was aborted
    (it finds [is_exposing] false) still announces EXPOSURE_STARTED, then
    ends at once: no progress, readout or completion event, no image, no
    change of any attribute or property. *)
Theorem thread_of_an_aborted_exposure_only_announces (j : job) (c : Camera) :
  j_pc j = JStart ->
  is_exposing c = false ->
  let c' := exec (job_step j) c in
  (exists j', fst (job_step j c) = Returned j' /\ job_alive j' = false)
  /\ c' = set_cam_base
            {| device_id := device_id (cam_base c);
               props := props (cam_base c);
               events := (events (cam_base c)
                          ++ [Event "EXPOSURE_STARTED"
                                (dict [("timestamp", VStr (get_iso_timestamp (now c)));
                                       ("exposure_time",
                                        VFloat (j_exposure_time j))])])%list |} c.
Proof.
  intros Hpc Hidle c'. subst c'. unfold job_step. rewrite Hpc.
  unfold try_except, exposure_begin, exposure_poll, timestamp, exec, bind,
    read, modify, send_event, ret. simpl.
  rewrite Hidle. simpl. rewrite Hidle. simpl.
  split; [eexists; split; reflexivity | reflexivity].
Qed.

(** X8. When the thread of a light frame has run its readout on a camera
    with a sensor of positive width and height, GET_IMAGE answers SUCCESS
    and reports the stored size: two bytes for each of the height by width
    pixels, beside the width and the height themselves. *)
Theorem get_image_reports_two_bytes_per_pixel
    (j : job) (c : Camera) (cmd response : gmap string value) :
  j_pc j = JReadout ->
  truthy (j_is_light j) = true ->
  0 < width c -> 0 < height c ->
  let c' := exec (job_step j) c in
  exists details,
    handle_get_image cmd response c'
    = (Returned (respond "SUCCESS" (VDict details) response), c')
    /\ details !! "size_bytes" = Some (VInt (2 * (height c * width c)))
    /\ details !! "width" = Some (VInt (width c))
    /\ details !! "height" = Some (VInt (height c))
    /\ details !! "image_ready" = Some (VBool true).
Proof.
  intros Hpc Hlight Hw Hh c'.
  assert (Hready : image_ready c' = true /\ width c' = width c /\ height c' = height c
                   /\ image_data c' = Some {| nbytes := 2 * (height c * width c) |}).
  { subst c'. unfold job_step. rewrite Hpc.
    unfold try_except, exposure_finish, generate_image, timestamp, exec, bind,
      read, modify, set_property, send_event, ret. rewrite Hlight. simpl.
    repeat split. }
  destruct Hready as (Hr & Hw' & Hh' & Hd).
  unfold handle_get_image, timestamp, bind, read, ret, has_image_data. cbv beta iota.
  unfold id. rewrite Hr, Hd, Hw', Hh'. cbn [nbytes negb orb].
  replace (2 * (height c * width c) =? 0) with false by (symmetry; apply Z.eqb_neq; nia).
  cbn [negb]. unfold dict at 1. cbn [fold_left fst snd].
  eexists. split; [reflexivity|].
  repeat split.
Qed.

(** X27. When the thread of a dark frame wakes from its readout sleep and
    the mean of the frame cannot be computed (the sum, the product or [int]
    raises [e]), the [except] clause runs: [is_exposing] and the exposing
    property are cleared, one EXPOSURE_ERROR event carries the message of
    [e], and the thread ends. No image is stored and [image_ready] and its
    property stay as they were. *)
Theorem dark_frame_without_a_mean_ends_in_error
    (j : job) (c : Camera) (e : exn) :
  j_pc j = JReadout ->
  truthy (j_is_light j) = false ->
  dark_current c = Raised e ->
  let c' := exec (job_step j) c in
  (exists j', fst (job_step j c) = Returned j' /\ job_alive j' = false)
  /\ is_exposing c' = false
  /\ image_ready c' = image_ready c
  /\ image_data c' = image_data c
  /\ props (cam_base c') !! "exposing" = Some (VBool false)
  /\ props (cam_base c') !! "image_ready" = props (cam_base c) !! "image_ready"
  /\ events (cam_base c')
     = (events (cam_base c)
        ++ [Event "EXPOSURE_ERROR"
              (dict [("timestamp", VStr (get_iso_timestamp (now c)));
                     ("error", VStr (message_of e))])])%list.
Proof.
  intros Hpc Hlight Hdark c'. subst c'. unfold job_step. rewrite Hpc.
  unfold exec, try_except.
  destruct (exposure_finish_cases j c)
    as [(_ & e' & Hd & ->) | ([Hl | [z Hz]] & _)]; [|congruence|congruence].
  rewrite Hdark in Hd. injection Hd as <-.
  unfold exposure_failed, timestamp, bind, read, modify, set_property,
    send_event, ret. simpl.
  split; [eexists; split; reflexivity|].
  repeat split.
  - apply lookup_insert_eq.
  - rewrite lookup_insert_ne by discriminate. reflexivity.
Qed.

(** X28. When the mean of a dark frame can be computed, the thread that
    wakes from its readout sleep completes as that of a light frame does:
    it stores an image of 2 bytes per pixel, clears [is_exposing], sets
    [image_ready] and the two properties, emits one EXPOSURE_COMPLETE event
    with the exposure time and frame kind it was started with, and ends. *)
Theorem dark_frame_with_a_mean_completes (j : job) (c : Camera) (z : Z) :
  j_pc j = JReadout ->
  truthy (j_is_light j) = false ->
  dark_current c = Returned z ->
  let c' := exec (job_step j) c in
  (exists j', fst (job_step j c) = Returned j' /\ job_alive j' = false)
  /\ is_exposing c' = false
  /\ image_ready c' = true
  /\ image_data c' = Some {| nbytes := 2 * (height c * width c) |}
  /\ props (cam_base c') !! "exposing" = Some (VBool false)
  /\ props (cam_base c') !! "image_ready" = Some (VBool true)
  /\ events (cam_base c')
     = (events (cam_base c)
        ++ [Event "EXPOSURE_COMPLETE"
              (dict [("timestamp", VStr (get_iso_timestamp (now c)));
                     ("exposure_time", VFloat (j_exposure_time j));
                     ("is_light", j_is_light j);
                     ("image_size", dict [("width", VInt (width c));
                                          ("height", VInt (height c))])])])%list.
Proof.
  intros Hpc Hlight Hdark c'. subst c'. unfold job_step. rewrite Hpc.
  unfold exec, try_except.
  destruct (exposure_finish_cases j c) as [(_ & e & Hd & _) | (_ & ->)];
    [congruence|].
  simpl.
  split; [eexists; split; reflexivity|].
  repeat split.
  - rewrite lookup_insert_ne by discriminate. apply lookup_insert_eq.
  - apply lookup_insert_eq.
Qed.

(** *** What is stored and what is published *)

Ltac image_frame :=
  first
    [ intros ? ? ? ? ? ?; assumption
    | intros ? ?; assumption
    | let H1 := fresh "H1" in
      let H2 := fresh "H2" in
      let H3 := fresh "H3" in
      intros ? (H1 & H2 & H3); split; [exact H1|]; split; [exact H2|];
      simpl; discriminate ].

Lemma exposure_finish_image_backed (j : job) : preserves image_backed (exposure_finish j).
Proof.
  intros c (Hw & Hh & Hr). unfold exec.
  destruct (exposure_finish_cases j c) as [(_ & e & _ & ->) | (_ & ->)];
    [split; [exact Hw|]; split; [exact Hh | exact Hr]|].
  unfold image_backed, has_image_data. simpl.
  split; [exact Hw|]. split; [exact Hh|]. intros _.
  apply negb_true_iff, Z.eqb_neq. nia.
Qed.

Lemma job_step_image_backed (j : job) : preserves image_backed (job_step j).
Proof.
  unfold job_step. destruct (j_pc j).
  - unfold exposure_begin, exposure_poll, exposure_failed, timestamp.
    repeat preserves_step; image_frame.
  - unfold exposure_poll, exposure_failed, timestamp.
    repeat preserves_step; image_frame.
  - apply preserves_try_except; [apply exposure_finish_image_backed|].
    intros e. unfold exposure_failed, timestamp.
    repeat preserves_step; image_frame.
  - apply preserves_ret.
Qed.

Lemma update_tick_image_backed : preserves image_backed update_tick.
Proof. unfold update_tick, set_sensor. repeat preserves_step; image_frame. Qed.

Lemma perform_image_backed (a : action) (c : Camera) :
  image_backed c -> image_backed (perform a c).
Proof.
  assert (Hstart : forall t l, preserves image_backed (start_exposure t l)).
  { intros t l. unfold start_exposure, spawn_exposure.
    repeat preserves_step; image_frame. }
  assert (Habort : preserves image_backed abort_exposure).
  { unfold abort_exposure, timestamp. repeat preserves_step; image_frame. }
  assert (Hcool : forall e t, preserves image_backed (set_cooler e t)).
  { intros e t. unfold set_cooler, timestamp. repeat preserves_step; image_frame. }
  assert (Hthreads : forall k c', image_backed c' -> image_backed (elapse k c')).
  { intros k c'.
    apply elapse_preserves; auto using update_tick_image_backed, job_step_image_backed. }
  assert (Hgo : forall ok, preserves image_backed (start ok)).
  { intros ok. unfold start. repeat preserves_step; image_frame. }
  assert (Hstop : preserves image_backed stop).
  { unfold stop, base_stop. repeat preserves_step; try image_frame.
    all: intros c' Hc'; apply join_preserves;
      auto using update_tick_image_backed, job_step_image_backed. }
  assert (Hcmd : forall name cmd, preserves image_backed (dispatch name cmd)).
  { intros name cmd. unfold dispatch, camera_handler.
    repeat (destruct (String.eqb name _)); [ | | | | apply preserves_ret ].
    - unfold handle_start_exposure, timestamp.
      repeat preserves_step; first [ apply Hstart | image_frame ].
    - unfold handle_abort_exposure.
      repeat preserves_step; first [ apply Habort | image_frame ].
    - unfold handle_set_cooler.
      repeat preserves_step; first [ apply Hcool | image_frame ].
    - unfold handle_get_image, timestamp. repeat preserves_step; image_frame. }
  destruct a; simpl.
  - apply Hgo.
  - apply Hstop.
  - apply Hstart.
  - apply Habort.
  - apply Hcool.
  - apply Hcmd.
  - apply Hthreads.
Qed.

(** X9. In every state a controller can bring a camera to, a true
    [image_ready] flag is backed by stored image data (and the sensor keeps
    its positive width and height). So there GET_IMAGE answers SUCCESS
    exactly when [image_ready] is true: its second test, on the data, never
    decides. *)
Theorem ready_image_is_always_backed_by_data
    (id : string) (l : list action) (cmd response : gmap string value) :
  let c := run l (init id) in
  0 < width c /\ 0 < height c
  /\ (image_ready c = true -> has_image_data c = true)
  /\ exists r, handle_get_image cmd response c = (Returned r, c)
       /\ (status_of r = Some (VStr "SUCCESS") <-> image_ready c = true).
Proof.
  intros c.
  assert (Hc : image_backed c).
  { apply run_preserves; [exact perform_image_backed|].
    split; [reflexivity|]. split; [reflexivity|]. discriminate. }
  destruct Hc as (Hw & Hh & Hdata).
  repeat (split; [assumption|]).
  destruct (handle_get_image_spec cmd response c) as (r & Hrun & Hiff & _).
  exists r. split; [exact Hrun|]. rewrite Hiff. tauto.
Qed.

Ltac mirror_frame :=
  lazymatch goal with
  | Hp : props ?b = _, He : events ?b = _ |- _ =>
      unfold exposure_mirror, connection_mirror; cbn; rewrite Hp;
      rewrite ?lookup_insert_ne by discriminate; reflexivity
  end.

Lemma update_tick_keeps_exposure_mirror : keeps exposure_mirror update_tick.
Proof. unfold update_tick, set_sensor. keeps_auto. all: mirror_frame. Qed.

Lemma exposure_finish_mirrored (j : job) :
  preserves (fun c => mirrored (exposure_mirror c)) (exposure_finish j).
Proof.
  intros c (H1 & H2 & H3). unfold exec.
  destruct (exposure_finish_cases j c) as [(_ & e & _ & ->) | (_ & ->)];
    [split; [exact H1|]; split; [exact H2 | exact H3]|].
  unfold exposure_mirror, mirrored. simpl.
  split; [|split].
  - rewrite lookup_insert_ne by discriminate. apply lookup_insert_eq.
  - apply lookup_insert_eq.
  - rewrite !lookup_insert_ne by discriminate. exact H3.
Qed.

Lemma exposure_failed_mirrored (j : job) (e : exn) :
  preserves (fun c => mirrored (exposure_mirror c)) (exposure_failed j e).
Proof.
  intros c (H1 & H2 & H3).
  unfold exposure_failed, timestamp, exec, bind, read, modify,
    set_property, send_event, ret, exposure_mirror, mirrored. simpl.
  split; [|split].
  - apply lookup_insert_eq.
  - rewrite lookup_insert_ne by discriminate. exact H2.
  - rewrite lookup_insert_ne by discriminate. exact H3.
Qed.

Lemma job_step_mirrored (j : job) :
  preserves (fun c => mirrored (exposure_mirror c)) (job_step j).
Proof.
  unfold job_step. destruct (j_pc j).
  - apply preserves_try_except; [|apply exposure_failed_mirrored].
    apply (keeps_preserves exposure_mirror mirrored).
    unfold exposure_begin, exposure_poll, timestamp. keeps_auto. all: mirror_frame.
  - apply preserves_try_except; [|apply exposure_failed_mirrored].
    apply (keeps_preserves exposure_mirror mirrored).
    unfold exposure_poll, timestamp. keeps_auto. all: mirror_frame.
  - apply preserves_try_except;
      [apply exposure_finish_mirrored | apply exposure_failed_mirrored].
  - apply preserves_ret.
Qed.

Lemma start_exposure_mirrored (t : float) (l : value) :
  preserves (fun c => mirrored (exposure_mirror c)) (start_exposure t l).
Proof.
  intros c Hc. destruct (is_exposing c) eqn:Hbusy.
  - unfold exec. rewrite start_exposure_busy by exact Hbusy. exact Hc.
  - unfold start_exposure, spawn_exposure, exec, bind, read, modify,
      set_property, ret, exposure_mirror, mirrored. rewrite Hbusy. simpl.
    split; [|split].
    + rewrite !lookup_insert_ne by discriminate. apply lookup_insert_eq.
    + apply lookup_insert_eq.
    + rewrite lookup_insert_ne by discriminate. apply lookup_insert_eq.
Qed.

Lemma abort_exposure_mirrored :
  preserves (fun c => mirrored (exposure_mirror c)) abort_exposure.
Proof.
  intros c Hc. destruct (is_exposing c) eqn:Hbusy.
  - destruct Hc as (H1 & H2 & H3).
    unfold abort_exposure, timestamp, exec, bind, read, modify,
      set_property, send_event, ret, exposure_mirror, mirrored. rewrite Hbusy. simpl.
    split; [|split].
    + apply lookup_insert_eq.
    + rewrite lookup_insert_ne by discriminate. exact H2.
    + rewrite lookup_insert_ne by discriminate. exact H3.
  - unfold abort_exposure, exec, bind, read. rewrite Hbusy. exact Hc.
Qed.

Lemma set_cooler_keeps_exposure_mirror (e t : value) :
  keeps exposure_mirror (set_cooler e t).
Proof. unfold set_cooler, timestamp. keeps_auto. all: mirror_frame. Qed.

Lemma perform_mirrored (a : action) (c : Camera) :
  mirrored (exposure_mirror c) -> mirrored (exposure_mirror (perform a c)).
Proof.
  set (P := fun c => mirrored (exposure_mirror c)).
  assert (Htick : preserves P update_tick).
  { apply (keeps_preserves exposure_mirror mirrored), update_tick_keeps_exposure_mirror. }
  assert (Hcool : forall e t, preserves P (set_cooler e t)).
  { intros e t.
    apply (keeps_preserves exposure_mirror mirrored), set_cooler_keeps_exposure_mirror. }
  assert (Hthreads : forall k c', P c' -> P (elapse k c')).
  { intros k c'. apply elapse_preserves; auto using job_step_mirrored. }
  assert (Hgo : forall ok, preserves P (start ok)).
  { intros ok. apply (keeps_preserves exposure_mirror mirrored).
    unfold start. keeps_auto. all: mirror_frame. }
  assert (Hstop : preserves P stop).
  { unfold stop, base_stop. repeat preserves_step.
    all: try (intros c' Hc'; apply join_preserves; auto using job_step_mirrored).
    all: try (intros ? ?; assumption).
    intros b d Hp He Hd Hm. unfold P, exposure_mirror in *. cbn. rewrite Hp.
    rewrite !lookup_insert_ne by discriminate. exact Hm. }
  assert (Hcmd : forall name cmd, preserves P (dispatch name cmd)).
  { intros name cmd. unfold dispatch, camera_handler.
    repeat (destruct (String.eqb name _)); [ | | | | apply preserves_ret ].
    - unfold handle_start_exposure, timestamp.
      repeat preserves_step; apply start_exposure_mirrored.
    - unfold handle_abort_exposure.
      repeat preserves_step; apply abort_exposure_mirrored.
    - unfold handle_set_cooler. repeat preserves_step; apply Hcool.
    - unfold handle_get_image, timestamp. repeat preserves_step. }
  destruct a; simpl.
  - apply Hgo.
  - apply Hstop.
  - apply start_exposure_mirrored.
  - apply abort_exposure_mirrored.
  - apply Hcool.
  - apply Hcmd.
  - apply Hthreads.
Qed.

Lemma update_tick_keeps_connection : keeps connection_mirror update_tick.
Proof. unfold update_tick, set_sensor. keeps_auto. all: mirror_frame. Qed.

Lemma job_step_keeps_connection (j : job) : keeps connection_mirror (job_step j).
Proof.
  unfold job_step, exposure_begin, exposure_poll, exposure_finish, exposure_failed,
    generate_image, timestamp.
  keeps_auto. all: mirror_frame.
Qed.

Lemma perform_connection (a : action) (c : Camera) :
  props (cam_base c) !! "connected" = Some (VBool (running c)) ->
  props (cam_base (perform a c)) !! "connected" = Some (VBool (running (perform a c))).
Proof.
  set (Q := fun v : bool * option value => snd v = Some (VBool (fst v))).
  change (Q (connection_mirror c) -> Q (connection_mirror (perform a c))).
  assert (Hkeep : forall A (m : M Camera A),
            keeps connection_mirror m -> Q (connection_mirror c) ->
            Q (connection_mirror (exec m c))).
  { intros A m Hm Hc. rewrite (Hm c). exact Hc. }
  destruct a; simpl perform.
  - intros Hc. destruct base_ok; [|exact Hc].
    unfold Q, connection_mirror, start, exec, bind, read, modify, set_property, ret.
    simpl. apply lookup_insert_eq.
  - intros _. destruct (stop_stops c) as (_ & Hr & Hp).
    unfold Q, connection_mirror. simpl. rewrite Hr. exact Hp.
  - apply Hkeep. unfold start_exposure, spawn_exposure. keeps_auto. all: mirror_frame.
  - apply Hkeep. unfold abort_exposure, timestamp. keeps_auto. all: mirror_frame.
  - apply Hkeep. unfold set_cooler, timestamp. keeps_auto. all: mirror_frame.
  - apply Hkeep. unfold dispatch, camera_handler.
    repeat (destruct (String.eqb name _)); [ | | | | apply keeps_ret ].
    + unfold handle_start_exposure, start_exposure, spawn_exposure, timestamp.
      keeps_auto. all: mirror_frame.
    + unfold handle_abort_exposure, abort_exposure, timestamp.
      keeps_auto. all: mirror_frame.
    + unfold handle_set_cooler, set_cooler, timestamp. keeps_auto. all: mirror_frame.
    + unfold handle_get_image, timestamp. keeps_auto.
  - apply (elapse_preserves (fun c => Q (connection_mirror c)));
      try (intros; assumption).
    + apply (keeps_preserves connection_mirror Q), update_tick_keeps_connection.
    + intros j. apply (keeps_preserves connection_mirror Q), job_step_keeps_connection.
Qed.

(** X10. In every state a controller can bring a camera to, the property
    store publishes the attributes faithfully: the exposing, image_ready and
    exposure_time properties hold the values of [is_exposing], [image_ready]
    and [exposure_time], and the connected property holds the value of
    [running]. *)
Theorem properties_mirror_the_attributes (id : string) (l : list action) :
  let c := run l (init id) in
  props (cam_base c) !! "exposing" = Some (VBool (is_exposing c))
  /\ props (cam_base c) !! "image_ready" = Some (VBool (image_ready c))
  /\ props (cam_base c) !! "exposure_time" = Some (VFloat (exposure_time c))
  /\ props (cam_base c) !! "connected" = Some (VBool (running c)).
Proof.
  intros c.
  assert (H1 : mirrored (exposure_mirror c)).
  { apply (run_preserves (fun c => mirrored (exposure_mirror c)));
      [exact perform_mirrored|].
    repeat split. }
  assert (H2 : props (cam_base c) !! "connected" = Some (VBool (running c))).
  { apply (run_preserves
             (fun c => props (cam_base c) !! "connected" = Some (VBool (running c))));
      [exact perform_connection | reflexivity]. }
  destruct H1 as (Ha & Hb & Hc). auto.
Qed.

(** *** An exposure in progress is driven by a thread *)

Lemma job_step_keeps_exposure_thread (j : job) : keeps exposure_thread (job_step j).
Proof.
  unfold job_step, exposure_begin, exposure_poll, exposure_finish, exposure_failed,
    generate_image, timestamp.
  keeps_auto.
Qed.

Lemma update_tick_keeps_exposure_machinery : keeps exposure_machinery update_tick.
Proof. unfold update_tick, set_sensor. keeps_auto. Qed.

(** No thread ever sets [is_exposing]; a thread that leaves it set is still
    alive if it was. *)
Lemma job_resume_flag (j : job) (c : Camera) :
  is_exposing (snd (job_resume j c)) = true ->
  is_exposing c = true
  /\ (job_alive j = true -> job_alive (fst (job_resume j c)) = true).
Proof.
  unfold job_resume. destruct (job_due (now c) j); [|auto].
  unfold job_step, job_alive at 1. destruct (j_pc j) eqn:Hpc.
  - unfold try_except, exposure_begin, exposure_poll, exposure_failed, timestamp,
      bind, read, modify, send_event, set_property, ret, lift. cbn.
    destruct (is_exposing c) eqn:Hbusy; cbn.
    + destruct (_ <? _)%float; cbn.
      * destruct (float_div _ _); cbn; [auto | discriminate].
      * rewrite Hbusy. cbn. auto.
    + rewrite Hbusy. cbn. intros H. rewrite Hbusy in H. discriminate.
  - unfold try_except, exposure_poll, exposure_failed, timestamp,
      bind, read, modify, send_event, set_property, ret, lift. cbn.
    destruct (is_exposing c) eqn:Hbusy; cbn.
    + destruct (_ <? _)%float; cbn.
      * destruct (float_div _ _); cbn; [auto | discriminate].
      * rewrite Hbusy. cbn. auto.
    + rewrite Hbusy. cbn. intros H. rewrite Hbusy in H. discriminate.
  - unfold try_except.
    destruct (exposure_finish_cases j c) as [(_ & e & _ & ->) | (_ & ->)].
    + unfold exposure_failed, timestamp, bind, read, modify, send_event,
        set_property, ret. cbn. discriminate.
    + cbn. discriminate.
  - cbn. intros H. split; [exact H | discriminate].
Qed.

Lemma settle_jobs_flag (js : list job) (c : Camera) :
  is_exposing (snd (settle_jobs js c)) = true ->
  is_exposing c = true
  /\ forall i j, js !! i = Some j -> job_alive j = true ->
       exists j', fst (settle_jobs js c) !! i = Some j' /\ job_alive j' = true.
Proof.
  revert c. induction js as [|j js IH]; intros c; cbn [settle_jobs].
  - cbn. intros H. split; [exact H|]. intros i j Hi. destruct i; discriminate.
  - pose proof (job_resume_flag j c) as Hj.
    destruct (job_resume j c) as [j1 c1]. cbn [fst snd] in Hj.
    specialize (IH c1). destruct (settle_jobs js c1) as [rest c2].
    cbn [fst snd] in *. intros Hflag.
    destruct (IH Hflag) as [Hflag1 Hrest].
    destruct (Hj Hflag1) as [Hflag0 Hj1].
    split; [exact Hflag0|].
    intros [|i] j0 Hi Halive; cbn in Hi.
    + injection Hi as <-. exists j1. split; [reflexivity | auto].
    + apply (Hrest i j0 Hi Halive).
Qed.

Lemma settle_driven (c : Camera) : exposure_driven c -> exposure_driven (settle c).
Proof.
  intros Hc. unfold settle.
  pose proof (settle_updates_preserves
                (fun c' => exposure_machinery c' = exposure_machinery c)
                (keeps_preserves exposure_machinery
                   (fun v => v = exposure_machinery c) _
                   update_tick_keeps_exposure_machinery)
                (update_threads c) c eq_refl) as H1.
  destruct (settle_updates (update_threads c) c) as [us c1]. cbn [snd] in H1.
  unfold exposure_machinery in H1. injection H1 as Hflag Hthread Hthreads.
  pose proof (settle_jobs_preserves
                (fun c' => exposure_thread c' = exposure_thread c1)
                (fun j => keeps_preserves exposure_thread
                            (fun v => v = exposure_thread c1) _
                            (job_step_keeps_exposure_thread j))
                (threads c1) c1 eq_refl) as H2.
  pose proof (settle_jobs_flag (threads c1) c1) as H3.
  destruct (settle_jobs (threads c1) c1) as [js c2]. cbn [fst snd] in H2, H3.
  unfold exposure_driven, exposure_alive.
  change (is_exposing (set_threads js (set_update_threads us c2)))
    with (is_exposing c2).
  change (exposure_thread (set_threads js (set_update_threads us c2)))
    with (exposure_thread c2).
  change (threads (set_threads js (set_update_threads us c2))) with js.
  intros Hbusy. destruct (H3 Hbusy) as [Hbusy1 Hlook].
  rewrite Hflag in Hbusy1. specialize (Hc Hbusy1).
  unfold exposure_alive in Hc. rewrite H2, Hthread.
  destruct (exposure_thread c) as [i|]; [|discriminate].
  rewrite <- Hthreads in Hc.
  destruct (threads c1 !! i) as [j|] eqn:Hj; [|discriminate].
  destruct (Hlook i j Hj Hc) as (j' & -> & Hj'). exact Hj'.
Qed.

Lemma elapse_driven (k : nat) (c : Camera) :
  exposure_driven c -> exposure_driven (elapse k c).
Proof.
  revert c. induction k as [|k IH]; intros c Hc; cbn [elapse].
  - apply settle_driven. exact Hc.
  - apply IH. apply (settle_driven c Hc).
Qed.

Lemma join_driven (alive : Camera -> bool) (k : nat) (c : Camera) :
  exposure_driven c -> exposure_driven (join alive k c).
Proof.
  revert c. induction k as [|k IH]; intros c Hc; cbn [join];
    (destruct (alive c); [|exact Hc]).
  - destruct (alive (settle c)); apply settle_driven; exact Hc.
  - destruct (alive (settle c)); [|apply settle_driven; exact Hc].
    apply IH. apply (settle_driven c Hc).
Qed.

Lemma start_exposure_driven (t : float) (l : value) :
  preserves exposure_driven (start_exposure t l).
Proof.
  intros c Hc. destruct (is_exposing c) eqn:Hbusy.
  - unfold exec. rewrite start_exposure_busy by exact Hbusy. exact Hc.
  - unfold start_exposure, spawn_exposure, exec, bind, read, modify,
      set_property, ret, exposure_driven, exposure_alive. rewrite Hbusy. cbn.
    intros _. rewrite lookup_app_r by lia. rewrite Nat.sub_diag. reflexivity.
Qed.

Lemma abort_exposure_driven : preserves exposure_driven abort_exposure.
Proof.
  intros c Hc. destruct (is_exposing c) eqn:Hbusy.
  - unfold abort_exposure, timestamp, exec, bind, read, modify,
      set_property, send_event, ret, exposure_driven. rewrite Hbusy. cbn.
    discriminate.
  - unfold abort_exposure, exec, bind, read. rewrite Hbusy. exact Hc.
Qed.

Lemma perform_driven (a : action) (c : Camera) :
  exposure_driven c -> exposure_driven (perform a c).
Proof.
  set (Q := fun v : bool * option nat * list job =>
              fst (fst v) = true ->
              match snd (fst v) with
              | Some i => match snd v !! i with
                          | Some j => job_alive j
                          | None => false
                          end
              | None => false
              end = true).
  assert (Hkeep : forall A (m : M Camera A),
            keeps exposure_machinery m -> exposure_driven c ->
            exposure_driven (exec m c)).
  { intros A m Hm Hc.
    change (Q (exposure_machinery (exec m c))). rewrite (Hm c). exact Hc. }
  assert (Hcool : forall e t, keeps exposure_machinery (set_cooler e t)).
  { intros e t. unfold set_cooler, timestamp. keeps_auto. }
  assert (Hstart : forall cmd r, preserves exposure_driven (handle_start_exposure cmd r)).
  { intros cmd r. unfold handle_start_exposure, timestamp.
    repeat preserves_step; apply start_exposure_driven. }
  assert (Habort : forall cmd r, preserves exposure_driven (handle_abort_exposure cmd r)).
  { intros cmd r. unfold handle_abort_exposure.
    repeat preserves_step; apply abort_exposure_driven. }
  destruct a; cbn [perform].
  - apply Hkeep. unfold start. keeps_auto.
  - intros Hc. unfold exec. rewrite stop_runs. cbn [snd].
    change (exposure_driven (after_joins c)).
    unfold after_joins. cbv zeta.
    assert (Ha : exposure_driven (set_running false c)) by exact Hc.
    revert Ha. generalize (set_running false c). intros ca Ha.
    assert (Hb : exposure_driven
                   (if update_alive ca then join update_alive 16 ca else ca)).
    { destruct (update_alive ca); [apply join_driven|]; exact Ha. }
    revert Hb. generalize (if update_alive ca then join update_alive 16 ca else ca).
    intros cb Hb. destruct (exposure_alive cb) eqn:Hal; [apply join_driven|]; exact Hb.
  - apply start_exposure_driven.
  - apply abort_exposure_driven.
  - apply Hkeep, Hcool.
  - unfold dispatch, camera_handler.
    repeat (destruct (String.eqb name _)); [ | | | | intros Hc; exact Hc ].
    + apply Hstart.
    + apply Habort.
    + apply Hkeep. unfold handle_set_cooler, set_cooler, timestamp. keeps_auto.
    + apply Hkeep. unfold handle_get_image, timestamp. keeps_auto.
  - apply elapse_driven.
Qed.

(** X21. In every state a controller can bring a camera to, an exposure in
    progress has a live thread behind it: whenever [is_exposing] is true
    (and so the exposing property, which mirrors it), the thread of the last
    exposure started is alive. The camera is never left exposing with no
    thread to finish or clear the exposure. *)
Theorem exposing_camera_has_a_live_exposure_thread (id : string) (l : list action) :
  let c := run l (init id) in
  is_exposing c = true -> exposure_alive c = true.
Proof.
  intros c. apply (run_preserves exposure_driven); [exact perform_driven|].
  intros H. vm_compute in H. discriminate.
Qed.

(** *** A camera at rest stays at rest *)

Lemma events_named_other (name other : string) (payload : value) (l : list event) :
  String.eqb other name = false ->
  events_named name (l ++ [Event other payload])%list = events_named name l.
Proof.
  intros Hne. unfold events_named. rewrite List.filter_app. cbn.
  rewrite Hne. apply app_nil_r.
Qed.

Ltac outcome_frame :=
  lazymatch goal with
  | He : events ?b = (_ ++ [_])%list |- _ =>
      unfold exposure_outcome; cbn; rewrite He;
      rewrite !events_named_other by reflexivity; reflexivity
  | He : events ?b = _ |- _ =>
      unfold exposure_outcome; cbn; rewrite He; reflexivity
  end.

Lemma update_tick_keeps_exposure_outcome : keeps exposure_outcome update_tick.
Proof. unfold update_tick, set_sensor. keeps_auto. all: outcome_frame. Qed.

(** With [is_exposing] false, a thread that is not in its readout ends
    without a trace in the outcome. *)
Lemma job_resume_at_rest (j : job) (c : Camera) :
  is_exposing c = false -> reading_out j = false ->
  exposure_outcome (snd (job_resume j c)) = exposure_outcome c
  /\ reading_out (fst (job_resume j c)) = false.
Proof.
  intros Hidle Hpc. unfold job_resume. destruct (job_due (now c) j); [|auto].
  unfold job_step. unfold reading_out in Hpc. destruct (j_pc j) eqn:Hj.
  - unfold try_except, exposure_begin, exposure_poll, timestamp,
      bind, read, modify, send_event, ret, lift. cbn.
    rewrite Hidle. cbn. rewrite Hidle. cbn.
    split; [|reflexivity].
    unfold exposure_outcome, events_named. cbn.
    rewrite !List.filter_app. cbn. rewrite !app_nil_r. reflexivity.
  - unfold try_except, exposure_poll, bind, read, ret. cbn.
    rewrite Hidle. cbn. rewrite Hidle. cbn. auto.
  - discriminate.
  - cbn. unfold reading_out. rewrite Hj. auto.
Qed.

Lemma settle_jobs_at_rest (js : list job) (c : Camera) :
  is_exposing c = false -> existsb reading_out js = false ->
  exposure_outcome (snd (settle_jobs js c)) = exposure_outcome c
  /\ existsb reading_out (fst (settle_jobs js c)) = false.
Proof.
  revert c. induction js as [|j js IH]; intros c Hidle Hnone; cbn [settle_jobs].
  - auto.
  - cbn [existsb] in Hnone. apply orb_false_elim in Hnone as [Hj Hjs].
    destruct (job_resume_at_rest j c Hidle Hj) as [H1 H2].
    destruct (job_resume j c) as [j1 c1]. cbn [fst snd] in H1, H2.
    assert (Hidle1 : is_exposing c1 = false).
    { unfold exposure_outcome in H1. injection H1 as Hf _ _ _ _. congruence. }
    destruct (IH c1 Hidle1 Hjs) as [H3 H4].
    destruct (settle_jobs js c1) as [rest c2]. cbn [fst snd] in *.
    split; [congruence|]. cbn [existsb]. rewrite H2, H4. reflexivity.
Qed.

Lemma settle_at_rest (c : Camera) :
  at_rest c -> at_rest (settle c) /\ exposure_outcome (settle c) = exposure_outcome c.
Proof.
  intros [Hidle Hnone]. unfold settle.
  pose proof (settle_updates_preserves
                (fun c' => exposure_outcome c' = exposure_outcome c
                           /\ threads c' = threads c)
                (fun c' Hc' =>
                   conj (eq_trans (update_tick_keeps_exposure_outcome c') (proj1 Hc'))
                        (eq_trans (update_tick_keeps_threads c') (proj2 Hc')))
                (update_threads c) c (conj eq_refl eq_refl)) as H1.
  destruct (settle_updates (update_threads c) c) as [us c1]. cbn [snd] in H1.
  destruct H1 as [Hout1 Hthreads1].
  assert (Hidle1 : is_exposing c1 = false).
  { unfold exposure_outcome in Hout1. injection Hout1 as Hf _ _ _ _. congruence. }
  rewrite <- Hthreads1 in Hnone.
  destruct (settle_jobs_at_rest (threads c1) c1 Hidle1 Hnone) as [H2 H3].
  destruct (settle_jobs (threads c1) c1) as [js c2]. cbn [fst snd] in H2, H3.
  assert (Hout : exposure_outcome (set_threads js (set_update_threads us c2))
                 = exposure_outcome c).
  { change (exposure_outcome (set_threads js (set_update_threads us c2)))
      with (exposure_outcome c2). rewrite H2. exact Hout1. }
  split; [|exact Hout]. split.
  - change (is_exposing c2 = false).
    unfold exposure_outcome in H2. injection H2 as Hf _ _ _ _. congruence.
  - exact H3.
Qed.

Lemma elapse_at_rest (k : nat) (c : Camera) :
  at_rest c -> at_rest (elapse k c) /\ exposure_outcome (elapse k c) = exposure_outcome c.
Proof.
  revert c. induction k as [|k IH]; intros c Hc; cbn [elapse].
  - apply settle_at_rest. exact Hc.
  - destruct (settle_at_rest c Hc) as [H1 H2].
    destruct (IH (tick_clock (settle c)) H1) as [H3 H4].
    split; [exact H3|]. rewrite H4. exact H2.
Qed.

Lemma join_at_rest (alive : Camera -> bool) (k : nat) (c : Camera) :
  at_rest c ->
  at_rest (join alive k c) /\ exposure_outcome (join alive k c) = exposure_outcome c.
Proof.
  revert c. induction k as [|k IH]; intros c Hc; cbn [join];
    (destruct (alive c); [|auto]).
  - destruct (alive (settle c)); apply settle_at_rest; exact Hc.
  - destruct (alive (settle c)); [|apply settle_at_rest; exact Hc].
    destruct (settle_at_rest c Hc) as [H1 H2].
    destruct (IH (tick_clock (settle c)) H1) as [H3 H4].
    split; [exact H3|]. rewrite H4. exact H2.
Qed.

Lemma perform_at_rest (a : action) (c : Camera) :
  starts_no_exposure a = true -> at_rest c ->
  at_rest (perform a c) /\ exposure_outcome (perform a c) = exposure_outcome c.
Proof.
  intros Ha Hc.
  assert (Hkeep : forall A (m : M Camera A),
            keeps exposure_outcome m -> keeps threads m ->
            at_rest (exec m c) /\ exposure_outcome (exec m c) = exposure_outcome c).
  { intros A m Hm Ht. split; [|apply Hm].
    destruct Hc as [Hidle Hnone]. split.
    - pose proof (Hm c) as Ho. unfold exposure_outcome in Ho.
      injection Ho as Hf _ _ _ _. congruence.
    - rewrite (Ht c). exact Hnone. }
  assert (Habort : abort_exposure c = (Returned false, c)).
  { unfold abort_exposure, bind, read. rewrite (proj1 Hc). reflexivity. }
  destruct a; cbn [perform].
  - apply Hkeep; unfold start; keeps_auto. all: outcome_frame.
  - unfold exec. rewrite stop_runs. cbn [snd].
    change (at_rest (after_joins c)
            /\ exposure_outcome
                 (snd (set_property "connected" (VBool false) (after_joins c)))
               = exposure_outcome c).
    change (exposure_outcome
              (snd (set_property "connected" (VBool false) (after_joins c))))
      with (exposure_outcome (after_joins c)).
    unfold after_joins. cbv zeta.
    assert (Hstart : at_rest (set_running false c)
                     /\ exposure_outcome (set_running false c) = exposure_outcome c)
      by (split; [exact Hc | reflexivity]).
    revert Hstart. generalize (set_running false c). intros ca [Ha1 Ha2].
    assert (Hb : at_rest (if update_alive ca then join update_alive 16 ca else ca)
                 /\ exposure_outcome
                      (if update_alive ca then join update_alive 16 ca else ca)
                    = exposure_outcome c).
    { destruct (update_alive ca); [|auto].
      destruct (join_at_rest update_alive 16 ca Ha1) as [H1 H2].
      split; [exact H1 | congruence]. }
    revert Hb. generalize (if update_alive ca then join update_alive 16 ca else ca).
    intros cb [Hb1 Hb2]. destruct (exposure_alive cb); [|auto].
    destruct (join_at_rest exposure_alive 16 cb Hb1) as [H1 H2].
    split; [exact H1 | congruence].
  - discriminate.
  - unfold exec. rewrite Habort. auto.
  - apply Hkeep; unfold set_cooler, timestamp; keeps_auto. all: outcome_frame.
  - cbn in Ha. unfold dispatch, camera_handler.
    destruct (String.eqb name "START_EXPOSURE"); [discriminate|].
    repeat (destruct (String.eqb name _)); [ | | | unfold exec; cbn; auto ].
    + unfold exec, handle_abort_exposure, bind. rewrite Habort. auto.
    + apply Hkeep; unfold handle_set_cooler, set_cooler, timestamp; keeps_auto.
      all: outcome_frame.
    + apply Hkeep; unfold handle_get_image, timestamp; keeps_auto.
  - apply elapse_at_rest. exact Hc.
Qed.

(** X22. A camera with no exposure in progress and no thread in its readout
    (as [abort_exposure] leaves it when it comes before the readout) stays
    so: whatever the controller does short of starting a new exposure, and
    however long it waits, [is_exposing] stays false, no READING_OUT and no
    EXPOSURE_COMPLETE event is emitted, and [image_ready] and the stored
    image do not change. An aborted exposure never completes on its own. *)
Theorem camera_at_rest_stays_at_rest (c : Camera) (l : list action) :
  is_exposing c = false ->
  existsb reading_out (threads c) = false ->
  forallb starts_no_exposure l = true ->
  exposure_outcome (run l c) = exposure_outcome c
  /\ is_exposing (run l c) = false
  /\ existsb reading_out (threads (run l c)) = false.
Proof.
  intros Hidle Hnone. revert c Hidle Hnone.
  induction l as [|a l IH]; intros c Hidle Hnone Hl; cbn [run fold_left].
  - auto.
  - cbn [forallb] in Hl. apply andb_prop in Hl as [Ha Hl].
    destruct (perform_at_rest a c Ha (conj Hidle Hnone)) as [[H1 H2] H3].
    destruct (IH (perform a c) H1 H2 Hl) as (H4 & H5 & H6).
    split; [|split; assumption]. unfold run in H4. rewrite H4. exact H3.
Qed.

(** *** The cooling loop *)

(** X11. A pass of the cooling loop, to its end or to an exception, touches
    only the sensor temperature, the drive power and the two properties that
    publish them: it emits no event, writes no other property, and leaves
    the target, the enabled flag, the exposure state, the image, the threads
    and the clock as they were. *)
Theorem update_loop_touches_only_the_thermal_state (name : string) (c : Camera) :
  name <> "sensor_temperature" -> name <> "cooler_power" ->
  beyond_cooling_loop name (exec update_tick c) = beyond_cooling_loop name c.
Proof.
  intros H1 H2. revert c. change (keeps (beyond_cooling_loop name) update_tick).
  unfold update_tick, set_sensor. keeps_auto.
  all: match goal with
       | Hp : props ?b = _, He : events ?b = _, Hd : device_id ?b = _ |- _ =>
           unfold beyond_cooling_loop; cbn; rewrite Hp, He, Hd;
           rewrite lookup_insert_ne by congruence; reflexivity
       end.
Qed.

Lemma update_tick_publishes :
  ensures (fun c => props (cam_base c) !! "cooler_power" = Some (VInt (cooler_power c))
                    /\ exists n, as_num (sensor_temp c) = Some n
                         /\ props (cam_base c) !! "sensor_temperature"
                            = Some (of_num (round2 n)))
    update_tick.
Proof.
  unfold update_tick. apply ensures_bind_r; intros enabled.
  apply ensures_bind_r; intros _.
  intros s. unfold returns, exec, bind, read, lift, set_property, modify.
  destruct (as_num (sensor_temp s)) as [n|] eqn:Hn; simpl; [|discriminate].
  intros _. split; [apply lookup_insert_eq|].
  exists n. split; [exact Hn|].
  rewrite lookup_insert_ne by discriminate. apply lookup_insert_eq.
Qed.

Lemma update_tick_disabled (c : Camera) :
  truthy (cooler_enabled c) = false ->
  returns update_tick c = true -> cooler_power (exec update_tick c) = 0.
Proof.
  intros Hoff.
  assert (H : ensures (fun c' => cooler_power c' = 0)
                ((modify (set_cooler_power 0) ;;;
                  sensor <- read sensor_temp ;;
                  gap <- lift (sub sensor (VFloat 20.0)) ;;
                  if num_ltb (NFloat 0.1) (num_abs gap) then
                    back <- lift (sub (VFloat 20.0) sensor) ;;
                    delta <- lift (num_mul back (NFloat 0.05)) ;;
                    sensor' <- lift (add_num sensor delta) ;;
                    set_sensor sensor'
                  else ret tt) ;;;
                 sensor <- read sensor_temp ;;
                 shown <- lift (match as_num sensor with
                                | Some n => Returned (of_num (round2 n))
                                | None => Raised TypeError
                                end) ;;
                 set_property "sensor_temperature" shown ;;;
                 power <- read cooler_power ;;
                 set_property "cooler_power" (VInt power))).
  { unfold set_sensor. apply ensures_bind_l.
    - apply ensures_bind_l; [apply ensures_modify; reflexivity|].
      intros _. repeat preserves_step; power_frame.
    - intros _. repeat preserves_step; power_frame. }
  specialize (H c).
  unfold update_tick, returns, exec in *. rewrite read_bind, Hoff.
  exact H.
Qed.

(** X12. A pass of the cooling loop that runs to its end leaves the
    cooler_power property equal to the drive power and the
    sensor_temperature property equal to the sensor temperature rounded to
    two decimals; with the cooler disabled that power is 0. *)
Theorem update_loop_publishes_power_and_temperature (c : Camera) :
  returns update_tick c = true ->
  let c' := exec update_tick c in
  props (cam_base c') !! "cooler_power" = Some (VInt (cooler_power c'))
  /\ (exists n, as_num (sensor_temp c') = Some n
        /\ props (cam_base c') !! "sensor_temperature" = Some (of_num (round2 n)))
  /\ (truthy (cooler_enabled c) = false -> cooler_power c' = 0).
Proof.
  intros Hret c'.
  destruct (update_tick_publishes c Hret) as [H1 H2].
  split; [exact H1|]. split; [exact H2|].
  intros Hoff. apply update_tick_disabled; assumption.
Qed.

(** *** [stop] and the update thread *)

Lemma update_tick_keeps_update_thread : keeps update_thread update_tick.
Proof. unfold update_tick, set_sensor. keeps_auto. Qed.

Lemma job_step_keeps_update_thread (j : job) : keeps update_thread (job_step j).
Proof.
  unfold job_step, exposure_begin, exposure_poll, exposure_finish, exposure_failed,
    generate_image, timestamp.
  keeps_auto.
Qed.

(** A resumed update thread sleeps a second at most, and ends when it finds
    [running] false. *)
Lemma update_resume_spec (u : uthread) (c : Camera) :
  now (snd (update_resume u c)) = now c
  /\ running (snd (update_resume u c)) = running c
  /\ (uthread_alive u = true -> wakes_within (now c) (fst (update_resume u c)))
  /\ (uthread_alive u = true -> running c = false ->
      uthread_alive (fst (update_resume u c)) = false).
Proof.
  unfold update_resume, uthread_alive at 1 2. destruct (u_pc u) eqn:Hpc.
  - unfold update_loop_test, wakes_within. cbn [fst snd].
    repeat split; intros; try discriminate.
    + destruct (running c); cbn; [lia | lia].
    + match goal with H : running c = false |- _ => rewrite H end. reflexivity.
  - pose proof (update_tick_keeps_now c) as Hn.
    pose proof (update_tick_keeps_running c) as Hr.
    unfold exec in Hn, Hr.
    destruct (update_tick c) as [[[]|e] c']; cbn [fst snd] in *.
    + unfold update_loop_test, wakes_within. repeat split; try assumption.
      * intros _ _. rewrite Hr, Hn. destruct (running c); cbn; lia.
      * intros _ Hoff. rewrite Hr, Hoff. reflexivity.
    + unfold wakes_within. repeat split; try assumption; try reflexivity.
      intros _ Ha. discriminate.
  - repeat split; intros; discriminate.
Qed.

Lemma settle_updates_spec (us : list uthread) (c : Camera) :
  now (snd (settle_updates us c)) = now c
  /\ running (snd (settle_updates us c)) = running c
  /\ length (fst (settle_updates us c)) = length us
  /\ (Forall (wakes_within (now c)) us ->
      Forall (wakes_within (now c)) (fst (settle_updates us c)))
  /\ forall i u, us !! i = Some u ->
       exists u', fst (settle_updates us c) !! i = Some u'
         /\ (update_due (now c) u = false -> u' = u)
         /\ (running c = false -> update_due (now c) u = true ->
             uthread_alive u' = false).
Proof.
  revert c. induction us as [|u us IH]; intros c.
  - cbn. repeat split; auto. intros i u Hi. destruct i; discriminate.
  - cbn [settle_updates].
    assert (Hstep : exists u1 c1,
              (if update_due (now c) u then update_resume u c else (u, c)) = (u1, c1)
              /\ now c1 = now c /\ running c1 = running c
              /\ (wakes_within (now c) u -> wakes_within (now c) u1)
              /\ (update_due (now c) u = false -> u1 = u)
              /\ (running c = false -> update_due (now c) u = true ->
                  uthread_alive u1 = false)).
    { destruct (update_due (now c) u) eqn:Hdue.
      - destruct (update_resume_spec u c) as (Hn & Hr & Hw & Hd).
        assert (Ha : uthread_alive u = true).
        { unfold update_due in Hdue. apply andb_prop in Hdue. tauto. }
        destruct (update_resume u c) as [u1 c1]. cbn [fst snd] in *.
        exists u1, c1. repeat split; auto. discriminate.
      - exists u, c. repeat split; auto. discriminate. }
    destruct Hstep as (u1 & c1 & -> & Hn & Hr & Hw & Hsame & Hdead).
    specialize (IH c1). destruct (settle_updates us c1) as [rest c2].
    cbn [fst snd] in *. rewrite Hn, Hr in IH.
    destruct IH as (IHn & IHr & IHl & IHf & IHi).
    split; [exact IHn|]. split; [exact IHr|].
    split; [cbn; f_equal; exact IHl|]. split.
    + intros HF. inversion HF; subst. constructor; auto.
    + intros [|i] v Hi; cbn in Hi.
      * injection Hi as <-. exists u1. split; [reflexivity|]. auto.
      * apply IHi. exact Hi.
Qed.

Lemma settle_update_threads (c : Camera) :
  update_threads (settle c) = fst (settle_updates (update_threads c) c).
Proof.
  unfold settle. destruct (settle_updates (update_threads c) c) as [us c1].
  destruct (settle_jobs (threads c1) c1) as [js c2]. reflexivity.
Qed.

Lemma settle_keeps_running (c : Camera) : running (settle c) = running c.
Proof.
  apply (settle_preserves (fun c' => running c' = running c)); try (intros; assumption).
  - apply (keeps_preserves running (fun r => r = running c)), update_tick_keeps_running.
  - intros j.
    apply (keeps_preserves running (fun r => r = running c)), job_step_keeps_running.
  - reflexivity.
Qed.

Lemma settle_keeps_update_thread (c : Camera) : update_thread (settle c) = update_thread c.
Proof.
  apply (settle_preserves (fun c' => update_thread c' = update_thread c));
    try (intros; assumption).
  - apply (keeps_preserves update_thread (fun r => r = update_thread c)),
      update_tick_keeps_update_thread.
  - intros j.
    apply (keeps_preserves update_thread (fun r => r = update_thread c)),
      job_step_keeps_update_thread.
  - reflexivity.
Qed.

Lemma settle_due (c : Camera) : update_threads_due c -> update_threads_due (settle c).
Proof.
  unfold update_threads_due. rewrite settle_now, settle_update_threads.
  apply settle_updates_spec.
Qed.

Lemma tick_clock_due (c : Camera) : update_threads_due c -> update_threads_due (tick_clock c).
Proof.
  unfold update_threads_due. cbn. intros Hc.
  eapply Forall_impl; [exact Hc|].
  intros u Hu Ha. specialize (Hu Ha). lia.
Qed.

Lemma elapse_due (k : nat) (c : Camera) :
  update_threads_due c -> update_threads_due (elapse k c).
Proof.
  revert c. induction k as [|k IH]; intros c Hc; cbn [elapse].
  - apply settle_due. exact Hc.
  - apply IH, tick_clock_due, settle_due. exact Hc.
Qed.

Lemma join_due (alive : Camera -> bool) (k : nat) (c : Camera) :
  update_threads_due c -> update_threads_due (join alive k c).
Proof.
  revert c. induction k as [|k IH]; intros c Hc; cbn [join];
    (destruct (alive c); [|exact Hc]).
  - destruct (alive (settle c)); apply settle_due; exact Hc.
  - destruct (alive (settle c)); [|apply settle_due; exact Hc].
    apply IH, tick_clock_due, settle_due. exact Hc.
Qed.

Lemma after_joins_due (c : Camera) :
  update_threads_due c -> update_threads_due (after_joins c).
Proof.
  intros Hc. unfold after_joins. cbv zeta.
  assert (Ha : update_threads_due (set_running false c)) by exact Hc.
  revert Ha. generalize (set_running false c). intros ca Ha.
  assert (Hb : update_threads_due
                 (if update_alive ca then join update_alive 16 ca else ca)).
  { destruct (update_alive ca); [apply join_due|]; exact Ha. }
  revert Hb. generalize (if update_alive ca then join update_alive 16 ca else ca).
  intros cb Hb. destruct (exposure_alive cb); [apply join_due|]; exact Hb.
Qed.

(** What the calls of the controller, the threads apart, leave alone. *)
Lemma perform_due (a : action) (c : Camera) :
  update_threads_due c -> update_threads_due (perform a c).
Proof.
  set (view := fun c : Camera => (now c, update_threads c)).
  set (Q := fun v : N * list uthread => Forall (wakes_within (fst v)) (snd v)).
  change (Q (view c) -> Q (view (perform a c))).
  assert (Hkeep : forall A (m : M Camera A),
            keeps view m -> Q (view c) -> Q (view (exec m c))).
  { intros A m Hm Hc. rewrite (Hm c). exact Hc. }
  destruct a; cbn [perform].
  - intros Hc. destruct base_ok; [|exact Hc].
    unfold Q, view, start, exec, bind, read, modify, set_property, ret. cbn.
    apply Forall_app. split; [exact Hc|].
    constructor; [|constructor]. intros _. cbn. lia.
  - intros Hc. unfold exec. rewrite stop_runs. cbn [snd].
    apply (after_joins_due c Hc).
  - apply Hkeep. unfold start_exposure, spawn_exposure. keeps_auto.
  - apply Hkeep. unfold abort_exposure, timestamp. keeps_auto.
  - apply Hkeep. unfold set_cooler, timestamp. keeps_auto.
  - apply Hkeep. unfold dispatch, camera_handler.
    repeat (destruct (String.eqb name _)); [ | | | | apply keeps_ret ].
    + unfold handle_start_exposure, start_exposure, spawn_exposure, timestamp.
      keeps_auto.
    + unfold handle_abort_exposure, abort_exposure, timestamp. keeps_auto.
    + unfold handle_set_cooler, set_cooler, timestamp. keeps_auto.
    + unfold handle_get_image, timestamp. keeps_auto.
  - apply elapse_due.
Qed.

Lemma update_alive_lookup (c : Camera) (i : nat) (u : uthread) :
  update_thread c = Some i -> update_threads c !! i = Some u ->
  update_alive c = uthread_alive u.
Proof. intros Hi Hu. unfold update_alive. rewrite Hi, Hu. reflexivity. Qed.

(** With [running] false, the thread that [stop] waits for has ended by the
    time its sleep is over. *)
Lemma join_ends_update_thread (k : nat) (c : Camera) (i : nat) (u : uthread) :
  running c = false ->
  update_thread c = Some i -> update_threads c !! i = Some u ->
  (u_wake u <= now c + N.of_nat k)%N ->
  update_alive (join update_alive k c) = false.
Proof.
  revert c u. induction k as [|k IH]; intros c u Hoff Hi Hu Hwake; cbn [join];
    (destruct (update_alive c) eqn:Halive; [|exact Halive]);
    rewrite (update_alive_lookup c i u Hi Hu) in Halive;
    destruct (settle_updates_spec (update_threads c) c) as (_ & _ & _ & _ & Hlook);
    destruct (Hlook i u Hu) as (u' & Hu' & Hsame & Hdead);
    rewrite <- settle_update_threads in Hu';
    pose proof (settle_keeps_update_thread c) as Hi'; rewrite Hi in Hi';
    pose proof (update_alive_lookup (settle c) i u' Hi' Hu') as Hal.
  - assert (Hdue : update_due (now c) u = true).
    { unfold update_due. rewrite Halive. apply N.leb_le. lia. }
    rewrite Hal, (Hdead Hoff Hdue). rewrite Hal. apply Hdead; assumption.
  - destruct (update_due (now c) u) eqn:Hdue.
    + rewrite Hal, (Hdead Hoff eq_refl). rewrite Hal. apply Hdead; auto.
    + rewrite Hal, (Hsame eq_refl), Halive.
      apply (IH (tick_clock (settle c)) u).
      * cbn. rewrite settle_keeps_running. exact Hoff.
      * exact Hi'.
      * cbn. rewrite Hu', (Hsame eq_refl). reflexivity.
      * cbn. rewrite settle_now.
        unfold update_due in Hdue. rewrite Halive in Hdue. cbn in Hdue.
        apply N.leb_gt in Hdue. lia.
Qed.

(** A thread that has ended stays so. *)
Lemma settle_keeps_update_dead (c : Camera) :
  update_alive c = false -> update_alive (settle c) = false.
Proof.
  unfold update_alive. rewrite settle_keeps_update_thread, settle_update_threads.
  destruct (update_thread c) as [i|]; [|reflexivity].
  destruct (settle_updates_spec (update_threads c) c) as (_ & _ & Hlen & _ & Hlook).
  destruct (update_threads c !! i) as [u|] eqn:Hu.
  - intros Hdead. destruct (Hlook i u Hu) as (u' & -> & Hsame & _).
    rewrite Hsame; [exact Hdead|]. unfold update_due. rewrite Hdead. reflexivity.
  - intros _. apply lookup_ge_None in Hu. rewrite <- Hlen in Hu.
    apply lookup_ge_None in Hu. rewrite Hu. reflexivity.
Qed.

Lemma join_keeps_update_dead (alive : Camera -> bool) (k : nat) (c : Camera) :
  update_alive c = false -> update_alive (join alive k c) = false.
Proof.
  revert c. induction k as [|k IH]; intros c Hc; cbn [join];
    (destruct (alive c); [|exact Hc]).
  - destruct (alive (settle c)); apply settle_keeps_update_dead; exact Hc.
  - destruct (alive (settle c)); [|apply settle_keeps_update_dead; exact Hc].
    apply IH. apply (settle_keeps_update_dead c Hc).
Qed.

Lemma stop_ends_update_thread (c : Camera) :
  update_threads_due c -> update_alive (exec stop c) = false.
Proof.
  intros Hdue. unfold exec. rewrite stop_runs. cbn [snd].
  change (update_alive (after_joins c) = false).
  unfold after_joins. cbv zeta.
  assert (Hoff : running (set_running false c) = false) by reflexivity.
  assert (Ha : update_threads_due (set_running false c)) by exact Hdue.
  revert Hoff Ha. generalize (set_running false c). intros ca Hoff Ha.
  assert (Hb : update_alive (if update_alive ca then join update_alive 16 ca else ca)
               = false).
  { destruct (update_alive ca) eqn:Halive; [|exact Halive].
    unfold update_alive in Halive.
    destruct (update_thread ca) as [i|] eqn:Hi; [|discriminate].
    destruct (update_threads ca !! i) as [u|] eqn:Hu; [|discriminate].
    apply (join_ends_update_thread 16 ca i u Hoff Hi Hu).
    unfold update_threads_due in Ha. rewrite Forall_lookup in Ha.
    specialize (Ha i u Hu Halive). lia. }
  revert Hb. generalize (if update_alive ca then join update_alive 16 ca else ca).
  intros cb Hb. destruct (exposure_alive cb); [apply join_keeps_update_dead|]; exact Hb.
Qed.

Lemma init_due (id : string) : update_threads_due (init id).
Proof. vm_compute. constructor. Qed.

(** X13. In every state a controller can bring a camera to, [stop] ends the
    update loop: when it returns, the update thread it waited for is no
    longer alive. (The loop sleeps one second at a time and [stop] waits
    two.) With [running] false and the connected property false, the camera
    is then at rest as far as the cooling loop goes. *)
Theorem stop_always_ends_the_update_loop (id : string) (l : list action) :
  let c := run l (init id) in
  fst (stop c) = Returned tt
  /\ update_alive (exec stop c) = false
  /\ running (exec stop c) = false.
Proof.
  intros c.
  assert (Hdue : update_threads_due c).
  { apply run_preserves; [exact perform_due | apply init_due]. }
  destruct (stop_stops c) as (Hret & Hoff & _).
  split; [exact Hret|]. split; [|exact Hoff].
  apply stop_ends_update_thread. exact Hdue.
Qed.

(** ** Further properties of the guider *)

Lemma dither_cycle_next (g : Guider.PiGuider) (v : value) (k : nat) :
  let g' := Guider.set_dither_calls (Guider.dither_calls g ++ [(v, true)])%list
              (Guider.set_dither_index (dither_cycle g 1) g) in
  dither_cycle g' k = dither_cycle g (S k) /\ dither_amount g' k = dither_amount g (S k).
Proof.
  intros g'.
  assert (H : dither_cycle g' k = dither_cycle g (S k)).
  { subst g'. unfold dither_cycle.
    cbn [Guider.dither_index Guider.dither_sequence Guider.set_dither_calls
           Guider.set_dither_index].
    rewrite Zplus_mod_idemp_l. f_equal. lia. }
  split; [exact H|]. unfold dither_amount. rewrite H. reflexivity.
Qed.

Lemma auto_dithers_cycle (n : nat) (g : Guider.PiGuider) :
  0 <= Guider.dither_index g < Z.of_nat (length (Guider.dither_sequence g)) ->
  fst (Guider.auto_dithers n g) = map (dither_cycle g) (seq 0 n)
  /\ Guider.dither_index (snd (Guider.auto_dithers n g)) = dither_cycle g n
  /\ Guider.dither_sequence (snd (Guider.auto_dithers n g)) = Guider.dither_sequence g
  /\ Guider.dither_calls (snd (Guider.auto_dithers n g))
     = (Guider.dither_calls g
        ++ map (fun k => (dither_amount g k, true)) (seq 0 n))%list.
Proof.
  revert g. induction n as [|n IH]; intros g Hrange.
  - cbn. unfold dither_cycle. rewrite Z.add_0_r, Z.mod_small by exact Hrange.
    rewrite app_nil_r. auto.
  - assert (H0 : dither_cycle g 0 = Guider.dither_index g).
    { unfold dither_cycle. rewrite Z.add_0_r. apply Z.mod_small. exact Hrange. }
    assert (Hv : Guider.dither_sequence g !! Z.to_nat (Guider.dither_index g)
                 = Some (dither_amount g 0)).
    { unfold dither_amount. rewrite H0, nth_lookup.
      destruct (Guider.dither_sequence g !! Z.to_nat (Guider.dither_index g))
        as [v|] eqn:Hlook; [reflexivity|].
      apply lookup_ge_None in Hlook. lia. }
    cbn [Guider.auto_dithers].
    rewrite (auto_dither_advances g _ Hrange Hv).
    change ((Guider.dither_index g + 1)
              mod Z.of_nat (length (Guider.dither_sequence g)))
      with (dither_cycle g 1).
    set (g' := Guider.set_dither_calls _ _).
    assert (Hrange' : 0 <= Guider.dither_index g'
                      < Z.of_nat (length (Guider.dither_sequence g'))).
    { cbn. unfold dither_cycle. apply Z.mod_pos_bound. lia. }
    destruct (IH g' Hrange') as (IH1 & IH2 & IH3 & IH4).
    destruct (Guider.auto_dithers n g') as [visited g'']. cbn [fst snd] in *.
    assert (Hshift : forall (A : Type) (f : nat -> A) (f' : nat -> A),
              (forall k, f' k = f (S k)) ->
              map f' (seq 0 n) = map f (seq 1 n)).
    { intros A f f' Hf. rewrite <- seq_shift, map_map.
      apply map_ext. exact Hf. }
    split; [|split; [|split]].
    + cbn [seq map]. rewrite H0, IH1. f_equal.
      apply Hshift. intros k. apply (dither_cycle_next g (dither_amount g 0) k).
    + rewrite IH2. apply (dither_cycle_next g (dither_amount g 0) n).
    + rewrite IH3. reflexivity.
    + rewrite IH4. cbn [seq map]. subst g'. cbn [Guider.dither_calls Guider.set_dither_calls].
      rewrite <- app_assoc. cbn [app]. do 2 f_equal.
      apply Hshift. intros k. f_equal.
      apply (dither_cycle_next g (dither_amount g 0) k).
Qed.

(** X14. With the cursor inside the dither sequence, whatever its length,
    any number [n] of calls of [auto_dither] all return; the k-th call finds
    the cursor at (index + k) modulo the length and hands [dither] the
    element there, with the settle flag set; the sequence itself is never
    changed, and after as many calls as the sequence has elements the cursor
    is back where it started. *)
Theorem dither_cursor_cycles_through_any_sequence (g : Guider.PiGuider) (n : nat) :
  0 <= Guider.dither_index g < Z.of_nat (length (Guider.dither_sequence g)) ->
  length (fst (Guider.auto_dithers n g)) = n
  /\ fst (Guider.auto_dithers n g) = map (dither_cycle g) (seq 0 n)
  /\ Guider.dither_index (snd (Guider.auto_dithers n g)) = dither_cycle g n
  /\ Guider.dither_sequence (snd (Guider.auto_dithers n g)) = Guider.dither_sequence g
  /\ Guider.dither_calls (snd (Guider.auto_dithers n g))
     = (Guider.dither_calls g
        ++ map (fun k => (dither_amount g k, true)) (seq 0 n))%list
  /\ Guider.dither_index
       (snd (Guider.auto_dithers (length (Guider.dither_sequence g)) g))
     = Guider.dither_index g.
Proof.
  intros Hrange.
  destruct (auto_dithers_cycle n g Hrange) as (H1 & H2 & H3 & H4).
  split; [rewrite H1, length_map, length_seq; reflexivity|].
  repeat (split; [assumption|]).
  destruct (auto_dithers_cycle (length (Guider.dither_sequence g)) g Hrange)
    as (_ & H5 & _).
  rewrite H5. unfold dither_cycle.
  replace (Guider.dither_index g + Z.of_nat (length (Guider.dither_sequence g)))
    with (Guider.dither_index g + 1 * Z.of_nat (length (Guider.dither_sequence g)))
    by lia.
  rewrite Z_mod_plus_full. apply Z.mod_small. exact Hrange.
Qed.

(** X15. [auto_dither] accepts a cursor from minus the length of the
    sequence up to the length (excluded), a negative one counting from the
    end: it then returns, hands [dither] the element pointed at and leaves
    the cursor at (cursor + 1) modulo the length, inside the sequence. With
    any other cursor, and so always on an empty sequence, it raises
    [IndexError] and changes nothing. *)
Theorem auto_dither_needs_a_cursor_in_the_sequence (g : Guider.PiGuider) :
  let len := Z.of_nat (length (Guider.dither_sequence g)) in
  let i := Guider.dither_index g in
  (- len <= i < len ->
   fst (Guider.auto_dither g) = Returned tt
   /\ Guider.dither_index (exec Guider.auto_dither g) = (i + 1) mod len
   /\ 0 <= Guider.dither_index (exec Guider.auto_dither g) < len
   /\ exists v,
        Guider.dither_sequence g !! Z.to_nat (if i <? 0 then i + len else i) = Some v
        /\ Guider.dither_calls (exec Guider.auto_dither g)
           = (Guider.dither_calls g ++ [(v, true)])%list)
  /\ (~ (- len <= i < len) -> Guider.auto_dither g = (Raised IndexError, g)).
Proof.
  intros len i. split.
  - intros Hrange.
    assert (Hk : 0 <= (if i <? 0 then i + len else i) < len).
    { destruct (Z.ltb_spec i 0); lia. }
    destruct (Guider.dither_sequence g !! Z.to_nat (if i <? 0 then i + len else i))
      as [v|] eqn:Hv.
    2: { apply lookup_ge_None in Hv. subst len. lia. }
    unfold Guider.auto_dither, Guider.dither, exec, bind, read, lift, modify,
      Guider.list_index, Guider.int_mod.
    fold i len. cbv zeta.
    replace (0 <=? (if i <? 0 then i + len else i)) with true
      by (symmetry; apply Z.leb_le; lia).
    replace ((if i <? 0 then i + len else i) <? len) with true
      by (symmetry; apply Z.ltb_lt; lia).
    cbn [andb]. rewrite Hv.
    replace (len =? 0) with false by (symmetry; apply Z.eqb_neq; lia).
    cbn. split; [reflexivity|]. split; [reflexivity|].
    split; [apply Z.mod_pos_bound; lia|].
    exists v. split; reflexivity.
  - intros Hout.
    unfold Guider.auto_dither, bind, read, lift, Guider.list_index.
    fold i len. cbv zeta.
    replace ((0 <=? (if i <? 0 then i + len else i))
             && ((if i <? 0 then i + len else i) <? len)) with false.
    + reflexivity.
    + symmetry. apply andb_false_iff.
      destruct (Z.ltb_spec i 0);
        destruct (Z.leb_spec 0 (i + len)); destruct (Z.ltb_spec (i + len) len);
        destruct (Z.leb_spec 0 i); destruct (Z.ltb_spec i len);
        auto; lia.
Qed.

(** ** Further properties of the telescope *)

Lemma custom_command_runs (cmd response : gmap string value) (t : Telescope) :
  exists o t', telescope_handle_custom_command cmd response t = (o, t')
               /\ custom_command_outcome cmd t o t'.
Proof.
  unfold telescope_handle_custom_command.
  rewrite lift_bind. cbn [contains].
  destruct (cmd !! "parameters") as [p|] eqn:Hp.
  2: { rewrite bool_decide_eq_false_2 by (intros [? ?]; discriminate).
       eexists. eexists. split; [reflexivity|].
       left. split; [apply status_respond | reflexivity]. }
  rewrite bool_decide_eq_true_2 by eauto.
  cbn [negb]. unfold bind at 1. rewrite lift_bind. cbn [getitem]. rewrite Hp.
  unfold ret at 1. cbv beta iota.
  destruct (truthy p) eqn:Htruthy; cbn [negb].
  2: { eexists. eexists. split; [reflexivity|].
       left. split; [apply status_respond | reflexivity]. }
  rewrite !lift_bind.
  destruct p as [| | | | | |lst|params]; cbn [dict_get];
    try (eexists; eexists; split; [reflexivity|]; reflexivity).
  destruct (is_text (match params !! "operation" with
                     | Some v => v
                     | None => VStr ""
                     end) "ROTATE") eqn:Hrot.
  2: { eexists. eexists. split; [reflexivity|].
       left. split; [apply status_respond | reflexivity]. }
  assert (Hop : params !! "operation" = Some (VStr "ROTATE")).
  { destruct (params !! "operation") as [[| | | | |op| |]|]; try discriminate.
    - cbn in Hrot. apply String.eqb_eq in Hrot. subst. reflexivity. }
  rewrite !lift_bind.
  unfold telescope_timestamp, bind, read, send_event, modify, ret.
  eexists. eexists. split; [reflexivity|].
  right. split; [apply status_respond|].
  exists params. split; [exact Hp|]. split; [exact Hop|]. reflexivity.
Qed.

(** X16. The CUSTOM_COMMAND handler changes the telescope only when it
    answers SUCCESS: an ERROR answer or an exception leaves the state as it
    was, and a SUCCESS answer means a ROTATE request and has appended
    exactly one CUSTOM_OPERATION event (operation ROTATE, status COMPLETED)
    and nothing else. The angle and the axis of the event are those of the
    command, 0 and "RA" when it gives none. *)
Theorem custom_command_changes_nothing_unless_it_rotates
    (cmd response : gmap string value) (t : Telescope) :
  custom_command_outcome cmd t
    (fst (telescope_handle_custom_command cmd response t))
    (exec (telescope_handle_custom_command cmd response) t).
Proof.
  destruct (custom_command_runs cmd response t) as (o & t' & Hrun & Hout).
  unfold exec. rewrite Hrun. exact Hout.
Qed.

Lemma calculate_field_runs
    (r1 r2 : float) (cmd response : gmap string value) (t : Telescope) :
  exists o t', telescope_handle_calculate_field r1 r2 cmd response t = (o, t')
               /\ calculate_field_outcome cmd response t o t'.
Proof.
  unfold telescope_handle_calculate_field.
  rewrite lift_bind. cbn [getitem].
  destruct (cmd !! "parameters") as [p|] eqn:Hp;
    [|eexists; eexists; split; reflexivity].
  rewrite lift_bind.
  destruct p as [| | | | | |lst|params]; cbn [dict_get];
    try (eexists; eexists; split; reflexivity).
  rewrite lift_bind. cbn [dict_get].
  unfold bind at 1, get_property at 1. cbn [base telescope_device].
  destruct (props (tel_base t) !! "ra") as [ra|] eqn:Hra;
    [|eexists; eexists; split; reflexivity].
  unfold bind at 1, get_property at 1. cbn [base telescope_device].
  destruct (props (tel_base t) !! "dec") as [dec|] eqn:Hdec;
    [|eexists; eexists; split; reflexivity].
  rewrite lift_bind. destruct (mul _ _) as [area|e];
    [|eexists; eexists; split; reflexivity].
  rewrite lift_bind. destruct (mul _ _) as [dense|e];
    [|eexists; eexists; split; reflexivity].
  rewrite lift_bind. destruct (mul _ _) as [scaled|e];
    [|eexists; eexists; split; reflexivity].
  rewrite lift_bind.
  destruct (match as_num scaled with
            | Some n => int_of n
            | None => Raised TypeError
            end) as [count|e]; [|eexists; eexists; split; reflexivity].
  unfold telescope_timestamp, bind, read, send_event, modify, ret.
  unfold dict at 1 6. cbn [fold_left fst snd].
  eexists. eexists. split; [reflexivity|].
  exists params. eexists. split; [exact Hp|]. split; [reflexivity|].
  split; [reflexivity|]. split.
  - rewrite !lookup_insert_ne by discriminate. apply lookup_insert_eq.
  - exists ra, dec. split; [exact Hra|]. split; [exact Hdec|].
    rewrite !lookup_insert_ne by discriminate. apply lookup_insert_eq.
Qed.

(** X17. The CALCULATE_FIELD handler either raises, and then leaves the
    telescope as it was, or answers SUCCESS and has appended exactly one
    FIELD_CALCULATED event whose payload is the details of the response;
    these echo the field size asked for (1.0 by 0.75 when the command gives
    none) and the ra and dec properties. Nothing else is changed. *)
Theorem calculate_field_reports_what_it_answers
    (r1 r2 : float) (cmd response : gmap string value) (t : Telescope) :
  calculate_field_outcome cmd response t
    (fst (telescope_handle_calculate_field r1 r2 cmd response t))
    (exec (telescope_handle_calculate_field r1 r2 cmd response) t).
Proof.
  destruct (calculate_field_runs r1 r2 cmd response t) as (o & t' & Hrun & Hout).
  unfold exec. rewrite Hrun. exact Hout.
Qed.

(** *** The background task and [stop] *)

Lemma ct_set_now_same (t : CustomTelescope) (n : N) : ct_now t = n -> ct_set_now n t = t.
Proof. intros <-. destruct t as [[b r n] c th ks]. reflexivity. Qed.

Lemma ct_set_tasks_same (t : CustomTelescope) (ks : list task) :
  tasks t = ks -> ct_set_tasks ks t = t.
Proof. intros <-. destruct t. reflexivity. Qed.

(** A task still asleep is left alone. *)
Lemma telescope_settle_asleep (t : CustomTelescope) (k : task) :
  tasks t = [k] -> (ct_now t < t_wake k)%N -> telescope_settle t = t.
Proof.
  intros Hk Hlate. unfold telescope_settle. rewrite Hk. cbn [telescope_settle_tasks].
  replace (t_wake k <=? ct_now t)%N with false by (symmetry; apply N.leb_gt; exact Hlate).
  rewrite andb_false_r. apply ct_set_tasks_same. exact Hk.
Qed.

(** A sleeping task whose sleep is over runs its pass, and with [running]
    false leaves the loop. *)
Lemma telescope_settle_wakes (t : CustomTelescope) (k : task) :
  tasks t = [k] -> t_pc k = TSleep -> (t_wake k <= ct_now t)%N ->
  ct_running t = false ->
  telescope_settle t = woken k t.
Proof.
  intros Hk Hpc Hdue Hoff. unfold telescope_settle. rewrite Hk.
  cbn [telescope_settle_tasks]. unfold task_alive. rewrite Hpc.
  replace (t_wake k <=? ct_now t)%N with true by (symmetry; apply N.leb_le; exact Hdue).
  cbn [andb]. unfold custom_task_resume. rewrite Hpc.
  unfold woken, exec, custom_task_pass, custom_task_test, bind, read, send_event,
    set_property, modify, ret. cbn.
  unfold ct_running in *. cbn. rewrite Hoff. reflexivity.
Qed.

Lemma woken_facts (k : task) (t : CustomTelescope) :
  tasks (woken k t)
  = [{| t_counter := t_counter k + 1; t_pc := TDone; t_wake := ct_now t |}]
  /\ ct_now (woken k t) = ct_now t
  /\ ct_running (woken k t) = ct_running t
  /\ custom_tracking_thread (woken k t) = custom_tracking_thread t
  /\ events (base (woken k t))
     = (events (base t) ++ [status_update k (ct_now t)])%list.
Proof.
  unfold woken, status_update, exec, custom_task_pass, bind, read, send_event,
    set_property, modify, ret. cbn. repeat split.
Qed.

(** Once its tasks have ended, only the clock of the telescope moves. *)
Lemma telescope_settle_done (t : CustomTelescope) :
  forallb (fun k => negb (task_alive k)) (tasks t) = true -> telescope_settle t = t.
Proof.
  intros Hdone. unfold telescope_settle.
  assert (H : forall ks t', forallb (fun k => negb (task_alive k)) ks = true ->
                telescope_settle_tasks ks t' = (ks, t')).
  { clear. intros ks. induction ks as [|k ks IH]; intros t' Hks; cbn; [reflexivity|].
    cbn in Hks. apply andb_prop in Hks as [Hk Hks].
    apply negb_true_iff in Hk. rewrite Hk. cbn. rewrite (IH t' Hks). reflexivity. }
  rewrite (H _ _ Hdone). apply ct_set_tasks_same. reflexivity.
Qed.

Lemma telescope_elapse_done (n : nat) (t : CustomTelescope) :
  forallb (fun k => negb (task_alive k)) (tasks t) = true ->
  telescope_elapse n t = ct_set_now (ct_now t + N.of_nat n)%N t.
Proof.
  revert t. induction n as [|n IH]; intros t Hdone; cbn [telescope_elapse].
  - rewrite (telescope_settle_done t Hdone). symmetry. apply ct_set_now_same. lia.
  - cbv zeta. rewrite (telescope_settle_done t Hdone).
    rewrite IH by exact Hdone.
    destruct t as [[b r nw] c th ks]. unfold ct_set_now, ct_now, ct_set_scope. cbn.
    do 2 f_equal. lia.
Qed.

(** Waiting over the end of the sleep of the one task, with [running]
    false: the task makes its pass when its sleep ends, and that is all. *)
Lemma telescope_elapse_asleep (n d : nat) (t : CustomTelescope) (k : task) :
  tasks t = [k] -> t_pc k = TSleep -> ct_running t = false ->
  t_wake k = (ct_now t + N.of_nat d)%N -> (d <= n)%nat ->
  telescope_elapse n t
  = ct_set_now (ct_now t + N.of_nat n)%N (woken k (ct_set_now (t_wake k) t)).
Proof.
  revert d t. induction n as [|n IH]; intros d t Hk Hpc Hoff Hwake Hd.
  - assert (d = 0)%nat by lia. subst d.
    assert (Hnow : ct_now t = t_wake k) by lia.
    cbn [telescope_elapse]. rewrite (ct_set_now_same t (t_wake k) Hnow).
    rewrite (telescope_settle_wakes t k Hk Hpc) by (exact Hoff || lia).
    symmetry. apply ct_set_now_same.
    destruct (woken_facts k t) as (_ & Hn & _). rewrite Hn. lia.
  - cbn [telescope_elapse]. cbv zeta. destruct d as [|d].
    + assert (Hnow : ct_now t = t_wake k) by lia.
      rewrite (ct_set_now_same t (t_wake k) Hnow).
      rewrite (telescope_settle_wakes t k Hk Hpc) by (exact Hoff || lia).
      destruct (woken_facts k t) as (Hks & Hn & _).
      rewrite telescope_elapse_done
        by (unfold ct_set_now, ct_set_scope; cbn [tasks]; rewrite Hks; reflexivity).
      generalize (woken k t) Hn. intros w Hw.
      destruct w as [[b r nw] c th ks]. unfold ct_set_now, ct_now, ct_set_scope in *.
      cbn in *. subst nw. do 2 f_equal. lia.
    + rewrite (telescope_settle_asleep t k Hk) by lia.
      rewrite (IH d (ct_set_now (ct_now t + 1)%N t) Hk Hpc Hoff).
      * destruct t as [[b r nw] c th ks]. unfold ct_set_now, ct_now, ct_set_scope.
        cbn. do 2 f_equal. lia.
      * destruct t as [[b r nw] c th ks]. unfold ct_set_now, ct_now, ct_set_scope in *.
        cbn in *. lia.
      * lia.
Qed.

(** [stop]'s wait on a task with more sleep left than the wait lasts. *)
Lemma telescope_join_times_out (j d : nat) (t : CustomTelescope) (k : task) :
  tasks t = [k] -> custom_tracking_thread t = Some 0%nat -> t_pc k = TSleep ->
  t_wake k = (ct_now t + N.of_nat d)%N -> (j < d)%nat ->
  telescope_join j t = ct_set_now (ct_now t + N.of_nat j)%N t.
Proof.
  revert d t. induction j as [|j IH]; intros d t Hk Hth Hpc Hwake Hd;
    cbn [telescope_join];
    assert (Halive : telescope_task_alive t = true)
      by (unfold telescope_task_alive, task_alive; rewrite Hth, Hk; cbn; rewrite Hpc;
          reflexivity);
    rewrite (telescope_settle_asleep t k Hk) by lia; rewrite Halive.
  - symmetry. apply ct_set_now_same. lia.
  - rewrite (IH (d - 1)%nat (ct_set_now (ct_now t + 1)%N t) Hk Hth Hpc).
    + destruct t as [[b r nw] c th ks]. unfold ct_set_now, ct_now, ct_set_scope.
      cbn. do 2 f_equal. lia.
    + destruct t as [[b r nw] c th ks]. unfold ct_set_now, ct_now, ct_set_scope in *.
      cbn in *. lia.
    + lia.
Qed.

(** [stop]'s wait on a task whose sleep ends within the wait. *)
Lemma telescope_join_sees_the_pass (j d : nat) (t : CustomTelescope) (k : task) :
  tasks t = [k] -> custom_tracking_thread t = Some 0%nat -> t_pc k = TSleep ->
  ct_running t = false ->
  t_wake k = (ct_now t + N.of_nat d)%N -> (d <= j)%nat ->
  telescope_join j t = woken k (ct_set_now (t_wake k) t).
Proof.
  revert d t. induction j as [|j IH]; intros d t Hk Hth Hpc Hoff Hwake Hd;
    cbn [telescope_join];
    assert (Halive : telescope_task_alive t = true)
      by (unfold telescope_task_alive, task_alive; rewrite Hth, Hk; cbn; rewrite Hpc;
          reflexivity);
    rewrite Halive.
  - assert (d = 0)%nat by lia. subst d.
    assert (Hnow : ct_now t = t_wake k) by lia.
    rewrite (ct_set_now_same t (t_wake k) Hnow).
    rewrite (telescope_settle_wakes t k Hk Hpc) by (exact Hoff || lia).
    destruct (telescope_task_alive (woken k t)); reflexivity.
  - destruct d as [|d].
    + assert (Hnow : ct_now t = t_wake k) by lia.
      rewrite (ct_set_now_same t (t_wake k) Hnow).
      rewrite (telescope_settle_wakes t k Hk Hpc) by (exact Hoff || lia).
      destruct (woken_facts k t) as (Hks & _ & _ & Hth' & _).
      assert (Hdead : telescope_task_alive (woken k t) = false).
      { unfold telescope_task_alive. rewrite Hth', Hth, Hks. reflexivity. }
      rewrite Hdead. reflexivity.
    + rewrite (telescope_settle_asleep t k Hk) by lia. rewrite Halive.
      rewrite (IH d (ct_set_now (ct_now t + 1)%N t) Hk Hth Hpc Hoff).
      * destruct t as [[b r nw] c th ks]. reflexivity.
      * destruct t as [[b r nw] c th ks]. unfold ct_set_now, ct_now, ct_set_scope in *.
        cbn in *. lia.
      * lia.
Qed.

Lemma telescope_stop_runs (t : CustomTelescope) :
  telescope_stop t
  = (Returned tt,
     if telescope_task_alive (ct_set_running false t)
     then telescope_join 16 (ct_set_running false t)
     else ct_set_running false t).
Proof.
  cbv beta iota zeta delta [telescope_stop base_stop bind modify read ret id].
  destruct (telescope_task_alive (ct_set_running false t)); reflexivity.
Qed.

(** X23. A telescope whose one background task is asleep when [stop] is
    called: [stop] returns normally, after 2 s at most; if the task has more
    than 2 s left to sleep, [stop] returns with the task still alive and no
    event emitted. In either case the task, which tests [running] only
    before it sleeps, makes one more pass when its sleep ends: exactly one
    further CUSTOM_STATUS_UPDATE event, with the next counter, is emitted
    after [running] was cleared, and then the task has ended. *)
Theorem task_asleep_at_stop_reports_once_more
    (t : CustomTelescope) (k : task) (d n : nat) :
  tasks t = [k] -> custom_tracking_thread t = Some 0%nat -> t_pc k = TSleep ->
  t_wake k = (ct_now t + N.of_nat d)%N -> (d <= n)%nat ->
  let stopped := exec telescope_stop t in
  let later := telescope_elapse n stopped in
  fst (telescope_stop t) = Returned tt
  /\ ct_running stopped = false
  /\ (ct_now stopped <= ct_now t + 16)%N
  /\ ((16 < d)%nat ->
      telescope_task_alive stopped = true
      /\ events (base stopped) = events (base t))
  /\ events (base later) = (events (base t) ++ [status_update k (t_wake k)])%list
  /\ tasks later
     = [{| t_counter := t_counter k + 1; t_pc := TDone; t_wake := t_wake k |}]
  /\ ct_running later = false.
Proof.
  intros Hk Hth Hpc Hwake Hd stopped later.
  set (t0 := ct_set_running false t).
  assert (Hk0 : tasks t0 = [k]) by exact Hk.
  assert (Hth0 : custom_tracking_thread t0 = Some 0%nat) by exact Hth.
  assert (Hoff0 : ct_running t0 = false) by reflexivity.
  assert (Hwake0 : t_wake k = (ct_now t0 + N.of_nat d)%N) by exact Hwake.
  assert (Halive : telescope_task_alive t0 = true).
  { unfold telescope_task_alive, task_alive. rewrite Hth0, Hk0. cbn. rewrite Hpc.
    reflexivity. }
  assert (Hstopped : stopped = telescope_join 16 t0).
  { subst stopped. unfold exec. rewrite telescope_stop_runs. fold t0.
    rewrite Halive. reflexivity. }
  split; [rewrite telescope_stop_runs; reflexivity|].
  set (w := woken k (ct_set_now (t_wake k) t0)).
  destruct (woken_facts k (ct_set_now (t_wake k) t0)) as (Hwk & Hwn & Hwr & Hwt & Hwe).
  fold w in Hwk, Hwn, Hwr, Hwt, Hwe.
  change (ct_now (ct_set_now (t_wake k) t0)) with (t_wake k) in Hwk, Hwn, Hwe.
  change (events (base (ct_set_now (t_wake k) t0))) with (events (base t)) in Hwe.
  change (ct_running (ct_set_now (t_wake k) t0)) with false in Hwr.
  destruct (le_lt_dec d 16) as [Hshort|Hlong].
  - assert (Hs : stopped = w).
    { rewrite Hstopped.
      apply (telescope_join_sees_the_pass 16 d t0 k Hk0 Hth0 Hpc Hoff0 Hwake0 Hshort). }
    assert (Hl : later = ct_set_now (ct_now w + N.of_nat n)%N w).
    { subst later. rewrite Hs. apply telescope_elapse_done. rewrite Hwk. reflexivity. }
    rewrite Hl, Hs.
    split; [exact Hwr|]. split; [rewrite Hwn; change (ct_now t0) with (ct_now t) in Hwake0; lia|].
    split; [intros Hcontra; lia|].
    split; [exact Hwe|]. split; [exact Hwk | exact Hwr].
  - assert (Hs : stopped = ct_set_now (ct_now t0 + 16)%N t0).
    { rewrite Hstopped.
      apply (telescope_join_times_out 16 d t0 k Hk0 Hth0 Hpc Hwake0 Hlong). }
    assert (Hl : later = ct_set_now (ct_now stopped + N.of_nat n)%N w).
    { subst later.
      rewrite (telescope_elapse_asleep n (d - 16) stopped k).
      - rewrite Hs. reflexivity.
      - rewrite Hs. exact Hk.
      - exact Hpc.
      - rewrite Hs. reflexivity.
      - rewrite Hs. change (ct_now (ct_set_now (ct_now t0 + 16) t0)) with (ct_now t0 + 16)%N.
        lia.
      - lia. }
    rewrite Hl.
    split; [rewrite Hs; reflexivity|].
    split; [rewrite Hs; change (ct_now (ct_set_now (ct_now t0 + 16) t0)) with (ct_now t + 16)%N; lia|].
    split.
    { intros _. rewrite Hs. split; [exact Halive | reflexivity]. }
    split; [exact Hwe|]. split; [exact Hwk | exact Hwr].
Qed.

Lemma telescope_elapse_more (n : nat) (t : CustomTelescope) :
  telescope_elapse (S n) t
  = telescope_settle
      (ct_set_now (ct_now (telescope_elapse n t) + 1)%N (telescope_elapse n t)).
Proof.
  revert t. induction n as [|n IH]; intros t; [reflexivity|].
  change (telescope_elapse (S (S n)) t)
    with (telescope_elapse (S n)
            (ct_set_now (ct_now (telescope_settle t) + 1)%N (telescope_settle t))).
  rewrite IH. reflexivity.
Qed.

(** With [running] true, a sleeping task whose sleep is over runs its pass
    and sleeps again. *)
Lemma telescope_settle_reports (t : CustomTelescope) (k : task) :
  tasks t = [k] -> t_pc k = TSleep -> (t_wake k <= ct_now t)%N ->
  ct_running t = true ->
  let t' := telescope_settle t in
  tasks t' = [{| t_counter := t_counter k + 1; t_pc := TSleep;
                 t_wake := (ct_now t + 40)%N |}]
  /\ ct_now t' = ct_now t /\ ct_running t' = true
  /\ custom_tracking_thread t' = custom_tracking_thread t
  /\ reported t' = (reported t ++ [Some (VInt (t_counter k + 1))])%list.
Proof.
  intros Hk Hpc Hdue Hon t'. subst t'. unfold telescope_settle. rewrite Hk.
  cbn [telescope_settle_tasks]. unfold task_alive. rewrite Hpc.
  replace (t_wake k <=? ct_now t)%N with true by (symmetry; apply N.leb_le; exact Hdue).
  cbn [andb]. unfold custom_task_resume. rewrite Hpc.
  unfold exec, custom_task_pass, custom_task_test, bind, read, send_event,
    set_property, modify, ret. cbn.
  unfold ct_running in *. cbn. rewrite Hon. cbn.
  repeat split.
  unfold reported, events_named. cbn. rewrite List.filter_app, map_app. reflexivity.
Qed.

Lemma div_forty_next (n : nat) :
  (S n / 40 = if n mod 40 =? 39 then S (n / 40) else n / 40)%nat.
Proof.
  pose proof (Nat.div_mod_eq n 40) as Hn.
  pose proof (Nat.mod_upper_bound n 40 ltac:(lia)) as Hr.
  destruct (Nat.eqb_spec (n mod 40) 39) as [H39|H39]; symmetry.
  - apply (Nat.div_unique (S n) 40 (S (n / 40)) 0); lia.
  - apply (Nat.div_unique (S n) 40 (n / 40) (S (n mod 40))); lia.
Qed.

Lemma reporting_next (n : nat) (t : CustomTelescope) :
  reporting n t ->
  reporting (S n) (telescope_settle (ct_set_now (ct_now t + 1)%N t)).
Proof.
  intros (Hnow & Hon & Hth & Hk & Hrep).
  set (k := {| t_counter := Z.of_nat (n / 40); t_pc := TSleep;
               t_wake := N.of_nat (40 * (n / 40 + 1)) |}) in *.
  set (t1 := ct_set_now (ct_now t + 1)%N t).
  assert (Hk1 : tasks t1 = [k]) by exact Hk.
  assert (Hnow1 : ct_now t1 = N.of_nat (S n)).
  { change (ct_now t1) with (ct_now t + 1)%N. lia. }
  assert (Hrep1 : reported t1 = reported t) by reflexivity.
  pose proof (Nat.div_mod_eq n 40) as Hn.
  pose proof (Nat.mod_upper_bound n 40 ltac:(lia)) as Hr.
  unfold reporting. rewrite div_forty_next.
  destruct (Nat.eqb_spec (n mod 40) 39) as [H39|H39].
  - destruct (telescope_settle_reports t1 k Hk1 eq_refl) as (H1 & H2 & H3 & H4 & H5).
    { rewrite Hnow1. cbn [t_wake k]. lia. }
    { exact Hon. }
    split; [rewrite H2; exact Hnow1|]. split; [exact H3|].
    split; [rewrite H4; exact Hth|]. split.
    + rewrite H1. f_equal. cbn [t_counter k]. f_equal; lia.
    + rewrite H5, Hrep1, Hrep. rewrite seq_S, map_app. cbn [map t_counter k].
      do 4 f_equal. lia.
  - rewrite (telescope_settle_asleep t1 k Hk1).
    + repeat split; assumption.
    + rewrite Hnow1. cbn [t_wake k]. lia.
Qed.

(** X24. A fresh telescope that has been started reports every five
    seconds: [n] eighths of a second after [start] it has emitted exactly
    [n / 40] CUSTOM_STATUS_UPDATE events, whose counters are 1, 2, 3, ... in
    order; it is still running, and its task is asleep until the next
    multiple of five seconds. *)
Theorem started_telescope_reports_every_five_seconds (id : string) (n : nat) :
  let t := telescope_elapse n (started_telescope id) in
  reported t = map (fun i => Some (VInt (Z.of_nat i))) (seq 1 (n / 40))
  /\ length (reported t) = (n / 40)%nat
  /\ ct_running t = true
  /\ telescope_task_alive t = true.
Proof.
  intros t.
  assert (H : reporting n t).
  { subst t. induction n as [|n IH].
    - unfold reporting. vm_compute. repeat split.
    - rewrite telescope_elapse_more. apply reporting_next. exact IH. }
  destruct H as (Hnow & Hon & Hth & Hk & Hrep).
  split; [exact Hrep|].
  split; [rewrite Hrep, length_map, length_seq; reflexivity|].
  split; [exact Hon|].
  unfold telescope_task_alive. rewrite Hth, Hk. reflexivity.
Qed.

(** ** Further properties of the switch *)

(** X18. SET_TEMPERATURE stores the temperature of the command, whatever
    kind of value it is, in the attribute and in the temperature property,
    emits no event and answers SUCCESS; a GET_TEMPERATURE that follows
    answers SUCCESS with that same value as its temperature detail. Without
    a temperature in its parameters, SET_TEMPERATURE answers ERROR with the
    message "Missing temperature parameter" and leaves the switch as it
    was. *)
Theorem set_temperature_is_read_back
    (s : Switch) (params : gmap string value) (get_params : value)
    (response response' : gmap string value) :
  (forall v, params !! "temperature" = Some v ->
     let s' := exec (switch_handle_set_temp (VDict params) response) s in
     fst (switch_handle_set_temp (VDict params) response s)
     = Returned (set_status "SUCCESS" response)
     /\ sw_temperature s' = v
     /\ props (sw_base s') !! "temperature" = Some v
     /\ events (sw_base s') = events (sw_base s)
     /\ switch_handle_get_temp get_params response' s'
        = (Returned (set_details (dict [("temperature", v)])
                       (set_status "SUCCESS" response')), s'))
  /\ (params !! "temperature" = None ->
      switch_handle_set_temp (VDict params) response s
      = (Returned (set_details (message "Missing temperature parameter")
                     (set_status "ERROR" response)), s)).
Proof.
  split.
  - intros v Hv s'. subst s'.
    unfold switch_handle_set_temp, exec.
    rewrite !lift_bind. cbn [contains getitem].
    rewrite bool_decide_eq_true_2 by (rewrite Hv; eauto).
    rewrite !lift_bind. cbn [getitem]. rewrite Hv.
    unfold switch_handle_get_temp, bind, read, modify, set_property, ret.
    cbn. repeat split. apply lookup_insert_eq.
  - intros Hnone. unfold switch_handle_set_temp.
    rewrite lift_bind. cbn [contains].
    rewrite bool_decide_eq_false_2 by (rewrite Hnone; intros [? ?]; discriminate).
    reflexivity.
Qed.

(** X19. SET_TEMPERATURE does not check that the temperature is a number.
    When it is not (a text, a list, null), the command is still answered
    with SUCCESS, and the next pass of the update thread of a running switch
    fails on the addition: the thread ends there, without an event and
    without any change to the switch. *)
Theorem temperature_that_is_no_number_ends_the_update_thread
    (s : Switch) (params response : gmap string value) (v : value) (t : sthread) :
  params !! "temperature" = Some v ->
  as_num v = None ->
  sw_running s = Some true ->
  sthread_alive t = true ->
  let s' := exec (switch_handle_set_temp (VDict params) response) s in
  fst (switch_handle_set_temp (VDict params) response s)
  = Returned (set_status "SUCCESS" response)
  /\ fst (switch_update_body s') = Raised TypeError
  /\ switch_resume t s' = ({| s_pc := SDone; s_wake := sw_now s' |}, s').
Proof.
  intros Hv Hnum Hrun Halive s'.
  assert (Hs' : switch_handle_set_temp (VDict params) response s
                = (Returned (set_status "SUCCESS" response),
                   exec (set_property "temperature" v) (sw_set_temperature v s))).
  { unfold switch_handle_set_temp.
    rewrite !lift_bind. cbn [contains getitem].
    rewrite bool_decide_eq_true_2 by (rewrite Hv; eauto).
    rewrite !lift_bind. cbn [getitem]. rewrite Hv. reflexivity. }
  assert (Heq : s' = exec (set_property "temperature" v) (sw_set_temperature v s)).
  { subst s'. unfold exec at 1. rewrite Hs'. reflexivity. }
  rewrite Hs'. split; [reflexivity|].
  assert (Hbody : switch_update_body s' = (Raised TypeError, s')).
  { unfold switch_update_body, bind, read, lift, add_num.
    replace (sw_temperature s') with v by (rewrite Heq; reflexivity).
    rewrite Hnum. reflexivity. }
  split; [rewrite Hbody; reflexivity|].
  unfold switch_resume.
  replace (sw_running s') with (Some true) by (rewrite Heq; symmetry; exact Hrun).
  rewrite Hbody.
  unfold sthread_alive in Halive. destruct (s_pc t); [reflexivity | reflexivity | discriminate].
Qed.

Lemma switch_update_body_published : preserves temperature_published switch_update_body.
Proof.
  intros s Hs. unfold switch_update_body, exec, bind, read, lift.
  destruct (add_num (sw_temperature s) (NFloat (fst (random_draws (sw_now s)))))
    as [t'|e]; [|exact Hs].
  unfold modify, set_property, send_event, ret.
  destruct (snd (random_draws (sw_now s)) <? 0.2)%float; cbn;
    unfold temperature_published; cbn; apply lookup_insert_eq.
Qed.

Lemma switch_resume_published (t : sthread) (s : Switch) :
  temperature_published s -> temperature_published (snd (switch_resume t s)).
Proof.
  intros Hs. unfold switch_resume.
  destruct (s_pc t); try exact Hs.
  all: destruct (sw_running s) as [[]|]; try exact Hs.
  all: pose proof (switch_update_body_published s Hs) as Hb; unfold exec in Hb.
  all: destruct (switch_update_body s) as [[[]|e] s']; exact Hb.
Qed.

Lemma switch_settle_threads_published (ts : list sthread) (s : Switch) :
  temperature_published s -> temperature_published (snd (switch_settle_threads ts s)).
Proof.
  revert s. induction ts as [|t ts IH]; intros s Hs; cbn [switch_settle_threads];
    [exact Hs|].
  assert (Ht : temperature_published
                 (snd (if sthread_alive t && (s_wake t <=? sw_now s)%N
                       then switch_resume t s else (t, s)))).
  { destruct (sthread_alive t && (s_wake t <=? sw_now s)%N);
      [apply switch_resume_published|]; exact Hs. }
  destruct (if sthread_alive t && (s_wake t <=? sw_now s)%N
            then switch_resume t s else (t, s)) as [t' s'].
  cbn [snd] in Ht. specialize (IH s' Ht).
  destruct (switch_settle_threads ts s') as [rest s'']. exact IH.
Qed.

Lemma switch_settle_published (s : Switch) :
  temperature_published s -> temperature_published (switch_settle s).
Proof.
  intros Hs. unfold switch_settle.
  pose proof (switch_settle_threads_published (sw_threads s) s Hs) as H.
  destruct (switch_settle_threads (sw_threads s) s) as [ts s']. exact H.
Qed.

Lemma switch_elapse_published (k : nat) (s : Switch) :
  temperature_published s -> temperature_published (switch_elapse k s).
Proof.
  revert s. induction k as [|k IH]; intros s Hs; cbn [switch_elapse].
  - apply switch_settle_published. exact Hs.
  - apply IH. apply (switch_settle_published s Hs).
Qed.

Lemma switch_join_published (k : nat) (s : Switch) :
  temperature_published s -> temperature_published (switch_join k s).
Proof.
  revert s. induction k as [|k IH]; intros s Hs; cbn [switch_join];
    (destruct (switch_thread_alive s); [|exact Hs]).
  - destruct (switch_thread_alive (switch_settle s));
      apply switch_settle_published; exact Hs.
  - destruct (switch_thread_alive (switch_settle s));
      [|apply switch_settle_published; exact Hs].
    apply IH. apply (switch_settle_published s Hs).
Qed.

Lemma switch_perform_published (a : switch_action) (s : Switch) :
  temperature_published s -> temperature_published (switch_perform a s).
Proof.
  intros Hs. destruct a; cbn [switch_perform].
  - destruct base_ok; exact Hs.
  - unfold exec. rewrite switch_stop_runs. cbn [snd].
    destruct (sw_update_thread s); [apply switch_join_published|]; exact Hs.
  - exact Hs.
  - unfold switch_handle_set_temp, exec. rewrite lift_bind.
    destruct (contains "temperature" params) as [[]|e]; try exact Hs.
    rewrite lift_bind.
    destruct (getitem params "temperature") as [v|e]; [|exact Hs].
    unfold temperature_published. cbn. apply lookup_insert_eq.
  - apply switch_elapse_published. exact Hs.
Qed.

(** X20. In every state a controller can bring a switch to (by starting and
    stopping it, by GET_TEMPERATURE and SET_TEMPERATURE commands with any
    parameters, and by waiting while the update thread runs), the
    temperature property holds the value of the temperature attribute. *)
Theorem switch_publishes_its_temperature (id : string) (l : list switch_action) :
  let s := switch_run l (switch_init id) in
  props (sw_base s) !! "temperature" = Some (sw_temperature s).
Proof.
  intros s. subst s.
  assert (H : forall l s, temperature_published s ->
                temperature_published (switch_run l s)).
  { clear l. intros l. induction l as [|a l IH]; intros s Hs; cbn; [exact Hs|].
    apply IH. apply switch_perform_published. exact Hs. }
  apply H. reflexivity.
Qed.



End Kernel.

(** ** Closed instances *)

(** C1 at work: a fresh camera that has just started a 2 s exposure refuses
    a second [start_exposure]. *)
Lemma start_exposure_rejected_while_exposing_witness :
  is_exposing (exposure_of_two_seconds true "camera") = true
  /\ start_exposure 5 (VBool true) (exposure_of_two_seconds true "camera")
     = (Returned false, exposure_of_two_seconds true "camera").
Proof.
  split; [vm_compute; reflexivity|].
  exact (proj1 (start_exposure_rejected_while_exposing
                  epoch_timestamp no_float_text
                  (exposure_of_two_seconds true "camera") 5 (VBool true)
                  (command "START_EXPOSURE" [("duration", VFloat 5)]) ∅
                  eq_refl)).
Defined.

(** C6 at work: the guider as [PiGuider.__init__] builds it, with the
    sequence 1.5, 2.0, 2.5, 2.0, 1.5. *)
Lemma dither_cursor_is_circular_witness :
  Guider.dither_sequence (Guider.init "guider")
  = [VFloat 1.5; VFloat 2; VFloat 2.5; VFloat 2; VFloat 1.5]
  /\ Guider.dither_index (Guider.init "guider") = 0
  /\ fst (Guider.auto_dithers 7 (Guider.init "guider")) = [0; 1; 2; 3; 4; 0; 1].
Proof.
  split; [reflexivity|]. split; [reflexivity|].
  exact (proj1 (dither_cursor_is_circular (Guider.init "guider")
                  (VFloat 1.5) (VFloat 2) (VFloat 2.5) (VFloat 2) (VFloat 1.5)
                  eq_refl eq_refl)).
Defined.

(** C9 fails on the code: a camera is started, a 10 s exposure begins one
    second later and [stop] is called at once. [stop] returns normally after
    its two waits while the exposure thread is still in its progress loop. *)
Lemma stop_swallows_a_running_exposure :
  ~ stop_surfaces_unfinished_threads epoch_timestamp no_float_text flat_exp class_name.
Proof.
  intros Hclaim.
  specialize (Hclaim
    (run epoch_timestamp no_float_text flat_exp class_name
       [CallStart true; Wait 8; CallStartExposure 10 (VBool true)]
       (init "camera"))).
  destruct Hclaim as [_ Halive].
  - exists "camera", [CallStart true; Wait 8; CallStartExposure 10 (VBool true)].
    reflexivity.
  - vm_compute. reflexivity.
  - vm_compute in Halive. discriminate.
Qed.

(** *** The further properties at work *)

(** A fresh camera is idle: an abort is refused. *)
Lemma abort_without_exposure_is_refused_witness :
  is_exposing (init "camera") = false
  /\ abort_exposure epoch_timestamp (init "camera") = (Returned false, init "camera").
Proof.
  assert (H : is_exposing (init "camera") = false) by (vm_compute; reflexivity).
  split; [exact H|].
  exact (proj1 (abort_without_exposure_is_refused epoch_timestamp no_float_text
                  (init "camera") ∅ ∅ H)).
Defined.

(** A camera that has just started a 2 s exposure: the abort command ends
    it. *)
Lemma abort_command_ends_the_exposure_once_witness :
  is_exposing (exposure_of_two_seconds false "camera") = true
  /\ is_exposing
       (exec (handle_abort_exposure epoch_timestamp ∅ ∅)
          (exposure_of_two_seconds false "camera")) = false.
Proof.
  assert (H : is_exposing (exposure_of_two_seconds false "camera") = true)
    by (vm_compute; reflexivity).
  split; [exact H|].
  exact (proj1 (proj2 (abort_command_ends_the_exposure_once epoch_timestamp
                         (exposure_of_two_seconds false "camera") ∅ ∅ H))).
Defined.

(** START_EXPOSURE with a duration of 2.0 on a fresh camera. *)
Lemma start_exposure_command_on_idle_camera_witness :
  is_exposing (init "camera") = false
  /\ command "START_EXPOSURE" [("duration", VFloat 2)] !! "parameters"
     = Some (VDict (<["duration" := VFloat 2]> ∅))
  /\ (<["duration" := VFloat 2]> ∅ : gmap string value) !! "duration" = Some (VFloat 2)
  /\ float_of no_float_text (VFloat 2) = Returned 2%float
  /\ is_exposing
       (exec (handle_start_exposure epoch_timestamp no_float_text
                (command "START_EXPOSURE" [("duration", VFloat 2)]) ∅)
          (init "camera")) = true.
Proof.
  assert (H1 : is_exposing (init "camera") = false) by (vm_compute; reflexivity).
  assert (H2 : command "START_EXPOSURE" [("duration", VFloat 2)] !! "parameters"
               = Some (VDict (<["duration" := VFloat 2]> ∅)))
    by (vm_compute; reflexivity).
  assert (H3 : (<["duration" := VFloat 2]> ∅ : gmap string value) !! "duration"
               = Some (VFloat 2))
    by (vm_compute; reflexivity).
  assert (H4 : float_of no_float_text (VFloat 2) = Returned 2%float) by reflexivity.
  repeat (split; [assumption|]).
  exact (proj1 (proj2 (start_exposure_command_on_idle_camera
                         epoch_timestamp no_float_text (init "camera")
                         (command "START_EXPOSURE" [("duration", VFloat 2)]) ∅
                         (<["duration" := VFloat 2]> ∅) (VFloat 2) 2%float
                         H1 H2 H3 H4))).
Defined.

(** START_EXPOSURE with an empty parameter map. *)
Lemma commands_without_their_required_parameter_witness :
  command "START_EXPOSURE" [] !! "parameters" = Some (VDict ∅)
  /\ handle_start_exposure epoch_timestamp no_float_text
       (command "START_EXPOSURE" []) ∅ (init "camera")
     = (Returned (respond "ERROR" (message "Missing required parameter: duration") ∅),
        init "camera").
Proof.
  assert (H : command "START_EXPOSURE" [] !! "parameters" = Some (VDict ∅))
    by (vm_compute; reflexivity).
  split; [exact H|].
  exact (proj1 (commands_without_their_required_parameter
                  epoch_timestamp no_float_text (init "camera")
                  (command "START_EXPOSURE" []) ∅ ∅ H) eq_refl).
Defined.

(** A thread in its readout wakes on a camera whose [is_exposing] is false,
    as after an abort: the image becomes ready all the same. *)
Lemma readout_completes_whatever_the_flag_witness :
  j_pc {| j_exposure_time := 2; j_is_light := VBool true; j_start_time := 0;
          j_pc := JReadout; j_wake := 8 |} = JReadout
  /\ is_exposing (init "camera") = false
  /\ image_ready
       (exec (job_step epoch_timestamp flat_exp class_name
                {| j_exposure_time := 2; j_is_light := VBool true; j_start_time := 0;
                   j_pc := JReadout; j_wake := 8 |})
          (init "camera")) = true.
Proof.
  split; [reflexivity|]. split; [vm_compute; reflexivity|].
  exact (proj1 (proj2 (proj2 (readout_completes_whatever_the_flag
                                epoch_timestamp flat_exp class_name
                                {| j_exposure_time := 2; j_is_light := VBool true;
                                   j_start_time := 0; j_pc := JReadout; j_wake := 8 |}
                                (init "camera") eq_refl eq_refl)))).
Defined.

(** A thread that first runs on an idle camera. *)
Lemma thread_of_an_aborted_exposure_only_announces_witness :
  j_pc {| j_exposure_time := 2; j_is_light := VBool true; j_start_time := 0;
          j_pc := JStart; j_wake := 0 |} = JStart
  /\ is_exposing (init "camera") = false
  /\ exists j',
       fst (job_step epoch_timestamp flat_exp class_name
              {| j_exposure_time := 2; j_is_light := VBool true; j_start_time := 0;
                 j_pc := JStart; j_wake := 0 |}
              (init "camera")) = Returned j'
       /\ job_alive j' = false.
Proof.
  assert (H : is_exposing (init "camera") = false) by (vm_compute; reflexivity).
  split; [reflexivity|]. split; [exact H|].
  exact (proj1 (thread_of_an_aborted_exposure_only_announces
                  epoch_timestamp flat_exp class_name
                  {| j_exposure_time := 2; j_is_light := VBool true;
                     j_start_time := 0; j_pc := JStart; j_wake := 0 |}
                  (init "camera") eq_refl H)).
Defined.

(** The sensor of 1936 by 1096 pixels: 4243712 bytes. *)
Lemma get_image_reports_two_bytes_per_pixel_witness :
  0 < width (init "camera") /\ 0 < height (init "camera")
  /\ exists details,
       handle_get_image epoch_timestamp ∅ ∅
         (exec (job_step epoch_timestamp flat_exp class_name
                  {| j_exposure_time := 2; j_is_light := VBool true; j_start_time := 0;
                     j_pc := JReadout; j_wake := 8 |})
            (init "camera"))
       = (Returned (respond "SUCCESS" (VDict details) ∅),
          exec (job_step epoch_timestamp flat_exp class_name
                  {| j_exposure_time := 2; j_is_light := VBool true; j_start_time := 0;
                     j_pc := JReadout; j_wake := 8 |})
            (init "camera"))
       /\ details !! "size_bytes"
          = Some (VInt (2 * (height (init "camera") * width (init "camera")))).
Proof.
  assert (Hw : 0 < width (init "camera")) by (vm_compute; reflexivity).
  assert (Hh : 0 < height (init "camera")) by (vm_compute; reflexivity).
  split; [exact Hw|]. split; [exact Hh|].
  destruct (get_image_reports_two_bytes_per_pixel
              epoch_timestamp flat_exp class_name
              {| j_exposure_time := 2; j_is_light := VBool true; j_start_time := 0;
                 j_pc := JReadout; j_wake := 8 |}
              (init "camera") ∅ ∅ eq_refl eq_refl Hw Hh) as (details & H1 & H2 & _).
  exists details. split; [exact H1 | exact H2].
Defined.

(** A pass of the loop on a camera that is cooling leaves the exposing
    property alone. *)
Lemma update_loop_touches_only_the_thermal_state_witness :
  "exposing" <> "sensor_temperature" /\ "exposing" <> "cooler_power"
  /\ beyond_cooling_loop "exposing"
       (exec update_tick (cooling_scenario epoch_timestamp "camera"))
     = beyond_cooling_loop "exposing" (cooling_scenario epoch_timestamp "camera").
Proof.
  assert (H1 : "exposing" <> "sensor_temperature") by discriminate.
  assert (H2 : "exposing" <> "cooler_power") by discriminate.
  split; [exact H1|]. split; [exact H2|].
  exact (update_loop_touches_only_the_thermal_state "exposing"
           (cooling_scenario epoch_timestamp "camera") H1 H2).
Defined.

(** The first pass of the loop on a camera that is cooling. *)
Lemma update_loop_publishes_power_and_temperature_witness :
  returns update_tick (cooling_scenario epoch_timestamp "camera") = true
  /\ props (cam_base (exec update_tick (cooling_scenario epoch_timestamp "camera")))
       !! "cooler_power"
     = Some (VInt (cooler_power
                     (exec update_tick (cooling_scenario epoch_timestamp "camera")))).
Proof.
  assert (H : returns update_tick (cooling_scenario epoch_timestamp "camera") = true)
    by (vm_compute; reflexivity).
  split; [exact H|].
  exact (proj1 (update_loop_publishes_power_and_temperature
                  (cooling_scenario epoch_timestamp "camera") H)).
Defined.

(** Twelve dithers of the guider as [__init__] builds it. *)
Lemma dither_cursor_cycles_through_any_sequence_witness :
  0 <= Guider.dither_index (Guider.init "guider")
    < Z.of_nat (length (Guider.dither_sequence (Guider.init "guider")))
  /\ fst (Guider.auto_dithers 12 (Guider.init "guider"))
     = map (dither_cycle (Guider.init "guider")) (seq 0 12).
Proof.
  assert (H : 0 <= Guider.dither_index (Guider.init "guider")
              < Z.of_nat (length (Guider.dither_sequence (Guider.init "guider"))))
    by (simpl; lia).
  split; [exact H|].
  exact (proj1 (proj2 (dither_cursor_cycles_through_any_sequence
                         (Guider.init "guider") 12 H))).
Defined.

(** A running switch is told the temperature "hot". *)
Lemma temperature_that_is_no_number_ends_the_update_thread_witness :
  (<["temperature" := VStr "hot"]> ∅ : gmap string value) !! "temperature"
  = Some (VStr "hot")
  /\ as_num (VStr "hot") = None
  /\ sw_running (exec (switch_start true) (switch_init "switch")) = Some true
  /\ sthread_alive {| s_pc := SSleep; s_wake := 16 |} = true
  /\ fst (switch_update_body (fun _ => (0, 0)%float)
            (exec (switch_handle_set_temp
                     (VDict (<["temperature" := VStr "hot"]> ∅)) ∅)
               (exec (switch_start true) (switch_init "switch"))))
     = Raised TypeError.
Proof.
  assert (H1 : (<["temperature" := VStr "hot"]> ∅ : gmap string value) !! "temperature"
               = Some (VStr "hot"))
    by (vm_compute; reflexivity).
  assert (H3 : sw_running (exec (switch_start true) (switch_init "switch")) = Some true)
    by (vm_compute; reflexivity).
  split; [exact H1|]. split; [reflexivity|]. split; [exact H3|].
  split; [reflexivity|].
  exact (proj1 (proj2 (temperature_that_is_no_number_ends_the_update_thread
                         (fun _ => (0, 0)%float)
                         (exec (switch_start true) (switch_init "switch"))
                         (<["temperature" := VStr "hot"]> ∅) ∅ (VStr "hot")
                         {| s_pc := SSleep; s_wake := 16 |}
                         H1 eq_refl H3 eq_refl))).
Defined.

(** Right after [start_exposure] the thread of the exposure is alive. *)
Lemma exposing_camera_has_a_live_exposure_thread_witness :
  is_exposing
    (run epoch_timestamp no_float_text flat_exp class_name
       [CallStartExposure 2 (VBool true)]
       (init "camera")) = true
  /\ exposure_alive
       (run epoch_timestamp no_float_text flat_exp class_name
       [CallStartExposure 2 (VBool true)]
          (init "camera")) = true.
Proof.
  assert (H : is_exposing
                (run epoch_timestamp no_float_text flat_exp class_name
       [CallStartExposure 2 (VBool true)]
                   (init "camera")) = true)
    by (vm_compute; reflexivity).
  split; [exact H|].
  exact (exposing_camera_has_a_live_exposure_thread
           epoch_timestamp no_float_text flat_exp class_name
           "camera" [CallStartExposure 2 (VBool true)] H).
Defined.

(** The aborted camera of the abort scenario, left alone for 12.5 s, its
    cooler switched on, left alone again. *)
Lemma camera_at_rest_stays_at_rest_witness :
  is_exposing (aborted_camera epoch_timestamp flat_exp class_name "camera") = false
  /\ existsb reading_out (threads (aborted_camera epoch_timestamp flat_exp class_name "camera")) = false
  /\ forallb starts_no_exposure
       [Wait 100; CallSetCooler (VBool true) (VFloat (-10)); Wait 50] = true
  /\ exposure_outcome
       (run epoch_timestamp no_float_text flat_exp class_name
          [Wait 100; CallSetCooler (VBool true) (VFloat (-10)); Wait 50]
          (aborted_camera epoch_timestamp flat_exp class_name "camera"))
     = exposure_outcome (aborted_camera epoch_timestamp flat_exp class_name "camera").
Proof.
  assert (H1 : is_exposing (aborted_camera epoch_timestamp flat_exp class_name "camera") = false)
    by (vm_compute; reflexivity).
  assert (H2 : existsb reading_out (threads (aborted_camera epoch_timestamp flat_exp class_name "camera"))
               = false)
    by (vm_compute; reflexivity).
  assert (H3 : forallb starts_no_exposure
                 [Wait 100; CallSetCooler (VBool true) (VFloat (-10)); Wait 50] = true)
    by reflexivity.
  split; [exact H1|]. split; [exact H2|]. split; [exact H3|].
  exact (proj1 (camera_at_rest_stays_at_rest
                  epoch_timestamp no_float_text flat_exp class_name
                  (aborted_camera epoch_timestamp flat_exp class_name "camera")
                  [Wait 100; CallSetCooler (VBool true) (VFloat (-10)); Wait 50]
                  H1 H2 H3)).
Defined.

(** A telescope is started and stopped at once, while its task sleeps its
    first five seconds: [stop] returns with the task alive, and five seconds
    after the start the task still reports. *)
Lemma task_asleep_at_stop_reports_once_more_witness :
  let draws := fun _ : N => (0, 0, 0)%float in
  let t := telescope_elapse epoch_timestamp draws 0 (started_telescope "telescope") in
  let k := {| t_counter := 0; t_pc := TSleep; t_wake := 40 |} in
  tasks t = [k]
  /\ custom_tracking_thread t = Some 0%nat
  /\ t_wake k = (ct_now t + N.of_nat 40)%N
  /\ telescope_task_alive (exec (telescope_stop epoch_timestamp draws) t) = true
  /\ events (base (telescope_elapse epoch_timestamp draws 40
                     (exec (telescope_stop epoch_timestamp draws) t)))
     = (events (base t) ++ [status_update epoch_timestamp draws k 40])%list.
Proof.
  intros draws t k.
  assert (H1 : tasks t = [k]) by (vm_compute; reflexivity).
  assert (H2 : custom_tracking_thread t = Some 0%nat) by (vm_compute; reflexivity).
  assert (H3 : t_wake k = (ct_now t + N.of_nat 40)%N) by (vm_compute; reflexivity).
  assert (H4 : (40 <= 40)%nat) by lia.
  assert (H5 : (16 < 40)%nat) by lia.
  split; [exact H1|]. split; [exact H2|]. split; [exact H3|].
  destruct (task_asleep_at_stop_reports_once_more epoch_timestamp draws t k 40 40
              H1 H2 eq_refl H3 H4) as (_ & _ & _ & Halive & Hevents & _).
  split; [exact (proj1 (Halive H5)) | exact Hevents].
Defined.

(** A dark frame of a duration that is no number: the product is a NaN and
    [int] raises [ValueError]. *)
Lemma dark_frame_without_a_mean_ends_in_error_witness :
  let j := {| j_exposure_time := nan; j_is_light := VBool false;
              j_start_time := 0; j_pc := JReadout; j_wake := 8 |} in
  let c := exec (start_exposure nan (VBool false)) (init "camera") in
  dark_current flat_exp c = Raised ValueError
  /\ is_exposing c = true
  /\ is_exposing (exec (job_step epoch_timestamp flat_exp class_name j) c) = false
  /\ image_data (exec (job_step epoch_timestamp flat_exp class_name j) c) = None.
Proof.
  intros j c.
  assert (H : dark_current flat_exp c = Raised ValueError)
    by (vm_compute; reflexivity).
  split; [exact H|]. split; [vm_compute; reflexivity|].
  destruct (dark_frame_without_a_mean_ends_in_error
              epoch_timestamp flat_exp class_name j c ValueError
              eq_refl eq_refl H) as (_ & H1 & _ & H2 & _).
  split; [exact H1|]. rewrite H2. vm_compute. reflexivity.
Defined.

(** A dark frame on a fresh camera, whose exposure time is 0.0: the mean
    is 0. *)
Lemma dark_frame_with_a_mean_completes_witness :
  let j := {| j_exposure_time := 2; j_is_light := VBool false;
              j_start_time := 0; j_pc := JReadout; j_wake := 8 |} in
  dark_current flat_exp (init "camera") = Returned 0
  /\ image_ready
       (exec (job_step epoch_timestamp flat_exp class_name j) (init "camera"))
     = true.
Proof.
  intros j.
  assert (H : dark_current flat_exp (init "camera") = Returned 0)
    by (vm_compute; reflexivity).
  split; [exact H|].
  exact (proj1 (proj2 (proj2 (dark_frame_with_a_mean_completes
                                epoch_timestamp flat_exp class_name j
                                (init "camera") 0 eq_refl eq_refl H)))).
Defined.
